(** * Analytic engine: ingestion pipeline and analytics queries

    A shallow embedding of the transaction-ingestion pipeline
    ([apps/uploads/tasks.py], [apps/uploads/api.py]) and of the analytics
    endpoints ([apps/analytics/api.py]), with the properties their
    specification states and further properties of the code: what a run
    does to the store whichever calls fail, what a submission changes, and
    what the aggregates of the analytics endpoints add up to.

    Conventions of the embedding.
    - Python [str] values are [string]s over 7-bit ASCII; on that alphabet
      [\d] is [0-9], and [str.strip], [str.upper] and [str.title] are the
      functions of module [PyStr].
    - A Python [dict] is a [gmap]; [row.get(k, '')] is a lookup.
    - [decimal.Decimal] is a sign, a coefficient and a scale; its value is
      an exact rational.
    - A [datetime] is its calendar fields and an optional UTC offset
      ([None]: naive).  Ordering a naive against an aware value raises
      [TypeError], which is [None] in [dt_gt].
    - The relational store is a value (lists of rows); calls that may raise
      take their outcome from an environment record.  Text columns are
      compared character by character (a binary collation), and the widths
      of the columns ([max_length], [max_digits]) are not modelled.
    - Amounts, counts, sums and the means of the leaderboard and of the
      hourly pattern are exact rationals; the rounding of their floats is left
      to the caller.  The numbers of the anomaly detector (mean, standard
      deviation, threshold and the comparison with it) are those the store and
      the interpreter compute ([Numerics]); a statement about them assumes a
      stated accuracy.
    - Where versions of the interpreter differ, [datetime.fromisoformat] has
      the grammar of CPython 3.7 to 3.10, and whether [csv] rejects a NUL
      character is read from the environment. *)

From Stdlib Require Import ZArith QArith Lia List Ascii String Bool Arith.
From Stdlib Require Import Sorting.Sorted.
From Stdlib Require Import Reals Qreals Qround Lra.
From stdpp Require Import base option list strings gmap.
Import ListNotations.

Local Open Scope nat_scope.

(** ** Python strings *)

Module PyStr.

Definition code (c : ascii) : N := N_of_ascii c.

(** [\d] on the ASCII alphabet. *)
Definition isdigit (c : ascii) : bool :=
  ((48 <=? code c) && (code c <=? 57))%N.

(** [str.isspace]: TAB..CR, FS..US and the space. *)
Definition isspace (c : ascii) : bool :=
  (((9 <=? code c) && (code c <=? 13)) || ((28 <=? code c) && (code c <=? 32)))%N.

Definition islower (c : ascii) : bool := ((97 <=? code c) && (code c <=? 122))%N.
Definition isupper (c : ascii) : bool := ((65 <=? code c) && (code c <=? 90))%N.
Definition iscased (c : ascii) : bool := islower c || isupper c.

Definition upper_char (c : ascii) : ascii :=
  if islower c then ascii_of_N (code c - 32) else c.
Definition lower_char (c : ascii) : ascii :=
  if isupper c then ascii_of_N (code c + 32) else c.

Definition chars (s : string) : list ascii := list_ascii_of_string s.
Definition str (l : list ascii) : string := string_of_list_ascii l.

Fixpoint lstrip_chars (l : list ascii) : list ascii :=
  match l with
  | c :: l' => if isspace c then lstrip_chars l' else l
  | [] => []
  end.

Definition strip_chars (l : list ascii) : list ascii :=
  rev (lstrip_chars (rev (lstrip_chars l))).

(** [s.strip()] *)
Definition strip (s : string) : string := str (strip_chars (chars s)).

(** [s.upper()] *)
Definition upper (s : string) : string := str (map upper_char (chars s)).

(** [s.title()]: a cased character is upper-cased unless the previous
    character is cased, in which case it is lower-cased. *)
Fixpoint title_chars (previous_is_cased : bool) (l : list ascii) : list ascii :=
  match l with
  | [] => []
  | c :: l' =>
      (if previous_is_cased then lower_char c else upper_char c)
        :: title_chars (iscased c) l'
  end.

Definition title (s : string) : string := str (title_chars false (chars s)).

(** [re.sub(r'[^...]', '', s)] for a character class given as a predicate:
    the characters of the class are kept, the others removed. *)
Definition re_sub_keep (keep : ascii -> bool) (s : string) : string :=
  str (List.filter keep (chars s)).

(** [s.replace(c, r)] for a one-character pattern [c]. *)
Fixpoint replace_chars (c : ascii) (r : list ascii) (l : list ascii) : list ascii :=
  match l with
  | [] => []
  | x :: l' => (if Ascii.eqb x c then r else [x]) ++ replace_chars c r l'
  end.

Definition replace (c : ascii) (r : string) (s : string) : string :=
  str (replace_chars c (chars r) (chars s)).

Fixpoint is_suffix_rev (suf l : list ascii) : bool :=
  match suf, l with
  | [], _ => true
  | a :: suf', b :: l' => Ascii.eqb a b && is_suffix_rev suf' l'
  | _ :: _, [] => false
  end.

(** [s.endswith(suf)] *)
Definition endswith (s suf : string) : bool :=
  is_suffix_rev (rev (chars suf)) (rev (chars s)).

(** [sep.join(l)] *)
Fixpoint join (sep : string) (l : list string) : string :=
  match l with
  | [] => EmptyString
  | [x] => x
  | x :: l' => x +:+ sep +:+ join sep l'
  end.

(** [s[:n]] *)
Definition take (n : nat) (s : string) : string := str (firstn n (chars s)).

(** Truth value of a string: non-empty. *)
Definition truthy (s : string) : bool :=
  match s with EmptyString => false | String _ _ => true end.

Definition digit_val (c : ascii) : Z := Z.of_N (code c) - 48.

(** [int(ds)] for a run of decimal digits. *)
Definition digits_val (ds : list ascii) : Z :=
  fold_left (fun acc c => 10 * acc + digit_val c)%Z ds 0%Z.

(** Longest prefix satisfying [p], and the rest. *)
Fixpoint span (p : ascii -> bool) (l : list ascii) : list ascii * list ascii :=
  match l with
  | c :: l' => if p c then let '(a, b) := span p l' in (c :: a, b) else ([], l)
  | [] => ([], [])
  end.

End PyStr.

(** ** decimal.Decimal *)

Record Decimal := mkDecimal {
  dec_negative : bool;   (* sign *)
  dec_coeff : Z;         (* coefficient, non-negative *)
  dec_scale : nat        (* digits after the point: exponent = - scale *)
}.

Definition dec_value (d : Decimal) : Q :=
  Qmake (if dec_negative d then - dec_coeff d else dec_coeff d)%Z
        (Z.to_pos (10 ^ Z.of_nat (dec_scale d))).

(** [Decimal(s)] on the strings the amount substitution can leave: the
    numeric-string grammar [sign? (digits [. digits?] | . digits)].
    [None] is [InvalidOperation]. *)
Definition Decimal_of_string (s : string) : option Decimal :=
  let cs := PyStr.chars s in
  let '(neg, body) :=
    match cs with
    | "-"%char :: r => (true, r)
    | "+"%char :: r => (false, r)
    | _ => (false, cs)
    end in
  let '(ip, rest) := PyStr.span PyStr.isdigit body in
  match rest with
  | [] =>
      match ip with
      | [] => None
      | _ :: _ => Some (mkDecimal neg (PyStr.digits_val ip) 0)
      end
  | "."%char :: fp =>
      if forallb PyStr.isdigit fp
         && negb (Nat.eqb (List.length ip + List.length fp) 0)
      then Some (mkDecimal neg (PyStr.digits_val (ip ++ fp)) (List.length fp))
      else None
  | _ :: _ => None
  end.

(** [d < n] and [d > n] for an integer [n]. *)
Definition dec_lt (d : Decimal) (n : Z) : bool :=
  negb (Qle_bool (inject_Z n) (dec_value d)).
Definition dec_gt (d : Decimal) (n : Z) : bool :=
  negb (Qle_bool (dec_value d) (inject_Z n)).

(** ** datetime *)

Record datetime := mkDatetime {
  year : Z; month : Z; day : Z;
  hour : Z; minute : Z; second : Z; microsecond : Z;
  tzinfo : option Z      (* UTC offset in microseconds; None: naive *)
}.

Module PyDatetime.
Import PyStr.
Local Open Scope Z_scope.

Definition is_leap (y : Z) : bool :=
  (y mod 4 =? 0) && (negb (y mod 100 =? 0) || (y mod 400 =? 0)).

Definition days_in_month (y m : Z) : Z :=
  match m with
  | 2 => if is_leap y then 29 else 28
  | 4 | 6 | 9 | 11 => 30
  | _ => 31
  end.

Definition days_before_year (y : Z) : Z :=
  let y1 := y - 1 in y1 * 365 + y1 / 4 - y1 / 100 + y1 / 400.

Definition days_before_month (y m : Z) : Z :=
  fold_left (fun acc k => acc + days_in_month y k)
            (List.filter (fun k => k <? m) [1; 2; 3; 4; 5; 6; 7; 8; 9; 10; 11; 12]) 0.

(** Proleptic Gregorian ordinal of a date. *)
Definition ymd2ord (y m d : Z) : Z :=
  days_before_year y + days_before_month y m + d.

Definition between (lo x hi : Z) : bool := (lo <=? x) && (x <=? hi).

(** The [datetime] constructor; [None] is its [ValueError]. *)
Definition datetime_new (y m d h mi s us : Z) (tz : option Z) : option datetime :=
  if between 1 y 9999 && between 1 m 12 && between 1 d (days_in_month y m)
     && between 0 h 23 && between 0 mi 59 && between 0 s 59
     && between 0 us 999999
  then Some (mkDatetime y m d h mi s us tz)
  else None.

(** Microseconds of the calendar fields since the ordinal origin. *)
Definition wall_micros (t : datetime) : Z :=
  ((ymd2ord (year t) (month t) (day t) * 86400
    + hour t * 3600 + minute t * 60 + second t) * 1000000) + microsecond t.

(** [a > b]; [None] is the [TypeError] of ordering a naive against an
    aware datetime. *)
Definition dt_gt (a b : datetime) : option bool :=
  match tzinfo a, tzinfo b with
  | None, None => Some (wall_micros b <? wall_micros a)
  | Some oa, Some ob => Some (wall_micros b - ob <? wall_micros a - oa)
  | _, _ => None
  end.

(** [django.utils.timezone.make_aware] of a naive value in the default
    zone, which is UTC here ([TIME_ZONE = "UTC"]). *)
Definition make_aware (t : datetime) : datetime :=
  mkDatetime (year t) (month t) (day t) (hour t) (minute t) (second t)
             (microsecond t) (Some 0).

(** *** datetime.fromisoformat

    The documented grammar of CPython 3.7 to 3.10, the versions for which
    the caller's [replace('Z', '+00:00')] is needed:
    [YYYY-MM-DD[*HH[:MM[:SS[.fff[fff]]]][+HH:MM[:SS[.ffffff]]]]]. *)

Definition parse_digits (n : nat) (l : list ascii) : option (Z * list ascii) :=
  let ds := firstn n l in
  if Nat.eqb (List.length ds) n && forallb isdigit ds
  then Some (digits_val ds, skipn n l) else None.

Definition expect (c : ascii) (l : list ascii) : option (list ascii) :=
  match l with
  | x :: l' => if Ascii.eqb x c then Some l' else None
  | [] => None
  end.

Definition parse_isoformat_date (l : list ascii) : option (Z * Z * Z * list ascii) :=
  '(y, r1) ← parse_digits 4 l;
  r2 ← expect "-" r1;
  '(m, r3) ← parse_digits 2 r2;
  r4 ← expect "-" r3;
  '(d, r5) ← parse_digits 2 r4;
  Some (y, m, d, r5).

Definition parse_fraction (f : list ascii) : option Z :=
  if forallb isdigit f then
    if Nat.eqb (List.length f) 3 then Some (digits_val f * 1000)
    else if Nat.eqb (List.length f) 6 then Some (digits_val f)
    else None
  else None.

(** [HH[:MM[:SS[.fff[fff]]]]], on the whole of [l]. *)
Definition parse_hh_mm_ss_ff (l : list ascii) : option (Z * Z * Z * Z) :=
  '(h, r1) ← parse_digits 2 l;
  match r1 with
  | [] => Some (h, 0, 0, 0)
  | _ :: _ =>
      r1' ← expect ":" r1;
      '(mi, r2) ← parse_digits 2 r1';
      match r2 with
      | [] => Some (h, mi, 0, 0)
      | _ :: _ =>
          r2' ← expect ":" r2;
          '(s, r3) ← parse_digits 2 r2';
          match r3 with
          | [] => Some (h, mi, s, 0)
          | _ :: _ =>
              f ← expect "." r3;
              us ← parse_fraction f;
              Some (h, mi, s, us)
          end
      end
  end.

Definition is_sign (c : ascii) : bool := Ascii.eqb c "+" || Ascii.eqb c "-".

(** The UTC offset [+HH:MM], [+HH:MM:SS] or [+HH:MM:SS.ffffff]; it must
    be strictly within one day. *)
Definition parse_tz (sign : ascii) (tzstr : list ascii) : option Z :=
  let n := List.length tzstr in
  if Nat.eqb n 5 || Nat.eqb n 8 || Nat.eqb n 15 then
    '(h, mi, s, us) ← parse_hh_mm_ss_ff tzstr;
    let off := (h * 3600 + mi * 60 + s) * 1000000 + us in
    if off <? 86400 * 1000000
    then Some (if Ascii.eqb sign "-" then - off else off)
    else None
  else None.

Definition parse_isoformat_time (tstr : list ascii)
  : option (Z * Z * Z * Z * option Z) :=
  let '(timestr, tzrest) := span (fun c => negb (is_sign c)) tstr in
  '(h, mi, s, us) ← parse_hh_mm_ss_ff timestr;
  match tzrest with
  | [] => Some (h, mi, s, us, None)
  | sign :: tzstr =>
      off ← parse_tz sign tzstr;
      Some (h, mi, s, us, Some off)
  end.

(** [datetime.fromisoformat(s)]; [None] is [ValueError]. *)
Definition fromisoformat (s : string) : option datetime :=
  '(y, m, d, rest) ← parse_isoformat_date (chars s);
  match rest with
  | [] => datetime_new y m d 0 0 0 0 None
  | _ :: tstr =>
      '(h, mi, sec, us, tz) ← parse_isoformat_time tstr;
      datetime_new y m d h mi sec us tz
  end.

(** *** datetime.strptime

    The format becomes a regular expression: a directive is an ordered
    alternation, a run of white space is [\s+], any other character is
    itself.  The expression is matched from the start of the string with
    backtracking; data left over after the match is an error. *)

Inductive directive := dY | dm | dd | dH | dM | dS.
Inductive token := Dir (d : directive) | Lit (c : ascii) | Ws | BadDirective.

Fixpoint tokens (l : list ascii) : list token :=
  match l with
  | [] => []
  | "%"%char :: [] => [BadDirective]
  | "%"%char :: c :: l' =>
      (if Ascii.eqb c "Y" then Dir dY
       else if Ascii.eqb c "m" then Dir dm
       else if Ascii.eqb c "d" then Dir dd
       else if Ascii.eqb c "H" then Dir dH
       else if Ascii.eqb c "M" then Dir dM
       else if Ascii.eqb c "S" then Dir dS
       else BadDirective) :: tokens l'
  | c :: l' => (if isspace c then Ws else Lit c) :: tokens l'
  end.

(** A run of white space in the format is a single [\s+]. *)
Fixpoint collapse_ws (ts : list token) : list token :=
  match ts with
  | Ws :: ((Ws :: _) as ts') => collapse_ws ts'
  | t :: ts' => t :: collapse_ws ts'
  | [] => []
  end.

Definition compile_format (fmt : string) : list token :=
  collapse_ws (tokens (chars fmt)).

Definition in_range (lo hi c : ascii) : bool :=
  ((code lo <=? code c) && (code c <=? code hi))%N.

Definition alt2 (p1 p2 : ascii -> bool) (l : list ascii) : list (Z * list ascii) :=
  match l with
  | a :: b :: r => if p1 a && p2 b then [(digits_val [a; b], r)] else []
  | _ => []
  end.

Definition alt1 (p : ascii -> bool) (l : list ascii) : list (Z * list ascii) :=
  match l with
  | a :: r => if p a then [(digit_val a, r)] else []
  | _ => []
  end.

(** [ [1-9]], the last alternative of [%d]: a day padded with a space;
    [int] drops the space. *)
Definition alt_space_digit (l : list ascii) : list (Z * list ascii) :=
  match l with
  | a :: b :: r =>
      if Ascii.eqb a " " && in_range "1" "9" b then [(digit_val b, r)] else []
  | _ => []
  end.

(** The alternatives of a directive that match at the head of [l], in
    the order of the alternation, each with its value and the rest. *)
Definition directive_alts (d : directive) (l : list ascii) : list (Z * list ascii) :=
  match d with
  | dY => match parse_digits 4 l with Some r => [r] | None => [] end
  | dm => alt2 (in_range "1" "1") (in_range "0" "2") l
          ++ alt2 (in_range "0" "0") (in_range "1" "9") l
          ++ alt1 (in_range "1" "9") l
  | dd => alt2 (in_range "3" "3") (in_range "0" "1") l
          ++ alt2 (in_range "1" "2") isdigit l
          ++ alt2 (in_range "0" "0") (in_range "1" "9") l
          ++ alt1 (in_range "1" "9") l
          ++ alt_space_digit l
  | dH => alt2 (in_range "2" "2") (in_range "0" "3") l
          ++ alt2 (in_range "0" "1") isdigit l
          ++ alt1 isdigit l
  | dM => alt2 (in_range "0" "5") isdigit l ++ alt1 isdigit l
  | dS => alt2 (in_range "6" "6") (in_range "0" "1") l
          ++ alt2 (in_range "0" "5") isdigit l
          ++ alt1 isdigit l
  end.

(** The suffixes left by [\s+], the longest match first. *)
Fixpoint ws_alts (l : list ascii) : list (list ascii) :=
  match l with
  | c :: l' => if isspace c then ws_alts l' ++ [l'] else []
  | [] => []
  end.

Fixpoint first_some {A B : Type} (f : A -> option B) (l : list A) : option B :=
  match l with
  | [] => None
  | a :: l' => match f a with Some b => Some b | None => first_some f l' end
  end.

Record fields := mkFields { f_Y : Z; f_m : Z; f_d : Z; f_H : Z; f_M : Z; f_S : Z }.

Definition set_field (d : directive) (v : Z) (f : fields) : fields :=
  match d with
  | dY => mkFields v (f_m f) (f_d f) (f_H f) (f_M f) (f_S f)
  | dm => mkFields (f_Y f) v (f_d f) (f_H f) (f_M f) (f_S f)
  | dd => mkFields (f_Y f) (f_m f) v (f_H f) (f_M f) (f_S f)
  | dH => mkFields (f_Y f) (f_m f) (f_d f) v (f_M f) (f_S f)
  | dM => mkFields (f_Y f) (f_m f) (f_d f) (f_H f) v (f_S f)
  | dS => mkFields (f_Y f) (f_m f) (f_d f) (f_H f) (f_M f) v
  end.

Fixpoint re_match (ts : list token) (l : list ascii) (f : fields)
  : option (fields * list ascii) :=
  match ts with
  | [] => Some (f, l)
  | Lit c :: ts' =>
      match l with
      | x :: l' => if Ascii.eqb x c then re_match ts' l' f else None
      | [] => None
      end
  | Ws :: ts' => first_some (fun l' => re_match ts' l' f) (ws_alts l)
  | Dir d :: ts' =>
      first_some (fun '(v, l') => re_match ts' l' (set_field d v f))
                 (directive_alts d l)
  | BadDirective :: _ => None
  end.

(** [datetime.strptime(s, fmt)]; [None] is [ValueError]. *)
Definition strptime (s fmt : string) : option datetime :=
  match re_match (compile_format fmt) (chars s) (mkFields 1900 1 1 0 0 0) with
  | Some (f, []) => datetime_new (f_Y f) (f_m f) (f_d f) (f_H f) (f_M f) (f_S f) 0 None
  | Some (_, _ :: _) => None
  | None => None
  end.

End PyDatetime.

(** ** Data model ([apps/core/models.py]) *)

Record Transaction := mkTransaction {
  transaction_id : string;
  merchant_id : string;
  zone : string;
  category : string;
  amount : Decimal;
  timestamp : datetime;
  customer_phone : string
}.

Record Merchant := mkMerchant {
  m_merchant_id : string;
  m_name : option string
}.

Inductive Status := QUEUED | PROCESSING | COMPLETED | FAILED.

(** The run record.  The terminal metrics that are measurements of the
    process (elapsed time, peak memory, query count, cache hit rate,
    throughput) are not part of the embedding. *)
Record UploadTask := mkUploadTask {
  task_id : string;
  status : Status;
  filename : string;
  file_size : Z;
  rows_processed : nat;
  rows_rejected : nat;
  error_message : option string
}.

Record Store := mkStore {
  transactions : list Transaction;
  merchants : list Merchant;
  upload_tasks : list UploadTask
}.

(** ** Record validator ([clean_transaction_data]) *)

(** A row of [csv.DictReader]: header name to cell; a cell is [None] when
    the line is shorter than the header. *)
Abbreviation Row := (gmap string (option string)).

(** [str(row.get(k, '') or '')] *)
Definition row_get (row : Row) (k : string) : string :=
  match row !! k with
  | Some (Some v) => v
  | _ => EmptyString
  end.

Definition category_mapping : gmap string string :=
  list_to_map
    [("GROCERY", "Grocery"); ("GROCERIES", "Grocery"); ("FOOD", "Food");
     ("ELECTRONICS", "Electronics"); ("ELECTRONIC", "Electronics");
     ("FASHION", "Fashion"); ("CLOTHING", "Fashion"); ("CLOTHES", "Fashion");
     ("TRANSPORT", "Transport"); ("TRANSPORTATION", "Transport");
     ("UTILITIES", "Utilities"); ("UTILITY", "Utilities");
     ("HEALTHCARE", "Healthcare"); ("HEALTH", "Healthcare");
     ("EDUCATION", "Education"); ("EDU", "Education")]%string.

(** The amount block: [re.sub(r'[^\d.-]', '', amount_str)], [Decimal],
    and the two range tests.  [None] is [return None]. *)
Definition amount_class (c : ascii) : bool :=
  PyStr.isdigit c || Ascii.eqb c "." || Ascii.eqb c "-".

Definition clean_amount (amount_str : string) : option Decimal :=
  let amount_clean := PyStr.re_sub_keep amount_class amount_str in
  match Decimal_of_string amount_clean with
  | None => None                                   (* InvalidOperation *)
  | Some amount =>
      if dec_lt amount 0 then None
      else if dec_gt amount 1000000 then None
      else Some amount
  end.

Definition formats : list string :=
  ["%Y-%m-%d %H:%M:%S"; "%Y-%m-%d %H:%M"; "%Y/%m/%d %H:%M:%S";
   "%d/%m/%Y %H:%M:%S"; "%Y-%m-%d"]%string.

(** The loop over [formats]: the first format that parses. *)
Definition strptime_first (timestamp_str : string) : option datetime :=
  PyDatetime.first_some (PyDatetime.strptime timestamp_str) formats.

(** The parse of the timestamp block.  [make_aware] is applied in the
    fallback branch only, as in the source. *)
Definition parse_timestamp (timestamp_str : string) : option datetime :=
  match PyDatetime.fromisoformat (PyStr.replace "Z" "+00:00" timestamp_str) with
  | Some timestamp => Some timestamp
  | None =>
      match strptime_first timestamp_str with
      | None => None
      | Some timestamp => Some (PyDatetime.make_aware timestamp)
      end
  end.

(** The timestamp block; [now] is [django_timezone.now()].  The
    [TypeError] of the comparison is caught by the block's handler. *)
Definition clean_timestamp (now : datetime) (timestamp_str : string) : option datetime :=
  let timestamp_str := PyStr.strip (PyStr.replace "010" " " timestamp_str) in
  match parse_timestamp timestamp_str with
  | None => None
  | Some timestamp =>
      match PyDatetime.dt_gt timestamp now with
      | Some true => None                          (* future timestamp *)
      | Some false => Some timestamp
      | None => None                               (* TypeError *)
      end
  end.

Definition phone_class (c : ascii) : bool := PyStr.isdigit c || Ascii.eqb c "+".

(** The phone block. *)
Definition clean_phone (customer_phone : string) : string :=
  if PyStr.truthy customer_phone then
    let phone_clean := PyStr.re_sub_keep phone_class customer_phone in
    let n := String.length (PyStr.re_sub_keep PyStr.isdigit phone_clean) in
    if (n <? 10) || (15 <? n) then "INVALID"%string else phone_clean
  else customer_phone.

(** Everything of [clean_transaction_data] but the merchant upsert. *)
Definition clean_record (now : datetime) (row : Row) : option Transaction :=
  let transaction_id := PyStr.strip (row_get row "TRANSACTION_ID") in
  let merchant_id := PyStr.strip (row_get row "MERCHANT_ID") in
  let zone := PyStr.upper (PyStr.strip (row_get row "ZONE")) in
  let category := PyStr.title (PyStr.strip (row_get row "CATEGORY")) in
  let amount_str := PyStr.strip (row_get row "AMOUNT") in
  let timestamp_str := PyStr.strip (row_get row "TIMESTAMP") in
  let customer_phone := PyStr.strip (row_get row "CUSTOMER_PHONE") in
  if negb (forallb PyStr.truthy
             [transaction_id; merchant_id; zone; category; amount_str; timestamp_str])
  then None
  else
    let category := default category (category_mapping !! PyStr.upper category) in
    match clean_amount amount_str with
    | None => None
    | Some amount =>
        match clean_timestamp now timestamp_str with
        | None => None
        | Some timestamp =>
            let customer_phone := clean_phone customer_phone in
            Some (mkTransaction transaction_id merchant_id zone category
                                amount timestamp customer_phone)
        end
    end.

Definition has_merchant (mid : string) (ms : list Merchant) : bool :=
  existsb (fun m => String.eqb (m_merchant_id m) mid) ms.

(** [Merchant.objects.get_or_create(merchant_id=mid)] *)
Definition get_or_create (mid : string) (ms : list Merchant) : list Merchant :=
  if has_merchant mid ms then ms else ms ++ [mkMerchant mid None].

(** [clean_transaction_data(row)]: the validated record or [None], and the
    merchant table after the upsert.  [upsert_ok] tells whether the upsert
    succeeds; when it raises, the record is returned all the same. *)
Definition clean_transaction_data (now : datetime) (upsert_ok : bool)
    (row : Row) (ms : list Merchant) : option Transaction * list Merchant :=
  match clean_record now row with
  | None => (None, ms)
  | Some t => (Some t, if upsert_ok then get_or_create (merchant_id t) ms else ms)
  end.

(** ** Ingestion run controller ([process_csv_file]) *)

(** What the run receives from outside the program: the clock, whether
    each call to the store returns or raises, and how the reading of the
    file and its removal end. *)
Record Env := mkEnv {
  clock : nat -> datetime;        (* [timezone.now()] while row [i] is validated *)
  merchant_ok : nat -> bool;      (* the merchant upsert of row [i] returns *)
  bulk_create_ok : nat -> bool;   (* the [k]-th [bulk_create] returns *)
  task_save_ok : nat -> bool;     (* the [k]-th [task.save()] returns *)
  reader_raises : bool;           (* the reader raises after its last row
                                     ([UnicodeDecodeError], [csv.Error]) *)
  file_remove_ok : bool           (* [os.remove] of the staged file returns *)
}.

Definition batch_size : nat := 1000.

Definition get_task (tid : string) (s : Store) : option UploadTask :=
  List.find (fun t => String.eqb (task_id t) tid) (upload_tasks s).

(** [task.save()]: the row with the task's key is overwritten. *)
Definition save_task (t : UploadTask) (s : Store) : Store :=
  mkStore (transactions s) (merchants s)
          (map (fun u => if String.eqb (task_id u) (task_id t) then t else u)
               (upload_tasks s)).

Definition has_transaction (tid : string) (ts : list Transaction) : bool :=
  existsb (fun t => String.eqb (transaction_id t) tid) ts.

(** [INSERT IGNORE]: a row whose identifier is already stored is skipped. *)
Definition insert_ignore (batch : list Transaction) (ts : list Transaction)
  : list Transaction :=
  fold_left (fun acc t => if has_transaction (transaction_id t) acc then acc
                          else acc ++ [t]) batch ts.

(** [Transaction.objects.bulk_create(batch, ignore_conflicts=True)] *)
Definition bulk_create (batch : list Transaction) (s : Store) : Store :=
  mkStore (insert_ignore batch (transactions s)) (merchants s) (upload_tasks s).

Definition set_merchants (ms : list Merchant) (s : Store) : Store :=
  mkStore (transactions s) ms (upload_tasks s).

Definition set_progress (n : nat) (t : UploadTask) : UploadTask :=
  mkUploadTask (task_id t) (status t) (filename t) (file_size t) n
               (rows_rejected t) (error_message t).

Definition set_status (st : Status) (t : UploadTask) : UploadTask :=
  mkUploadTask (task_id t) st (filename t) (file_size t) (rows_processed t)
               (rows_rejected t) (error_message t).

(** The local variables of the loop, the task object, the store, and the
    number of calls made so far. *)
Record Loop := mkLoop {
  l_rows_processed : nat;
  l_rows_failed : nat;
  l_batch_data : list Transaction;
  l_task : UploadTask;
  l_store : Store;
  l_bulk_calls : nat;
  l_save_calls : nat
}.

(** The body of [for row in reader], for row number [i].  An exception of
    a store call is caught by the body's handler, which counts the row as
    failed and continues. *)
Definition process_row (env : Env) (i : nat) (st : Loop) (row : Row) : Loop :=
  let '(transaction_data, ms) :=
    clean_transaction_data (clock env i) (merchant_ok env i) row
                           (merchants (l_store st)) in
  let store := set_merchants ms (l_store st) in
  match transaction_data with
  | Some t =>
      let batch_data := l_batch_data st ++ [t] in
      if batch_size <=? List.length batch_data then
        if bulk_create_ok env (l_bulk_calls st) then
          let store := bulk_create batch_data store in
          let rows_processed := l_rows_processed st + List.length batch_data in
          let task := set_progress rows_processed (l_task st) in
          if task_save_ok env (l_save_calls st) then
            mkLoop rows_processed (l_rows_failed st) [] task
                   (save_task task store)
                   (S (l_bulk_calls st)) (S (l_save_calls st))
          else
            mkLoop rows_processed (S (l_rows_failed st)) [] task store
                   (S (l_bulk_calls st)) (S (l_save_calls st))
        else
          mkLoop (l_rows_processed st) (S (l_rows_failed st)) batch_data
                 (l_task st) store (S (l_bulk_calls st)) (l_save_calls st)
      else
        mkLoop (l_rows_processed st) (l_rows_failed st) batch_data
               (l_task st) store (l_bulk_calls st) (l_save_calls st)
  | None =>
      mkLoop (l_rows_processed st) (S (l_rows_failed st)) (l_batch_data st)
             (l_task st) store (l_bulk_calls st) (l_save_calls st)
  end.

Fixpoint run_loop (env : Env) (i : nat) (rows : list Row) (st : Loop) : Loop :=
  match rows with
  | [] => st
  | row :: rows' => run_loop env (S i) rows' (process_row env i st row)
  end.

(** The outcome of a run: the store, the calls made, and whether the
    staged file was removed. *)
Record Run := mkRun {
  run_store : Store;
  run_bulk_calls : nat;
  run_save_calls : nat;
  run_file_removed : bool
}.

(** The handler of the outer [try]: the task is read again from the store,
    marked [FAILED] and saved; a failure of that is swallowed. *)
Definition fail_run (env : Env) (tid : string) (err : string)
    (store : Store) (bulk_calls save_calls : nat) : Run :=
  match get_task tid store with
  | None => mkRun store bulk_calls save_calls false
  | Some t =>
      let t := mkUploadTask (task_id t) FAILED (filename t) (file_size t)
                            (rows_processed t) (rows_rejected t) (Some err) in
      mkRun (if task_save_ok env save_calls then save_task t store else store)
            bulk_calls (S save_calls) false
  end.

(** [process_csv_file(task_id, file_path)].  [file] is [None] when the
    path does not exist, and otherwise the rows the reader yields, until it
    reaches the end of the file or, with [reader_raises], raises.  An
    exception of the reader is raised by [for row in reader], outside the
    handler of the loop's body, and so is one of [os.remove]: both reach the
    handler of the outer [try]. *)
Definition process_csv_file (env : Env) (tid : string)
    (file : option (list Row)) (store : Store) : Run :=
  match get_task tid store with
  | None => fail_run env tid "UploadTask matching query does not exist." store 0 0
  | Some task =>
      let task := set_status PROCESSING task in
      if negb (task_save_ok env 0) then
        fail_run env tid "task.save() failed" store 0 1
      else
        let store := save_task task store in
        match file with
        | None => fail_run env tid "File not found" store 0 1
        | Some rows =>
            let st := run_loop env 0 rows (mkLoop 0 0 [] task store 0 1) in
            if reader_raises env then
              fail_run env tid "the reader raised" (l_store st)
                       (l_bulk_calls st) (l_save_calls st)
            else
            (* Insert remaining batch *)
            let flush :=
              match l_batch_data st with
              | [] => Some (l_store st, l_rows_processed st, l_bulk_calls st)
              | _ :: _ =>
                  if bulk_create_ok env (l_bulk_calls st) then
                    Some (bulk_create (l_batch_data st) (l_store st),
                          l_rows_processed st + List.length (l_batch_data st),
                          S (l_bulk_calls st))
                  else None
              end in
            match flush with
            | None =>
                fail_run env tid "bulk_create failed" (l_store st)
                         (S (l_bulk_calls st)) (l_save_calls st)
            | Some (store, rows_processed, bulk_calls) =>
                let task :=
                  mkUploadTask (task_id (l_task st)) COMPLETED
                               (filename (l_task st)) (file_size (l_task st))
                               rows_processed (l_rows_failed st)
                               (error_message (l_task st)) in
                if task_save_ok env (l_save_calls st) then
                  (* Clean up temp file *)
                  if file_remove_ok env then
                    mkRun (save_task task store) bulk_calls
                          (S (l_save_calls st)) true
                  else
                    fail_run env tid "os.remove failed" (save_task task store)
                             bulk_calls (S (l_save_calls st))
                else
                  fail_run env tid "task.save() failed" store bulk_calls
                           (S (l_save_calls st))
            end
        end
  end.

(** The task of the run after it ended. *)
Definition final_task (tid : string) (r : Run) : option UploadTask :=
  get_task tid (run_store r).

(** The rows the validator accepts, among the rows numbered from [i]. *)
Fixpoint count_valid (env : Env) (i : nat) (rows : list Row) : nat :=
  match rows with
  | [] => 0
  | row :: rows' =>
      (match clean_record (clock env i) row with Some _ => 1 | None => 0 end)
      + count_valid env (S i) rows'
  end.

(** ** Job submission gateway ([ingest_csv]) *)

Module Csv.
Import PyStr.

(** The reader of the [csv] module in its default dialect (delimiter
    [,], quote character [dquote], doubled quotes, not strict), as far as
    the first record. *)
Inductive state :=
  START_RECORD | START_FIELD | IN_FIELD | IN_QUOTED_FIELD
| QUOTE_IN_QUOTED_FIELD | EAT_CRNL.

Record parser := mkParser {
  p_state : state;
  p_field : list ascii;      (* the field being read, reversed *)
  p_fields : list string     (* the fields read, reversed *)
}.

Definition dquote : ascii := ascii_of_nat 34.
Definition LF : ascii := ascii_of_nat 10.
Definition CR : ascii := ascii_of_nat 13.
Definition NUL : ascii := ascii_of_nat 0.

Definition is_nl (c : ascii) : bool := Ascii.eqb c LF || Ascii.eqb c CR.

Definition save_field (p : parser) (st : state) : parser :=
  mkParser st [] (str (rev (p_field p)) :: p_fields p).

Definition add_char (c : ascii) (p : parser) (st : state) : parser :=
  mkParser st (c :: p_field p) (p_fields p).

Definition set_state (p : parser) (st : state) : parser :=
  mkParser st (p_field p) (p_fields p).

(** One character; [None] is the end-of-line marker the reader feeds
    after each line.  The result [None] is [csv.Error]. *)
Definition process_char (p : parser) (c : option ascii) : option parser :=
  let start_field (p : parser) :=
    match c with
    | None => Some (save_field p START_RECORD)
    | Some x =>
        if is_nl x then Some (save_field p EAT_CRNL)
        else if Ascii.eqb x dquote then Some (set_state p IN_QUOTED_FIELD)
        else if Ascii.eqb x "," then Some (save_field p START_FIELD)
        else Some (add_char x p IN_FIELD)
    end in
  match p_state p with
  | START_RECORD =>
      match c with
      | None => Some p
      | Some x => if is_nl x then Some (set_state p EAT_CRNL) else start_field p
      end
  | START_FIELD => start_field p
  | IN_FIELD =>
      match c with
      | None => Some (save_field p START_RECORD)
      | Some x =>
          if is_nl x then Some (save_field p EAT_CRNL)
          else if Ascii.eqb x "," then Some (save_field p START_FIELD)
          else Some (add_char x p IN_FIELD)
      end
  | IN_QUOTED_FIELD =>
      match c with
      | None => Some p
      | Some x =>
          if Ascii.eqb x dquote then Some (set_state p QUOTE_IN_QUOTED_FIELD)
          else Some (add_char x p IN_QUOTED_FIELD)
      end
  | QUOTE_IN_QUOTED_FIELD =>
      match c with
      | None => Some (save_field p START_RECORD)
      | Some x =>
          if Ascii.eqb x dquote then Some (add_char x p IN_QUOTED_FIELD)
          else if Ascii.eqb x "," then Some (save_field p START_FIELD)
          else if is_nl x then Some (save_field p EAT_CRNL)
          else Some (add_char x p IN_FIELD)
      end
  | EAT_CRNL =>
      match c with
      | None => Some (set_state p START_RECORD)
      | Some x => if is_nl x then Some p else None
      end
  end.

(** The characters of one line, then the end-of-line marker.  Up to
    CPython 3.10 a NUL character in the line is [csv.Error]; from 3.11 on it
    is a character like any other.  [nul_error] tells which reader runs. *)
Fixpoint process_line (nul_error : bool) (p : parser) (line : list ascii)
  : option parser :=
  match line with
  | [] => process_char p None
  | c :: line' =>
      if nul_error && Ascii.eqb c NUL then None
      else match process_char p (Some c) with
           | None => None
           | Some p' => process_line nul_error p' line'
           end
  end.

(** The lines of a text, each with its terminating line feed. *)
Fixpoint lines_aux (cur : list ascii) (l : list ascii) : list (list ascii) :=
  match l with
  | [] => match cur with [] => [] | _ :: _ => [rev cur] end
  | c :: l' =>
      if Ascii.eqb c LF then rev (c :: cur) :: lines_aux [] l'
      else lines_aux (c :: cur) l'
  end.

Definition lines (s : string) : list (list ascii) := lines_aux [] (chars s).

Inductive outcome :=
| Error                          (* [csv.Error] *)
| NoRow                          (* the input is exhausted *)
| RowOf (fields : list string).

(** [next(reader)] *)
Fixpoint read_record (nul_error : bool) (p : parser) (ls : list (list ascii))
  : outcome :=
  match ls with
  | [] =>
      match p_field p, p_state p with
      | _ :: _, _ | _, IN_QUOTED_FIELD =>
          RowOf (rev (p_fields (save_field p START_RECORD)))
      | _, _ => NoRow
      end
  | line :: ls' =>
      match process_line nul_error p line with
      | None => Error
      | Some p' =>
          match p_state p' with
          | START_RECORD => RowOf (rev (p_fields p'))
          | _ => read_record nul_error p' ls'
          end
      end
  end.

(** [csv.DictReader(io.StringIO(sample)).fieldnames] *)
Definition fieldnames (nul_error : bool) (sample : string) : outcome :=
  read_record nul_error (mkParser START_RECORD [] []) (lines sample).

End Csv.

Record UploadedFile := mkUploadedFile {
  name : string;
  size : Z;
  content : string
}.

(** The body of a response: the status code and the message, and for an
    accepted submission the receipt (without its size in MiB, a rounded
    float).  The text of a database error is not part of the message
    modelled. *)
Record Receipt := mkReceipt {
  r_task_id : string;
  r_file_name : string;
  r_estimated_rows : Z;
  r_status : Status
}.

Inductive Response :=
| Rejected (status_code : Z) (message : string)
| Accepted (receipt : Receipt).

(** What the gateway receives from outside the program.  The queue is
    not part of it: [process_csv_file] is imported again inside the function
    (in the fallback branch), which makes the name local to the function, so
    the call [process_csv_file.delay] made before that import always raises
    [UnboundLocalError] and the run is always handed to the fallback. *)
Record GatewayEnv := mkGatewayEnv {
  new_task_id : string;       (* [uuid.uuid4()] *)
  csv_nul_error : bool;       (* the [csv] module rejects NUL (CPython <= 3.10) *)
  create_ok : bool;           (* [UploadTask.objects.create] returns *)
  write_ok : bool;            (* the staged file is written *)
  fallback_ok : bool;         (* the fallback thread starts *)
  remove_ok : bool;           (* [os.remove] of the roll-back returns *)
  delete_ok : bool            (* [upload_task.delete()] of the roll-back returns *)
}.

(** The store and the staging directory (path and content). *)
Record Gateway := mkGateway {
  g_store : Store;
  g_staged : list (string * string)
}.

Definition required_headers : list string :=
  ["TRANSACTION_ID"; "MERCHANT_ID"; "ZONE"; "CATEGORY"; "AMOUNT"; "TIMESTAMP";
   "CUSTOMER_PHONE"]%string.

Definition mem_string (x : string) (l : list string) : bool :=
  existsb (String.eqb x) l.

(** [[h for h in required_headers if h not in headers]] *)
Definition missing_headers (headers : list string) : list string :=
  List.filter (fun h => negb (mem_string h headers)) required_headers.

Definition create_task (t : UploadTask) (s : Store) : Store :=
  mkStore (transactions s) (merchants s) (upload_tasks s ++ [t]).

Definition delete_task (tid : string) (s : Store) : Store :=
  mkStore (transactions s) (merchants s)
          (List.filter (fun t => negb (String.eqb (task_id t) tid)) (upload_tasks s)).

(** The checks made before any run record is created; [None]: all pass.
    [nul_error] is the reader's treatment of NUL. *)
Definition preflight (nul_error : bool) (file : option UploadedFile)
  : option Response :=
  match file with
  | None => Some (Rejected 400 "No file provided")
  | Some f =>
      (* an uploaded file without a name is false *)
      if negb (PyStr.truthy (name f)) then Some (Rejected 400 "No file provided")
      else if (size f =? 0)%Z then Some (Rejected 400 "Empty file not allowed")
      else if negb (PyStr.endswith (name f) ".csv") then
        Some (Rejected 400 "Only CSV files allowed")
      else if (3 * 1024 * 1024 * 1024 <? size f)%Z then
        Some (Rejected 400 "File too large (max 3GB)")
      else
        let sample := PyStr.take 2048 (content f) in
        if negb (PyStr.truthy (PyStr.strip sample)) then
          Some (Rejected 400 "File appears to be empty or corrupted")
        else
          match Csv.fieldnames nul_error sample with
          | Csv.Error => Some (Rejected 400 "Malformed CSV file")
          | Csv.NoRow | Csv.RowOf [] => Some (Rejected 400 "No CSV headers found")
          | Csv.RowOf headers =>
              match missing_headers headers with
              | [] => None
              | missing =>
                  Some (Rejected 400 ("Missing required headers: "
                                      +:+ PyStr.join ", " missing))
              end
          end
  end.

(** [ingest_csv(request, file)].  A request without a file ([None]) is
    answered by the framework before the function is called; what the
    function does with one is its first check. *)
Definition ingest_csv (env : GatewayEnv) (file : option UploadedFile)
    (g : Gateway) : Response * Gateway :=
  match preflight (csv_nul_error env) file, file with
  | Some rejection, _ => (rejection, g)
  | None, None => (Rejected 400 "No file provided", g)
  | None, Some f =>
      let tid := new_task_id env in
      let safe_filename :=
        if PyStr.truthy (name f) then PyStr.take 255 (name f)
        else ("upload_" +:+ tid +:+ ".csv") in
      if negb (create_ok env) then (Rejected 500 "Database error", g)
      else
        let store := create_task (mkUploadTask tid QUEUED safe_filename (size f) 0 0 None)
                                 (g_store g) in
        let path := tid +:+ "_" +:+ safe_filename in
        if negb (write_ok env) then
          (Rejected 500 "Failed to save file", mkGateway store (g_staged g))
        else
          let staged := g_staged g ++ [(path, content f)] in
          (* [process_csv_file.delay] raises [UnboundLocalError]: the fallback *)
          if fallback_ok env then
            (Accepted (mkReceipt tid safe_filename
                                 (Z.max 1 (size f / 100)) QUEUED),
             mkGateway store staged)
          else if remove_ok env then
            (Rejected 503 "Processing queue unavailable",
             mkGateway (if delete_ok env then delete_task tid store else store)
                       (g_staged g))
          else
            (Rejected 503 "Processing queue unavailable", mkGateway store staged)
  end.

(** ** django.core.paginator.Paginator *)

Module Paginator.
Local Open Scope Z_scope.

Section Pages.
Context {A : Type}.
Variable object_list : list A.
Variable per_page : Z.

Definition count : Z := Z.of_nat (List.length object_list).

(** [ceil(max(1, count) / per_page)]: with [allow_empty_first_page]
    an empty list has one (empty) page. *)
Definition num_pages : Z :=
  let hits := Z.max 1 count in (hits + per_page - 1) / per_page.

(** [validate_number]; [None] is [EmptyPage]. *)
Definition validate_number (number : Z) : option Z :=
  if number <? 1 then None
  else if num_pages <? number then None
  else Some number.

(** [object_list[bottom:top]] *)
Definition slice (bottom top : Z) : list A :=
  firstn (Z.to_nat (top - bottom)) (skipn (Z.to_nat bottom) object_list).

(** [page(number)]; [None] is [EmptyPage]. *)
Definition page (number : Z) : option (list A) :=
  match validate_number number with
  | None => None
  | Some number =>
      let bottom := (number - 1) * per_page in
      let top := bottom + per_page in
      let top := if count <=? top then count else top in
      Some (slice bottom top)
  end.

(** [get_page(number)]: a page number out of range gives the last
    page. *)
Definition get_page (number : Z) : option (list A) :=
  match validate_number number with
  | Some number => page number
  | None => page num_pages
  end.
End Pages.
End Paginator.

(** ** Analytics endpoints ([apps/analytics/api.py]) *)

Record Pagination := mkPagination {
  pg_page : Z;
  pg_page_size : Z;
  pg_total : Z;
  pg_total_pages : Z
}.

Inductive PageResponse (A : Type) :=
| BadRequest (error : string)                        (* status 400 *)
| QueryFailed                                        (* status 500 *)
| PageOf (data : list A) (pagination : Pagination).  (* status 200 *)
Arguments BadRequest {A} error.
Arguments QueryFailed {A}.
Arguments PageOf {A} data pagination.

Definition invalid_pagination (page page_size : Z) : bool :=
  ((page <? 1) || (page_size <? 1) || (1000 <? page_size))%Z.

(** The tail of both paginated endpoints: paginate and build the body. *)
Definition paginated {A : Type} (items : list A) (page page_size : Z)
  : PageResponse A :=
  match Paginator.get_page items page_size page with
  | None => QueryFailed
  | Some page_obj =>
      PageOf page_obj
             (mkPagination page page_size (Paginator.count items)
                           (Paginator.num_pages items page_size))
  end.

(** *** Dormant merchants *)

Record DormantEntry := mkDormantEntry {
  d_merchant_id : string;
  d_merchant_name : string;
  d_zone : string
}.

Definition dormant_set (s : Store) : list Merchant :=
  let active_merchants := map merchant_id (transactions s) in
  List.filter (fun m => negb (mem_string (m_merchant_id m) active_merchants))
              (merchants s).

Definition dormant_entry (m : Merchant) : DormantEntry :=
  mkDormantEntry (m_merchant_id m)
                 (match m_name m with
                  | Some n => if PyStr.truthy n then n else "Unknown"%string
                  | None => "Unknown"%string
                  end)
                 "Unknown".

Definition dormant_merchants (s : Store) (page page_size : Z)
  : PageResponse DormantEntry :=
  if invalid_pagination page page_size then
    BadRequest "Invalid pagination parameters"
  else paginated (map dormant_entry (dormant_set s)) page page_size.

(** *** Hourly pattern *)

Definition Qsum (xs : list Q) : Q := fold_right Qplus 0%Q xs.

(** [AVG] of a non-empty group. *)
Definition Qavg (xs : list Q) : Q :=
  (Qsum xs / inject_Z (Z.of_nat (List.length xs)))%Q.

(** [Extract('timestamp', 'hour')]: the hour of the instant in UTC. *)
Definition hour_of (t : Transaction) : Z :=
  let off := default 0%Z (tzinfo (timestamp t)) in
  (((PyDatetime.wall_micros (timestamp t) - off) / 3600000000) mod 24)%Z.

Record HourRow := mkHourRow {
  h_hour : Z;
  h_transaction_count : nat;
  h_average_amount : Q
}.

Definition in_hour (h : Z) (t : Transaction) : bool := (hour_of t =? h)%Z.

(** The grouped query: one row per hour that has transactions, ordered by
    hour. *)
Definition hourly_data (txs : list Transaction) : list HourRow :=
  map (fun h =>
         let group := List.filter (in_hour h) txs in
         mkHourRow h (List.length group)
                   (Qavg (map (fun t => dec_value (amount t)) group)))
      (List.filter (fun h => existsb (in_hour h) txs) (seqZ 0 24)).

Section HourlyPattern.
(** [round(float(x), 2)]: the rounding of the binary float is left to
    the caller. *)
Variable round2 : Q -> Q.

(** [{data['hour']: data for data in hourly_data}] *)
Definition hours_dict (rows : list HourRow) : gmap Z HourRow :=
  fold_left (fun d data => <[h_hour data := data]> d) rows ∅.

Definition fill_hours (rows : list HourRow) : list HourRow :=
  let d := hours_dict rows in
  map (fun hour =>
         match d !! hour with
         | Some data =>
             mkHourRow hour (h_transaction_count data)
                       (round2 (h_average_amount data))
         | None => mkHourRow hour 0 0%Q
         end)
      (seqZ 0 24).

Definition hourly_pattern (s : Store) : list HourRow :=
  fill_hours (hourly_data (transactions s)).
End HourlyPattern.

(** *** Anomalies *)

(** The numbers of the two grouped queries.  [Avg('amount')] and
    [StdDev('amount')] are computed by the store in its own arithmetic (binary
    floats on some back ends) and reach Python as decimals; Python adds
    [mean + (3 * std)] in decimal arithmetic, which rounds to the precision of
    its context; and the store compares an amount with that threshold in its
    own arithmetic again.  Each result is a rational number.  How far it lies
    from the exact value is decided by the store and the interpreter, not by
    the program: the four operations are taken from outside. *)
Record Numerics := mkNumerics {
  avg_amount : list Q -> Q;      (* [Avg('amount')] of a group *)
  stddev_amount : list Q -> Q;   (* [StdDev('amount')] of a group *)
  threshold_of : Q -> Q -> Q;    (* [mean + (3 * std)] *)
  amount_gt : Q -> Q -> bool     (* [amount__gt=threshold] *)
}.

Definition Qsqdev (m : Q) (xs : list Q) : Q :=
  Qsum (map (fun x => (x - m) * (x - m))%Q xs).

Definition in_category (c : string) (t : Transaction) : bool :=
  String.eqb (category t) c.

Definition amounts_of (c : string) (txs : list Transaction) : list Q :=
  map (fun t => dec_value (amount t)) (List.filter (in_category c) txs).

(** A row of the grouped query.  A group is never empty, so neither
    aggregate is [NULL]. *)
Record CategoryStat := mkCategoryStat {
  cs_category : string;
  category_mean : Q;
  category_std_dev : Q
}.

(** [values('category').annotate(Avg, StdDev)]: one row per category.  With
    the default [sample=False] the deviation asked of the store is that of a
    population ([STDDEV_POP]). *)
Definition category_stats (num : Numerics) (txs : list Transaction)
  : list CategoryStat :=
  map (fun c => mkCategoryStat c (avg_amount num (amounts_of c txs))
                               (stddev_amount num (amounts_of c txs)))
      (nodup string_dec (map category txs)).

(** An entry of the result.  Its three derived annotations (mean, standard
    deviation and deviation, rounded as floats) are not modelled. *)
Record Anomaly := mkAnomaly {
  a_transaction_id : string;
  a_amount : Q;
  a_category : string
}.

Definition anomaly_of (t : Transaction) : Anomaly :=
  mkAnomaly (transaction_id t) (dec_value (amount t)) (category t).

(** [filter(category=stat['category'], amount__gt=threshold)] *)
Definition above_threshold (num : Numerics) (c : string) (threshold : Q)
    (t : Transaction) : bool :=
  in_category c t && amount_gt num (dec_value (amount t)) threshold.

(** [stat['category_std_dev'] and stat['category_std_dev'] > 0] *)
Definition std_dev_positive (std : Q) : bool := negb (Qle_bool std 0).

(** The body of [for stat in category_stats]. *)
Definition category_anomalies (num : Numerics) (txs : list Transaction)
    (stat : CategoryStat) : list Anomaly :=
  if std_dev_positive (category_std_dev stat) then
    let threshold := threshold_of num (category_mean stat) (category_std_dev stat) in
    map anomaly_of (List.filter (above_threshold num (cs_category stat) threshold) txs)
  else [].

(** [l.sort(key=amount, reverse=True)]: stable, descending. *)
Fixpoint insert_desc (x : Anomaly) (l : list Anomaly) : list Anomaly :=
  match l with
  | [] => [x]
  | y :: l' =>
      if Qle_bool (a_amount y) (a_amount x) then x :: l
      else y :: insert_desc x l'
  end.

Definition sort_desc (l : list Anomaly) : list Anomaly :=
  fold_right insert_desc [] l.

(** The list [anomalies] before pagination. *)
Definition all_anomalies (num : Numerics) (txs : list Transaction) : list Anomaly :=
  sort_desc (concat (map (category_anomalies num txs) (category_stats num txs))).

Definition anomalies (num : Numerics) (s : Store) (page page_size : Z)
  : PageResponse Anomaly :=
  if invalid_pagination page page_size then
    BadRequest "Invalid pagination parameters"
  else paginated (all_anomalies num (transactions s)) page page_size.

(** ** The claims in the specification's words, and sample inputs *)

(** The last page of a paginated list, as the paginator returns it. *)
Definition last_page {A : Type} (items : list A) (page_size : Z) : option (list A) :=
  Paginator.page items page_size (Paginator.num_pages items page_size).

Definition utc (y m d h mi s : Z) : datetime := mkDatetime y m d h mi s 0 (Some 0%Z).

(** The instant at which the sample rows are validated. *)
Definition now0 : datetime := utc 2025 1 1 0 0 0.

Definition sample_row (tid mid z c a ts phone : string) : Row :=
  list_to_map
    [("TRANSACTION_ID", Some tid); ("MERCHANT_ID", Some mid); ("ZONE", Some z);
     ("CATEGORY", Some c); ("AMOUNT", Some a); ("TIMESTAMP", Some ts);
     ("CUSTOMER_PHONE", Some phone)]%string.

Definition sample_tx (tid mid c : string) (cents : Z) (h : Z) : Transaction :=
  mkTransaction tid mid "NORTH" c (mkDecimal false cents 2) (utc 2024 1 15 h 0 0)
                "5551234567".

Definition empty_store : Store := mkStore [] [] [].

(** The cells of a row as the validator reads them. *)
Definition amount_field (row : Row) : string := PyStr.strip (row_get row "AMOUNT").
Definition timestamp_field (row : Row) : string := PyStr.strip (row_get row "TIMESTAMP").
Definition phone_field (row : Row) : string := PyStr.strip (row_get row "CUSTOMER_PHONE").

(** The six fields that must not be blank. *)
Definition required_fields (row : Row) : list string :=
  [PyStr.strip (row_get row "TRANSACTION_ID");
   PyStr.strip (row_get row "MERCHANT_ID");
   PyStr.upper (PyStr.strip (row_get row "ZONE"));
   PyStr.title (PyStr.strip (row_get row "CATEGORY"));
   amount_field row; timestamp_field row].

(** The text handed to the timestamp parsers. *)
Definition timestamp_text (row : Row) : string :=
  PyStr.strip (PyStr.replace "010" " " (timestamp_field row)).

(** The number of digits of a string. *)
Definition digit_count (s : string) : nat :=
  String.length (PyStr.re_sub_keep PyStr.isdigit s).

(** C3 as the specification words it: a string of 10 to 15 digits. *)
Definition digits_10_15 (s : string) : bool :=
  forallb PyStr.isdigit (PyStr.chars s)
  && (10 <=? String.length s) && (String.length s <=? 15).

(** Digits and plus signs only, 10 to 15 of them digits. *)
Definition phone_10_15 (s : string) : bool :=
  forallb phone_class (PyStr.chars s)
  && (10 <=? digit_count s) && (digit_count s <=? 15).

Definition outlier_txs : list Transaction :=
  [sample_tx "T01" "M0" "Food" 0 9; sample_tx "T02" "M0" "Food" 0 9;
   sample_tx "T03" "M0" "Food" 0 9; sample_tx "T04" "M0" "Food" 0 9;
   sample_tx "T05" "M0" "Food" 0 10; sample_tx "T06" "M0" "Food" 0 10;
   sample_tx "T07" "M0" "Food" 0 10; sample_tx "T08" "M0" "Food" 0 10;
   sample_tx "T09" "M0" "Food" 2000 11; sample_tx "T10" "M0" "Food" 2000 11;
   sample_tx "T11" "M0" "Food" 10000 12].

Definition sample_store : Store :=
  mkStore outlier_txs
          [mkMerchant "M0" None; mkMerchant "M1" (Some "Alpha"%string);
           mkMerchant "M2" None; mkMerchant "M3" None]
          [].

(** A valid row whose phone is written with a plus sign and punctuation. *)
Definition row_plus_phone : Row :=
  sample_row "T1" "M1" "north" "grocery" "12.50" "2024-01-15T10:30:00+00:00"
             "+1 (555) 123-4567".

(** A valid row with no phone. *)
Definition row_blank_phone : Row :=
  sample_row "T2" "M1" "north" "grocery" "12.50" "2024-01-15T10:30:00+00:00" " ".

(** A valid row but for its timestamp, which is ISO-8601 without a zone
    offset, one year before [now0]; and the same row with the offset. *)
Definition row_naive_iso : Row :=
  sample_row "T3" "M1" "north" "grocery" "12.50" "2024-01-15T10:30:00" "5551234567".

Definition row_aware_iso : Row :=
  sample_row "T3" "M1" "north" "grocery" "12.50" "2024-01-15T10:30:00+00:00"
             "5551234567".

(** The store accepts every bulk insert. *)
Definition bulk_accepting (env : Env) : Prop :=
  forall k, bulk_create_ok env k = true.

(** The store accepts every call of the run. *)
Definition accepting (env : Env) : Prop :=
  bulk_accepting env /\ forall k, task_save_ok env k = true.

(** A store with one queued run, and a source of 1000 valid rows. *)
Definition queued_store : Store :=
  mkStore [] [] [mkUploadTask "run-1" QUEUED "data.csv" 100000 0 0 None].

Definition thousand_rows : list Row := repeat row_aware_iso 1000.

(** Every call returns. *)
Definition env_ok : Env :=
  mkEnv (fun _ => now0) (fun _ => true) (fun _ => true) (fun _ => true) false true.

(** The first bulk insert raises (a transient store error), every other
    call returns. *)
Definition env_first_bulk_fails : Env :=
  mkEnv (fun _ => now0) (fun _ => true) (fun k => negb (Nat.eqb k 0)) (fun _ => true)
        false true.

(** Every call to the store returns, and the reader raises after the last
    row it yields. *)
Definition env_reader_raises : Env :=
  mkEnv (fun _ => now0) (fun _ => true) (fun _ => true) (fun _ => true) true true.

(** Every call to the store returns and the source is read to its end,
    but the staged file cannot be removed. *)
Definition env_remove_fails : Env :=
  mkEnv (fun _ => now0) (fun _ => true) (fun _ => true) (fun _ => true) false false.

(** An upload whose header row lacks AMOUNT. *)
Definition csv_without_amount : string :=
  "TRANSACTION_ID,MERCHANT_ID,ZONE,CATEGORY,TIMESTAMP,CUSTOMER_PHONE"
  +:+ String "010"
  ("T1,M1,north,grocery,2024-01-15T10:30:00+00:00,5551234567"
   +:+ String "010" EmptyString).


Definition gateway_env : GatewayEnv :=
  mkGatewayEnv "run-2" true true true true true true.

Definition empty_gateway : Gateway := mkGateway empty_store [].


(** The transaction of [outlier_txs] with the large amount. *)
Definition outlier_tx : Transaction := sample_tx "T11" "M0" "Food" 10000 12.







(** A store that computes a mean exactly and a standard deviation to six
    decimal places, rounded down, and an interpreter that adds exactly. *)
Definition sqrt_6 (v : Q) : Q :=
  Qmake (Z.sqrt (Qfloor (v * inject_Z (10 ^ 12)))) (10 ^ 6).

Definition store_numerics : Numerics :=
  mkNumerics Qavg
             (fun xs => sqrt_6 (Qsqdev (Qavg xs) xs / inject_Z (Z.of_nat (List.length xs))))
             (fun m s => m + 3 * s)%Q
             (fun a th => negb (Qle_bool a th)).

(** ** The other analytics endpoints ([apps/analytics/api.py]) *)

(** [order_by('-key')]: a stable sort, descending by [key]. *)
Section SortBy.
Context {A : Type}.
Variable key : A -> Q.

Fixpoint insert_by (x : A) (l : list A) : list A :=
  match l with
  | [] => [x]
  | y :: l' => if Qle_bool (key y) (key x) then x :: l else y :: insert_by x l'
  end.

Definition sort_by_desc (l : list A) : list A := fold_right insert_by [] l.
End SortBy.

(** *** Zone leaderboard *)

Record ZoneStat := mkZoneStat {
  zs_zone : string;
  zs_total_amount : Q;
  zs_transaction_count : nat;
  zs_average_amount : Q
}.

Definition in_zone (z : string) (t : Transaction) : bool := String.eqb (zone t) z.

Definition zone_stat (txs : list Transaction) (z : string) : ZoneStat :=
  let amounts := map (fun t => dec_value (amount t)) (List.filter (in_zone z) txs) in
  mkZoneStat z (Qsum amounts) (List.length amounts) (Qavg amounts).

(** [values('zone').annotate(Sum, Count, Avg).order_by('-total_amount')[:20]] *)
Definition zone_query (txs : list Transaction) : list ZoneStat :=
  firstn 20 (sort_by_desc zs_total_amount
               (map (zone_stat txs) (nodup string_dec (map zone txs)))).

Record ZoneEntry := mkZoneEntry {
  z_rank : nat;
  z_zone : string;
  z_total_amount : Q;
  z_transaction_count : nat;
  z_average_amount : Q
}.

(** [[{... "rank": idx + 1 ...} for idx, zone in enumerate(zones)]] *)
Fixpoint ranked (idx : nat) (zones : list ZoneStat) : list ZoneEntry :=
  match zones with
  | [] => []
  | z :: zones' =>
      mkZoneEntry (idx + 1) (zs_zone z) (zs_total_amount z)
                  (zs_transaction_count z) (zs_average_amount z)
        :: ranked (S idx) zones'
  end.

Definition zone_leaderboard (s : Store) : list ZoneEntry :=
  ranked 0 (zone_query (transactions s)).

(** *** Category distribution and customer retention *)

Record CategoryCount := mkCategoryCount {
  cc_category : string;
  cc_transaction_count : nat
}.

Record CategoryShare := mkCategoryShare {
  cd_category : string;
  cd_percentage : Q;
  cd_transaction_count : nat
}.

Record Distribution := mkDistribution {
  dist_data : list CategoryShare;
  dist_total_transactions : nat
}.

Definition Qnat (n : nat) : Q := inject_Z (Z.of_nat n).

(** [values('category').annotate(Count).order_by('-transaction_count')] *)
Definition category_counts (txs : list Transaction) : list CategoryCount :=
  sort_by_desc (fun c => Qnat (cc_transaction_count c))
    (map (fun c => mkCategoryCount c (List.length (List.filter (in_category c) txs)))
         (nodup string_dec (map category txs))).

Record Retention := mkRetention {
  total_unique_customers : nat;
  repeat_customers : nat;
  repeat_customer_percentage : Q;
  single_transaction_customers : nat;
  average_transactions_per_customer : Q
}.

Definition is_customer (phone : string) (t : Transaction) : bool :=
  String.eqb (customer_phone t) phone.

(** [values('customer_phone').annotate(Count)]: the number of transactions
    of each phone. *)
Definition customer_counts (txs : list Transaction) : list (string * nat) :=
  map (fun phone => (phone, List.length (List.filter (is_customer phone) txs)))
      (nodup string_dec (map customer_phone txs)).

Record FullReport := mkFullReport {
  fr_zone_leaderboard : list ZoneEntry;
  fr_category_distribution : list CategoryShare;
  fr_dormant_merchants_count : nat;
  fr_hourly_pattern : list HourRow;
  fr_anomalies_count : nat;
  fr_customer_retention : Retention
}.

(** The second half of [get_counts]: the anomalies are counted category
    by category, without building the list. *)
Definition anomalies_count (num : Numerics) (txs : list Transaction) : nat :=
  fold_left
    (fun acc stat =>
       if std_dev_positive (category_std_dev stat) then
         let threshold :=
           threshold_of num (category_mean stat) (category_std_dev stat) in
         acc + List.length
                 (List.filter (above_threshold num (cs_category stat) threshold) txs)
       else acc)
    (category_stats num txs) 0.

Section Reports.
(** [round(x, 1)] and [round(x, 2)] on floats are left to the caller. *)
Variable round1 : Q -> Q.
Variable round2 : Q -> Q.

Definition category_share (total : nat) (c : CategoryCount) : CategoryShare :=
  mkCategoryShare (cc_category c)
                  (round1 (Qnat (cc_transaction_count c) / Qnat total * 100))
                  (cc_transaction_count c).

(** The list both [category_distribution] and [get_category_distribution]
    build. *)
Definition category_shares (txs : list Transaction) : list CategoryShare :=
  let total_transactions := List.length txs in
  if Nat.eqb total_transactions 0 then []
  else map (category_share total_transactions) (category_counts txs).

Definition category_distribution (s : Store) : Distribution :=
  mkDistribution (category_shares (transactions s)) (List.length (transactions s)).

Definition customer_retention (s : Store) : Retention :=
  let counts := customer_counts (transactions s) in
  let total_customers := List.length counts in
  let repeat := List.length (List.filter (fun pc => 1 <? snd pc) counts) in
  let single := total_customers - repeat in
  let total_transactions := List.length (transactions s) in
  let avg :=
    if 0 <? total_customers
    then round2 (Qnat total_transactions / Qnat total_customers) else 0%Q in
  mkRetention total_customers repeat
              (if 0 <? total_customers
               then round2 (Qnat repeat / Qnat total_customers * 100) else 0%Q)
              single avg.

(** [full_report]: the four parts are computed over the same store; the
    hourly section is the empty list. *)
Definition full_report (num : Numerics) (s : Store) : FullReport :=
  mkFullReport (zone_leaderboard s)
               (category_shares (transactions s))
               (List.length (dormant_set s))
               []
               (anomalies_count num (transactions s))
               (customer_retention s).
End Reports.

(** ** Notions used in the statements about a run *)

(** A record the validator produced from some row of the source, at the
    instant that row was validated. *)
Definition validated (env : Env) (rows : list Row) (t : Transaction) : Prop :=
  exists (i : nat) (row : Row),
    rows !! i = Some row /\ clean_record (clock env i) row = Some t.

(** The run records other than the one of [tid]. *)
Definition other_tasks (tid : string) (s : Store) : list UploadTask :=
  List.filter (fun u => negb (String.eqb (task_id u) tid)) (upload_tasks s).

Definition transaction_ids (s : Store) : list string :=
  map transaction_id (transactions s).

Definition merchant_ids (s : Store) : list string :=
  map m_merchant_id (merchants s).

(** The rows of the source, none when the path does not exist. *)
Definition rows_of (file : option (list Row)) : list Row := default [] file.


(** An upload whose header row holds the required headers in another
    order, among a column the pipeline does not use. *)
Definition csv_shuffled : string :=
  "ZONE,AMOUNT,NOTE,TRANSACTION_ID,CUSTOMER_PHONE,MERCHANT_ID,TIMESTAMP,CATEGORY"
  +:+ String "010"
  ("north,12.50,x,T1,5551234567,M1,2024-01-15T10:30:00+00:00,grocery"
   +:+ String "010" EmptyString).

Definition upload_shuffled : UploadedFile :=
  mkUploadedFile "sales.csv" (Z.of_nat (String.length csv_shuffled)) csv_shuffled.

(** The fallback does not take the run; the roll-back works. *)
Definition gateway_env_down : GatewayEnv :=
  mkGatewayEnv "run-2" true true true false true true.


(** A list of characters that does not start with white space. *)
Definition no_leading_space (l : list ascii) : Prop :=
  match l with
  | [] => True
  | c :: _ => PyStr.isspace c = false
  end.


(** A character that the reader of [csv] takes as part of a field: not a
    line break, a quote, a comma or NUL; and a cell made of such. *)
Definition plain_char (c : ascii) : bool :=
  negb (Csv.is_nl c || Ascii.eqb c Csv.dquote || Ascii.eqb c "," || Ascii.eqb c Csv.NUL).

Definition plain (s : string) : bool := forallb plain_char (PyStr.chars s).


(** Ten Bills transactions, nine of 168.30 and one of 173.29: the last is
    exactly three population standard deviations (of 1.497) above the mean
    (of 168.799), a tie with the threshold. *)
Definition tie_tx : Transaction := sample_tx "B9" "M0" "Bills" 17329 9.

Definition tie_txs : list Transaction :=
  [sample_tx "B0" "M0" "Bills" 16830 9; sample_tx "B1" "M0" "Bills" 16830 9;
   sample_tx "B2" "M0" "Bills" 16830 9; sample_tx "B3" "M0" "Bills" 16830 9;
   sample_tx "B4" "M0" "Bills" 16830 9; sample_tx "B5" "M0" "Bills" 16830 9;
   sample_tx "B6" "M0" "Bills" 16830 9; sample_tx "B7" "M0" "Bills" 16830 9;
   sample_tx "B8" "M0" "Bills" 16830 9; tie_tx].

(** A store like [store_numerics] whose standard deviation comes out one
    millionth lower. *)
Definition numerics_low : Numerics :=
  mkNumerics Qavg
             (fun xs => sqrt_6 (Qsqdev (Qavg xs) xs / inject_Z (Z.of_nat (List.length xs)))
                        - (1 # 1000000))%Q
             (fun m s => m + 3 * s)%Q
             (fun a th => negb (Qle_bool a th)).


(** C4 in the specification's words.  The characters that stay in the
    AMOUNT cell: the digits, the point and the minus sign. *)
Definition kept_in_amount : list ascii :=
  ["0"; "1"; "2"; "3"; "4"; "5"; "6"; "7"; "8"; "9"; "."; "-"]%char.

(** [t] is [s] without the characters that are not kept. *)
Inductive stripped_to : list ascii -> list ascii -> Prop :=
| stripped_nil : stripped_to [] []
| stripped_keep (c : ascii) (s t : list ascii) :
    In c kept_in_amount -> stripped_to s t -> stripped_to (c :: s) (c :: t)
| stripped_drop (c : ascii) (s t : list ascii) :
    ~ In c kept_in_amount -> stripped_to s t -> stripped_to (c :: s) t.

(** The digit a character writes. *)
Definition digit_of (c : ascii) : option Z :=
  match c with
  | "0"%char => Some 0%Z | "1"%char => Some 1%Z | "2"%char => Some 2%Z
  | "3"%char => Some 3%Z | "4"%char => Some 4%Z | "5"%char => Some 5%Z
  | "6"%char => Some 6%Z | "7"%char => Some 7%Z | "8"%char => Some 8%Z
  | "9"%char => Some 9%Z
  | _ => None
  end.

(** The number a string of digits writes, the most significant first. *)
Fixpoint number_of (ds : list ascii) : option Z :=
  match ds with
  | [] => Some 0%Z
  | c :: r =>
      match digit_of c, number_of r with
      | Some k, Some n => Some (k * 10 ^ Z.of_nat (List.length r) + n)%Z
      | _, _ => None
      end
  end.

Inductive written_sign : list ascii -> bool -> Prop :=
| sign_none : written_sign [] false
| sign_plus : written_sign ["+"%char] false
| sign_minus : written_sign ["-"%char] true.

(** [l] writes the fixed-point decimal [q]: an optional sign, digits, and
    optionally a point and digits, with one digit at least; [q] is the number
    of all the digits divided by ten to the number of digits after the
    point, negated under a minus sign. *)
Definition fixed_point (l : list ascii) (q : Q) : Prop :=
  exists (sign ip fp : list ascii) (neg : bool) (n : Z),
    written_sign sign neg
    /\ ((l = sign ++ ip /\ fp = []) \/ l = sign ++ ip ++ "."%char :: fp)
    /\ ip ++ fp <> []
    /\ number_of (ip ++ fp) = Some n
    /\ (q == inject_Z (if neg then - n else n)
             / inject_Z (10 ^ Z.of_nat (List.length fp)))%Q.


(** * Properties *)

(** ** The library models on small inputs *)

Example strip_example : PyStr.strip "  ab c  " = "ab c"%string.
Proof. reflexivity. Qed.

Example title_example :
  PyStr.title "hello wORLD foo-bar 3rd" = "Hello World Foo-Bar 3Rd"%string.
Proof. reflexivity. Qed.

Example decimal_examples :
  Decimal_of_string "-12.50" = Some (mkDecimal true 1250 2)
  /\ Decimal_of_string ".5" = Some (mkDecimal false 5 1)
  /\ Decimal_of_string "5." = Some (mkDecimal false 5 0)
  /\ Decimal_of_string "." = None
  /\ Decimal_of_string "1-2" = None
  /\ Decimal_of_string EmptyString = None.
Proof. repeat split; reflexivity. Qed.

Example clean_amount_examples :
  clean_amount "$1,234.50" = Some (mkDecimal false 123450 2)
  /\ clean_amount "abc" = None
  /\ clean_amount "-5" = None
  /\ clean_amount "1000000.00" = Some (mkDecimal false 100000000 2)
  /\ clean_amount "1000000.01" = None.
Proof. repeat split; vm_compute; reflexivity. Qed.

Example fromisoformat_examples :
  PyDatetime.fromisoformat "2024-01-15T10:30:00"
  = Some (mkDatetime 2024 1 15 10 30 0 0 None)
  /\ PyDatetime.fromisoformat "2024-01-15 10:30:00+00:00"
     = Some (mkDatetime 2024 1 15 10 30 0 0 (Some 0%Z))
  /\ PyDatetime.fromisoformat "2024-01-15"
     = Some (mkDatetime 2024 1 15 0 0 0 0 None)
  /\ PyDatetime.fromisoformat "2024-01-15T10:30:00.250-05:30"
     = Some (mkDatetime 2024 1 15 10 30 0 250000 (Some (-19800000000)%Z))
  /\ PyDatetime.fromisoformat "2024-1-15 10:30:00" = None
  /\ PyDatetime.fromisoformat "2024-02-30" = None
  /\ PyDatetime.fromisoformat "2024/01/15 10:30:00" = None.
Proof. repeat split; vm_compute; reflexivity. Qed.

Example strptime_examples :
  PyDatetime.strptime "2024-1-5 1:2:3" "%Y-%m-%d %H:%M:%S"
  = Some (mkDatetime 2024 1 5 1 2 3 0 None)
  /\ PyDatetime.strptime "15/01/2024 10:30:00" "%d/%m/%Y %H:%M:%S"
     = Some (mkDatetime 2024 1 15 10 30 0 0 None)
  /\ PyDatetime.strptime "2024-01-15 10:30" "%Y-%m-%d %H:%M:%S" = None
  /\ PyDatetime.strptime "2024-12-311" "%Y-%m-%d" = None
  /\ PyDatetime.strptime "2023-02-29" "%Y-%m-%d" = None
  /\ strptime_first "2024/01/15 10:30:00" = Some (mkDatetime 2024 1 15 10 30 0 0 None)
  /\ PyDatetime.strptime "2024/01/ 5 10:30:00" "%Y/%m/%d %H:%M:%S"
     = Some (mkDatetime 2024 1 5 10 30 0 0 None)
  /\ PyDatetime.strptime "2024-01- 0" "%Y-%m-%d" = None.
Proof. repeat split; vm_compute; reflexivity. Qed.

Example fieldnames_examples :
  Csv.fieldnames true csv_without_amount
  = Csv.RowOf ["TRANSACTION_ID"; "MERCHANT_ID"; "ZONE"; "CATEGORY"; "TIMESTAMP";
               "CUSTOMER_PHONE"]%string
  /\ Csv.fieldnames true (String "010" "A,B") = Csv.RowOf []
  /\ Csv.fieldnames true
       (String (ascii_of_nat 34) "a,b" +:+ String (ascii_of_nat 34) ",c")
     = Csv.RowOf ["a,b"; "c"]%string
  /\ Csv.fieldnames false (String "A" (String "013" "B")) = Csv.Error
  /\ Csv.fieldnames true (String "A" (String Csv.NUL ",B")) = Csv.Error
  /\ Csv.fieldnames false (String "A" (String Csv.NUL ",B"))
     = Csv.RowOf [String "A" (String Csv.NUL EmptyString); "B"%string].
Proof. repeat split; vm_compute; reflexivity. Qed.

Example clean_record_example :
  clean_record now0 row_plus_phone
  = Some (mkTransaction "T1" "M1" "NORTH" "Grocery" (mkDecimal false 1250 2)
                        (utc 2024 1 15 10 30 0) "+15551234567").
Proof. vm_compute. reflexivity. Qed.

Example all_anomalies_example :
  all_anomalies store_numerics outlier_txs = [anomaly_of outlier_tx].
Proof. vm_compute. reflexivity. Qed.

(** ** Pagination *)

Lemma num_pages_ge_1 {A : Type} (items : list A) (per_page : Z) :
  (1 <= per_page)%Z -> (1 <= Paginator.num_pages items per_page)%Z.
Proof.
  intros Hp. unfold Paginator.num_pages.
  apply Z.div_le_lower_bound; lia.
Qed.

Lemma validate_num_pages {A : Type} (items : list A) (per_page : Z) :
  (1 <= per_page)%Z ->
  Paginator.validate_number items per_page (Paginator.num_pages items per_page)
  = Some (Paginator.num_pages items per_page).
Proof.
  intros Hp. pose proof (num_pages_ge_1 items per_page Hp) as Hn.
  unfold Paginator.validate_number.
  destruct (Z.ltb_spec (Paginator.num_pages items per_page) 1); [lia|].
  rewrite Z.ltb_irrefl. reflexivity.
Qed.

Lemma page_is_some {A : Type} (items : list A) (per_page number : Z) :
  Paginator.validate_number items per_page number = Some number ->
  exists data, Paginator.page items per_page number = Some data.
Proof.
  intros Hv. unfold Paginator.page. rewrite Hv. eexists; reflexivity.
Qed.

Lemma validate_number_some {A : Type} (items : list A) (per_page number n : Z) :
  Paginator.validate_number items per_page number = Some n -> n = number.
Proof.
  unfold Paginator.validate_number.
  destruct (number <? 1)%Z; [discriminate|].
  destruct (Paginator.num_pages items per_page <? number)%Z; congruence.
Qed.

(** [get_page] returns a page for every page number once the page size is
    at least one. *)
Lemma get_page_total {A : Type} (items : list A) (per_page number : Z) :
  (1 <= per_page)%Z ->
  exists data, Paginator.get_page items per_page number = Some data.
Proof.
  intros Hp. unfold Paginator.get_page.
  destruct (Paginator.validate_number items per_page number) as [n|] eqn:Hv.
  - pose proof (validate_number_some _ _ _ _ Hv) as ->.
    apply page_is_some; assumption.
  - apply page_is_some, validate_num_pages; assumption.
Qed.

(** A page number past the last page gives the last page. *)
Lemma get_page_beyond {A : Type} (items : list A) (per_page number : Z) :
  (Paginator.num_pages items per_page < number)%Z ->
  Paginator.get_page items per_page number = last_page items per_page.
Proof.
  intros Hn. unfold Paginator.get_page, Paginator.validate_number.
  destruct (number <? 1)%Z; [reflexivity|].
  destruct (Z.ltb_spec (Paginator.num_pages items per_page) number); [reflexivity|lia].
Qed.

Lemma paginated_in_range {A : Type} (items : list A) (page page_size : Z) :
  (1 <= page_size)%Z ->
  exists data,
    paginated items page page_size
    = PageOf data (mkPagination page page_size (Paginator.count items)
                                (Paginator.num_pages items page_size)).
Proof.
  intros Hp. unfold paginated.
  destruct (get_page_total items page_size page Hp) as [data ->].
  exists data; reflexivity.
Qed.

Lemma page_nil {A : Type} (per_page number : Z) (data : list A) :
  Paginator.page (@nil A) per_page number = Some data -> data = [].
Proof.
  unfold Paginator.page.
  destruct (Paginator.validate_number [] per_page number); [|discriminate].
  intros [= <-]. unfold Paginator.slice.
  rewrite skipn_nil, firstn_nil. reflexivity.
Qed.

Lemma paginated_nil {A : Type} (page page_size : Z) :
  (1 <= page_size)%Z ->
  paginated (@nil A) page page_size = PageOf [] (mkPagination page page_size 0 1).
Proof.
  intros Hp.
  assert (Hnp : Paginator.num_pages (@nil A) page_size = 1%Z).
  { unfold Paginator.num_pages, Paginator.count.
    change (Z.max 1 (Z.of_nat (List.length (@nil A)))) with 1%Z.
    replace (1 + page_size - 1)%Z with (1 * page_size)%Z by lia.
    apply Z.div_mul; lia. }
  destruct (get_page_total (@nil A) page_size page Hp) as [data Hd].
  unfold paginated. rewrite Hd, Hnp.
  assert (data = []) as ->; [|reflexivity].
  unfold Paginator.get_page in Hd.
  destruct (Paginator.validate_number [] page_size page);
    apply page_nil in Hd; exact Hd.
Qed.

Lemma invalid_pagination_spec (page page_size : Z) :
  invalid_pagination page page_size = true
  <-> (page < 1 \/ page_size < 1 \/ 1000 < page_size)%Z.
Proof.
  unfold invalid_pagination. rewrite !orb_true_iff, !Z.ltb_lt. tauto.
Qed.

Lemma invalid_pagination_false (page page_size : Z) :
  invalid_pagination page page_size = false
  <-> (1 <= page /\ 1 <= page_size <= 1000)%Z.
Proof.
  unfold invalid_pagination. rewrite !orb_false_iff, !Z.ltb_ge. lia.
Qed.

Lemma num_pages_bounds {A : Type} (items : list A) (per_page : Z) :
  (1 <= per_page)%Z ->
  ((Paginator.num_pages items per_page - 1) * per_page
     < Z.max 1 (Paginator.count items)
     <= Paginator.num_pages items per_page * per_page)%Z.
Proof.
  intros Hp. unfold Paginator.num_pages.
  set (hits := Z.max 1 (Paginator.count items)).
  pose proof (Z.div_mod (hits + per_page - 1) per_page ltac:(lia)) as Hdm.
  pose proof (Z.mod_pos_bound (hits + per_page - 1) per_page ltac:(lia)) as Hm.
  nia.
Qed.

(** The last page is the tail of the list from the first item of that
    page on. *)
Lemma last_page_skipn {A : Type} (items : list A) (per_page : Z) :
  (1 <= per_page)%Z ->
  last_page items per_page
  = Some (skipn (Z.to_nat ((Paginator.num_pages items per_page - 1) * per_page)) items).
Proof.
  intros Hp. unfold last_page, Paginator.page.
  rewrite validate_num_pages by assumption.
  pose proof (num_pages_bounds items per_page Hp) as Hb.
  pose proof (num_pages_ge_1 items per_page Hp) as Hn.
  set (np := Paginator.num_pages items per_page) in *.
  assert (Hc : (Paginator.count items <= (np - 1) * per_page + per_page)%Z) by lia.
  apply Z.leb_le in Hc. rewrite Hc.
  unfold Paginator.slice. f_equal.
  apply firstn_all2. rewrite length_skipn.
  unfold Paginator.count. lia.
Qed.

Lemma last_page_nonempty {A : Type} (items : list A) (per_page : Z) (data : list A) :
  (1 <= per_page)%Z -> items <> [] ->
  last_page items per_page = Some data -> data <> [].
Proof.
  intros Hp Hne Hl. rewrite last_page_skipn in Hl by assumption.
  injection Hl as <-.
  pose proof (num_pages_bounds items per_page Hp) as Hb.
  pose proof (num_pages_ge_1 items per_page Hp) as Hn.
  assert (Hlen : (1 <= Paginator.count items)%Z).
  { unfold Paginator.count. destruct items; [contradiction|simpl; lia]. }
  intros Hnil. apply (f_equal (@List.length A)) in Hnil.
  rewrite length_skipn in Hnil. simpl in Hnil.
  unfold Paginator.count in *. lia.
Qed.

(** ** C8: pagination parameters are validated, not clamped *)

(** C8.  On both paginated endpoints (dormant merchants, anomalies) a
    request is rejected exactly when [page < 1], [page_size < 1] or
    [page_size > 1000]; [page = 1] with [page_size = 1000] is accepted; every
    request in range gets a page as response, and over an empty result set
    that page is empty. *)
Theorem pagination_parameters_validated :
  forall (num : Numerics) (s : Store) (page page_size : Z),
    ((page < 1 \/ page_size < 1 \/ 1000 < page_size)%Z
     <-> dormant_merchants s page page_size
         = BadRequest "Invalid pagination parameters")
    /\ ((page < 1 \/ page_size < 1 \/ 1000 < page_size)%Z
        <-> anomalies num s page page_size
            = BadRequest "Invalid pagination parameters")
    /\ (exists data pg, dormant_merchants s 1 1000 = PageOf data pg)
    /\ (exists data pg, anomalies num s 1 1000 = PageOf data pg)
    /\ ((1 <= page /\ 1 <= page_size <= 1000)%Z ->
        (exists data pg, dormant_merchants s page page_size = PageOf data pg)
        /\ (exists data pg, anomalies num s page page_size = PageOf data pg))
    /\ ((1 <= page /\ 1 <= page_size <= 1000)%Z ->
        (dormant_set s = [] ->
         dormant_merchants s page page_size
         = PageOf [] (mkPagination page page_size 0 1))
        /\ (all_anomalies num (transactions s) = [] ->
            anomalies num s page page_size
            = PageOf [] (mkPagination page page_size 0 1))).
Proof.
  intros num s page page_size.
  assert (Hd : forall p ps, (1 <= p /\ 1 <= ps <= 1000)%Z ->
             exists data pg, dormant_merchants s p ps = PageOf data pg).
  { intros p ps Hr. unfold dormant_merchants.
    apply invalid_pagination_false in Hr as Hf. rewrite Hf.
    destruct (paginated_in_range (map dormant_entry (dormant_set s)) p ps) as [d Hp];
      [lia|]. rewrite Hp. eauto. }
  assert (Ha : forall p ps, (1 <= p /\ 1 <= ps <= 1000)%Z ->
             exists data pg, anomalies num s p ps = PageOf data pg).
  { intros p ps Hr. unfold anomalies.
    apply invalid_pagination_false in Hr as Hf. rewrite Hf.
    destruct (paginated_in_range (all_anomalies num (transactions s)) p ps) as [d Hp];
      [lia|]. rewrite Hp. eauto. }
  repeat split.
  - intros H. unfold dormant_merchants.
    apply invalid_pagination_spec in H. rewrite H. reflexivity.
  - intros H. apply invalid_pagination_spec.
    destruct (invalid_pagination page page_size) eqn:E; [reflexivity|].
    apply invalid_pagination_false in E.
    destruct (Hd page page_size E) as (d & pg & Hx). congruence.
  - intros H. unfold anomalies.
    apply invalid_pagination_spec in H. rewrite H. reflexivity.
  - intros H. apply invalid_pagination_spec.
    destruct (invalid_pagination page page_size) eqn:E; [reflexivity|].
    apply invalid_pagination_false in E.
    destruct (Ha page page_size E) as (d & pg & Hx). congruence.
  - apply Hd; lia.
  - apply Ha; lia.
  - apply Hd; assumption.
  - apply Ha; assumption.
  - intros Hnil. unfold dormant_merchants.
    apply invalid_pagination_false in H as Hf. rewrite Hf, Hnil.
    apply paginated_nil; lia.
  - intros Hnil. unfold anomalies.
    apply invalid_pagination_false in H as Hf. rewrite Hf, Hnil.
    apply paginated_nil; lia.
Qed.

(** ** C10: a page number past the last page *)

(** C10.  On both paginated endpoints, when the page size is in range and
    the page number is greater than the number of pages, the response
    carries the items of the last page; these are not empty unless the whole
    result set is. *)
Theorem page_past_the_end_is_last_page :
  forall (num : Numerics) (s : Store) (page page_size : Z),
    (1 <= page_size <= 1000)%Z ->
    (forall items : list DormantEntry,
        items = map dormant_entry (dormant_set s) ->
        (Paginator.num_pages items page_size < page)%Z ->
        exists data,
          last_page items page_size = Some data
          /\ dormant_merchants s page page_size
             = PageOf data (mkPagination page page_size (Paginator.count items)
                                         (Paginator.num_pages items page_size))
          /\ (items <> [] -> data <> []))
    /\ (forall items : list Anomaly,
           items = all_anomalies num (transactions s) ->
           (Paginator.num_pages items page_size < page)%Z ->
           exists data,
             last_page items page_size = Some data
             /\ anomalies num s page page_size
                = PageOf data (mkPagination page page_size (Paginator.count items)
                                            (Paginator.num_pages items page_size))
             /\ (items <> [] -> data <> [])).
Proof.
  intros num s page page_size Hr.
  assert (Hgen : forall (A : Type) (items : list A),
             (Paginator.num_pages items page_size < page)%Z ->
             exists data,
               last_page items page_size = Some data
               /\ paginated items page page_size
                  = PageOf data (mkPagination page page_size (Paginator.count items)
                                              (Paginator.num_pages items page_size))
               /\ (items <> [] -> data <> [])).
  { intros A items Hn.
    pose proof (last_page_skipn items page_size ltac:(lia)) as Hl.
    eexists; split; [exact Hl|]. split.
    - unfold paginated. rewrite get_page_beyond by assumption.
      rewrite Hl. reflexivity.
    - intros Hne. eapply last_page_nonempty; [| exact Hne | exact Hl]. lia. }
  assert (Hf : forall (A : Type) (items : list A),
             (Paginator.num_pages items page_size < page)%Z ->
             invalid_pagination page page_size = false).
  { intros A items Hn. apply invalid_pagination_false.
    pose proof (num_pages_ge_1 items page_size ltac:(lia)). lia. }
  split; intros items -> Hn.
  - unfold dormant_merchants. rewrite (Hf _ _ Hn). apply Hgen; assumption.
  - unfold anomalies. rewrite (Hf _ _ Hn). apply Hgen; assumption.
Qed.

(** C10 at a store with three dormant merchants and one anomaly, asked for
    page 5 with two items per page. *)
Lemma page_past_the_end_witness :
  dormant_merchants sample_store 5 2
  = PageOf [mkDormantEntry "M3" "Unknown" "Unknown"] (mkPagination 5 2 3 2)
  /\ anomalies store_numerics sample_store 5 2
     = PageOf [anomaly_of outlier_tx] (mkPagination 5 2 1 1).
Proof.
  destruct (page_past_the_end_is_last_page store_numerics sample_store 5 2 ltac:(lia)) as [Hd Ha].
  split.
  - destruct (Hd _ eq_refl ltac:(vm_compute; reflexivity)) as (data & Hl & Hr & _).
    rewrite Hr. vm_compute in Hl. injection Hl as <-. vm_compute. reflexivity.
  - destruct (Ha _ eq_refl ltac:(vm_compute; reflexivity)) as (data & Hl & Hr & _).
    rewrite Hr. vm_compute in Hl. injection Hl as <-. vm_compute. reflexivity.
Defined.

(** ** C9: the hourly pattern *)

Lemma hours_dict_fold_none (rows : list HourRow) (m : gmap Z HourRow) (h : Z) :
  fold_left (fun d data => <[h_hour data := data]> d) rows m !! h = None
  <-> m !! h = None /\ Forall (fun data => h_hour data <> h) rows.
Proof.
  revert m. induction rows as [|r rows IH]; intros m; simpl.
  - split; [intros H; split; [exact H | constructor] | intros [H _]; exact H].
  - rewrite IH. rewrite Forall_cons. split.
    + intros [Hl Hf]. apply lookup_insert_None in Hl as [Hm Hne]. tauto.
    + intros [Hm [Hne Hf]]. split; [|exact Hf].
      apply lookup_insert_None. tauto.
Qed.

Lemma hours_dict_fold_some (rows : list HourRow) (m : gmap Z HourRow) (h : Z)
    (data : HourRow) :
  fold_left (fun d data => <[h_hour data := data]> d) rows m !! h = Some data ->
  m !! h = Some data \/ (In data rows /\ h_hour data = h).
Proof.
  revert m. induction rows as [|r rows IH]; intros m; simpl.
  - auto.
  - intros H. apply IH in H as [H | [H1 H2]]; [|right; auto].
    apply lookup_insert_Some in H as [[Hk Hd] | [Hk Hm]]; [|left; exact Hm].
    right. subst. auto.
Qed.

Lemma in_hourly_data (txs : list Transaction) (data : HourRow) :
  In data (hourly_data txs) ->
  data = mkHourRow (h_hour data)
                   (List.length (List.filter (in_hour (h_hour data)) txs))
                   (Qavg (map (fun t => dec_value (amount t))
                              (List.filter (in_hour (h_hour data)) txs)))
  /\ List.filter (in_hour (h_hour data)) txs <> [].
Proof.
  unfold hourly_data. intros H.
  apply in_map_iff in H as (h & <- & Hh). simpl. split; [reflexivity|].
  apply filter_In in Hh as [_ Hex].
  apply existsb_exists in Hex as (t & Ht & Hin).
  intros Hnil.
  assert (In t (List.filter (in_hour h) txs)) as Hf by (apply filter_In; auto).
  rewrite Hnil in Hf. exact Hf.
Qed.

Lemma hourly_data_has_hour (txs : list Transaction) (h : Z) :
  (0 <= h < 24)%Z -> List.filter (in_hour h) txs <> [] ->
  exists data, In data (hourly_data txs) /\ h_hour data = h.
Proof.
  intros Hr Hne.
  exists (mkHourRow h (List.length (List.filter (in_hour h) txs))
                    (Qavg (map (fun t => dec_value (amount t))
                               (List.filter (in_hour h) txs)))).
  split; [|reflexivity].
  unfold hourly_data. apply in_map_iff. exists h. split; [reflexivity|].
  apply filter_In. split.
  - apply list_elem_of_In, elem_of_seqZ. lia.
  - destruct (List.filter (in_hour h) txs) as [|t l] eqn:E; [contradiction|].
    assert (In t (List.filter (in_hour h) txs)) as Hin by (rewrite E; left; reflexivity).
    apply filter_In in Hin as [Hin Hh].
    apply existsb_exists. exists t; auto.
Qed.

Lemma fill_hours_lookup (round2 : Q -> Q) (rows : list HourRow) (h : Z) :
  (0 <= h < 24)%Z ->
  fill_hours round2 rows !! Z.to_nat h
  = Some (match hours_dict rows !! h with
          | Some data =>
              mkHourRow h (h_transaction_count data) (round2 (h_average_amount data))
          | None => mkHourRow h 0 0%Q
          end).
Proof.
  intros Hr. unfold fill_hours.
  match goal with |- map ?f ?l !! _ = _ => change (map f l) with (f <$> l) end.
  rewrite list_lookup_fmap, lookup_seqZ_lt by lia.
  simpl. rewrite Z2Nat.id by lia. reflexivity.
Qed.

(** C9.  For every stored transaction set the hourly pattern has exactly
    24 entries, for the hours 0 to 23 in order; an hour without transactions
    is reported with count 0 and average 0, and every hour is reported with
    the number of its transactions. *)
Theorem hourly_pattern_has_24_hours :
  forall (round2 : Q -> Q) (s : Store),
    List.length (hourly_pattern round2 s) = 24
    /\ map h_hour (hourly_pattern round2 s) = seqZ 0 24
    /\ (forall h, (0 <= h < 24)%Z ->
          List.filter (in_hour h) (transactions s) = [] ->
          hourly_pattern round2 s !! Z.to_nat h = Some (mkHourRow h 0 0%Q))
    /\ (forall h, (0 <= h < 24)%Z ->
          exists avg,
            hourly_pattern round2 s !! Z.to_nat h
            = Some (mkHourRow h (List.length (List.filter (in_hour h) (transactions s)))
                              avg)).
Proof.
  intros round2 s. unfold hourly_pattern.
  assert (Hnone : forall h, (0 <= h < 24)%Z ->
            List.filter (in_hour h) (transactions s) = [] ->
            fill_hours round2 (hourly_data (transactions s)) !! Z.to_nat h
            = Some (mkHourRow h 0 0%Q)).
  { intros h Hr Hnil. rewrite fill_hours_lookup by assumption.
    assert (hours_dict (hourly_data (transactions s)) !! h = None) as ->; [|reflexivity].
    unfold hours_dict. apply hours_dict_fold_none. split; [apply lookup_empty|].
    apply List.Forall_forall. intros data Hin Hh.
    apply in_hourly_data in Hin as [_ Hne]. rewrite Hh in Hne. contradiction. }
  split; [|split; [|split]].
  - unfold fill_hours. rewrite length_map, length_seqZ. reflexivity.
  - unfold fill_hours. rewrite map_map.
    erewrite map_ext; [apply map_id|].
    intros h; simpl. destruct (hours_dict _ !! h); reflexivity.
  - exact Hnone.
  - intros h Hr.
    destruct (List.filter (in_hour h) (transactions s)) as [|t l] eqn:E.
    + exists 0%Q. apply Hnone; assumption.
    + rewrite fill_hours_lookup by assumption.
      destruct (hours_dict (hourly_data (transactions s)) !! h) as [data|] eqn:Hl.
      * unfold hours_dict in Hl. apply hours_dict_fold_some in Hl as [Hl | [Hin Hh]].
        { rewrite lookup_empty in Hl. discriminate. }
        apply in_hourly_data in Hin as [Hd _]. rewrite Hh in Hd.
        rewrite Hd; simpl. rewrite E. eexists; reflexivity.
      * exfalso. unfold hours_dict in Hl. apply hours_dict_fold_none in Hl as [_ Hf].
        destruct (hourly_data_has_hour (transactions s) h Hr) as (data & Hin & Hh).
        { rewrite E. discriminate. }
        rewrite List.Forall_forall in Hf. exact (Hf data Hin Hh).
Qed.

(** ** The record validator *)

Lemma clean_record_inv (now : datetime) (row : Row) (t : Transaction) :
  clean_record now row = Some t ->
  forallb PyStr.truthy (required_fields row) = true
  /\ clean_amount (amount_field row) = Some (amount t)
  /\ clean_timestamp now (timestamp_field row) = Some (timestamp t)
  /\ customer_phone t = clean_phone (phone_field row).
Proof.
  unfold clean_record, required_fields, amount_field, timestamp_field, phone_field.
  cbv zeta.
  destruct (forallb PyStr.truthy _) eqn:Hall; cbn [negb]; [|discriminate].
  destruct (clean_amount _) as [a|] eqn:Ha; [|discriminate].
  destruct (clean_timestamp now _) as [ts|] eqn:Hts; [|discriminate].
  intros H. apply (inj Some) in H. rewrite <- H.
  cbn [amount timestamp customer_phone]. auto.
Qed.

Lemma clean_record_is_some (now : datetime) (row : Row) :
  is_Some (clean_record now row)
  <-> forallb PyStr.truthy (required_fields row) = true
      /\ is_Some (clean_amount (amount_field row))
      /\ is_Some (clean_timestamp now (timestamp_field row)).
Proof.
  split.
  - intros [t Ht]. apply clean_record_inv in Ht as (H1 & H2 & H3 & _).
    rewrite H2, H3. eauto.
  - intros (H1 & [a Ha] & [ts Hts]).
    unfold clean_record. cbv zeta.
    unfold required_fields, amount_field, timestamp_field in *.
    rewrite H1, Ha, Hts. cbn [negb]. eauto.
Qed.

Lemma clean_transaction_data_fst (now : datetime) (ok : bool) (row : Row)
    (ms : list Merchant) :
  (clean_transaction_data now ok row ms).1 = clean_record now row.
Proof.
  unfold clean_transaction_data. destruct (clean_record now row); reflexivity.
Qed.

Lemma dec_lt_spec (d : Decimal) (n : Z) :
  dec_lt d n = true <-> (dec_value d < inject_Z n)%Q.
Proof.
  unfold dec_lt. rewrite negb_true_iff, <- not_true_iff_false, Qle_bool_iff.
  split; [apply Qnot_le_lt | apply Qlt_not_le].
Qed.

Lemma dec_gt_spec (d : Decimal) (n : Z) :
  dec_gt d n = true <-> (inject_Z n < dec_value d)%Q.
Proof.
  unfold dec_gt. rewrite negb_true_iff, <- not_true_iff_false, Qle_bool_iff.
  split; [apply Qnot_le_lt | apply Qlt_not_le].
Qed.

Lemma clean_amount_some (s : string) (d : Decimal) :
  clean_amount s = Some d
  <-> Decimal_of_string (PyStr.re_sub_keep amount_class s) = Some d
      /\ (0 <= dec_value d)%Q /\ (dec_value d <= 1000000)%Q.
Proof.
  unfold clean_amount.
  destruct (Decimal_of_string _) as [a|]; [|split; [discriminate | intros [[=] _]]].
  destruct (dec_lt a 0) eqn:Hlt.
  - split; [discriminate|]. intros ([= ->] & H0 & _).
    apply dec_lt_spec in Hlt. exfalso. apply (Qlt_not_le _ _ Hlt). exact H0.
  - destruct (dec_gt a 1000000) eqn:Hgt.
    + split; [discriminate|]. intros ([= ->] & _ & H1).
      apply dec_gt_spec in Hgt. exfalso. apply (Qlt_not_le _ _ Hgt). exact H1.
    + assert (H0 : (0 <= dec_value a)%Q).
      { apply Qnot_lt_le. intros H. apply dec_lt_spec in H. congruence. }
      assert (H1 : (dec_value a <= 1000000)%Q).
      { apply Qnot_lt_le. intros H. apply dec_gt_spec in H. congruence. }
      split; [intros [= <-]; auto | intros ([= ->] & _ & _); reflexivity].
Qed.

Lemma clean_amount_none (s : string) :
  clean_amount s = None
  <-> Decimal_of_string (PyStr.re_sub_keep amount_class s) = None
      \/ exists d, Decimal_of_string (PyStr.re_sub_keep amount_class s) = Some d
                   /\ ((dec_value d < 0)%Q \/ (1000000 < dec_value d)%Q).
Proof.
  unfold clean_amount.
  destruct (Decimal_of_string _) as [a|]; [|split; auto].
  destruct (dec_lt a 0) eqn:Hlt.
  - split; [|reflexivity]. intros _. right. exists a. split; [reflexivity|].
    left. apply dec_lt_spec in Hlt. exact Hlt.
  - destruct (dec_gt a 1000000) eqn:Hgt.
    + split; [|reflexivity]. intros _. right. exists a. split; [reflexivity|].
      right. apply dec_gt_spec in Hgt. exact Hgt.
    + split; [discriminate|]. intros [[=] | (d & [= <-] & [H | H])].
      * apply dec_lt_spec in H. congruence.
      * apply dec_gt_spec in H. congruence.
Qed.

(** ** The amount cell: what is kept and what it writes *)

Lemma digit_of_isdigit (c : ascii) :
  (PyStr.isdigit c = true -> digit_of c = Some (PyStr.digit_val c))
  /\ (PyStr.isdigit c = false -> digit_of c = None).
Proof.
  destruct c as [[] [] [] [] [] [] [] []]; vm_compute; split; congruence.
Qed.

Lemma kept_in_amount_class (c : ascii) :
  In c kept_in_amount <-> amount_class c = true.
Proof.
  assert (H : existsb (Ascii.eqb c) kept_in_amount = amount_class c).
  { destruct c as [[] [] [] [] [] [] [] []]; vm_compute; reflexivity. }
  rewrite <- H, existsb_exists. split.
  - intros Hin. exists c. split; [exact Hin | apply Ascii.eqb_refl].
  - intros (x & Hx & He). apply Ascii.eqb_eq in He. subst. exact Hx.
Qed.

(** What is left of the cell is the cell without the other characters. *)
Lemma stripped_to_filter (s t : list ascii) :
  stripped_to s t <-> t = List.filter amount_class s.
Proof.
  split.
  - induction 1 as [|c s t Hc _ IH|c s t Hc _ IH]; [reflexivity| |].
    + apply kept_in_amount_class in Hc. cbn [List.filter]. rewrite Hc, IH. reflexivity.
    + cbn [List.filter]. destruct (amount_class c) eqn:Hk; [|exact IH].
      apply kept_in_amount_class in Hk. contradiction.
  - intros ->. induction s as [|c s IH]; [constructor|]. cbn [List.filter].
    destruct (amount_class c) eqn:Hk.
    + apply stripped_keep; [apply kept_in_amount_class, Hk | exact IH].
    + apply stripped_drop; [|exact IH].
      intros Hin. apply kept_in_amount_class in Hin. congruence.
Qed.

Lemma chars_str (l : list ascii) : PyStr.chars (PyStr.str l) = l.
Proof. apply list_ascii_of_string_of_list_ascii. Qed.

Lemma digits_val_from (ds : list ascii) (acc : Z) :
  fold_left (fun a c => (10 * a + PyStr.digit_val c)%Z) ds acc
  = (acc * 10 ^ Z.of_nat (List.length ds) + PyStr.digits_val ds)%Z.
Proof.
  unfold PyStr.digits_val. revert acc.
  induction ds as [|c ds IH]; intros acc.
  - cbn [fold_left List.length]. change (10 ^ Z.of_nat 0)%Z with 1%Z. lia.
  - cbn [fold_left List.length]. rewrite (IH (10 * acc + PyStr.digit_val c)%Z).
    rewrite (IH (10 * 0 + PyStr.digit_val c)%Z).
    rewrite Nat2Z.inj_succ, Z.pow_succ_r by lia. lia.
Qed.

(** The number of a string of digits is the number the parser computes. *)
Lemma number_of_digits (ds : list ascii) :
  (forallb PyStr.isdigit ds = true -> number_of ds = Some (PyStr.digits_val ds))
  /\ (forallb PyStr.isdigit ds = false -> number_of ds = None).
Proof.
  induction ds as [|c ds [IH1 IH2]]; [split; [reflexivity | discriminate]|].
  cbn [forallb number_of].
  destruct (digit_of_isdigit c) as [Hd1 Hd2].
  destruct (PyStr.isdigit c); cbn [andb].
  - rewrite (Hd1 eq_refl). split.
    + intros Hds. rewrite (IH1 Hds). f_equal.
      unfold PyStr.digits_val at 2. cbn [fold_left]. rewrite digits_val_from. lia.
    + intros Hds. rewrite (IH2 Hds). reflexivity.
  - rewrite (Hd2 eq_refl). split; [discriminate | reflexivity].
Qed.

Lemma number_of_some (ds : list ascii) (n : Z) :
  number_of ds = Some n -> forallb PyStr.isdigit ds = true /\ n = PyStr.digits_val ds.
Proof.
  intros H. destruct (number_of_digits ds) as [H1 H2].
  destruct (forallb PyStr.isdigit ds).
  - rewrite (H1 eq_refl) in H. injection H as <-. auto.
  - rewrite (H2 eq_refl) in H. discriminate.
Qed.

Lemma span_app (p : ascii -> bool) (a b : list ascii) :
  forallb p a = true ->
  match b with [] => True | c :: _ => p c = false end ->
  PyStr.span p (a ++ b) = (a, b).
Proof.
  intros Ha Hb. induction a as [|x a IH].
  - destruct b as [|c b]; [reflexivity|]. cbn [app PyStr.span]. rewrite Hb. reflexivity.
  - cbn [forallb] in Ha. apply andb_true_iff in Ha as [Hx Ha].
    cbn [app PyStr.span]. rewrite Hx, (IH Ha). reflexivity.
Qed.

Lemma span_spec (p : ascii -> bool) (l : list ascii) :
  l = (PyStr.span p l).1 ++ (PyStr.span p l).2
  /\ forallb p (PyStr.span p l).1 = true.
Proof.
  induction l as [|c l [IH1 IH2]]; [split; reflexivity|].
  cbn [PyStr.span]. destruct (p c) eqn:Hc; [|split; reflexivity].
  destruct (PyStr.span p l) as [a b]. cbn [fst snd] in *.
  split; [rewrite IH1 at 1; reflexivity|]. cbn [forallb]. rewrite Hc, IH2. reflexivity.
Qed.

(** The parser after the sign, with its patterns on characters written as
    tests. *)
Local Abbreviation parse_unsigned neg body :=
  (match (PyStr.span PyStr.isdigit body).2 with
   | [] =>
       match (PyStr.span PyStr.isdigit body).1 with
       | [] => None
       | _ :: _ =>
           Some (mkDecimal neg (PyStr.digits_val (PyStr.span PyStr.isdigit body).1) 0)
       end
   | c :: fp =>
       if Ascii.eqb c "." then
         if forallb PyStr.isdigit fp
            && negb (Nat.eqb (List.length (PyStr.span PyStr.isdigit body).1
                              + List.length fp) 0)
         then Some (mkDecimal neg
                      (PyStr.digits_val ((PyStr.span PyStr.isdigit body).1 ++ fp))
                      (List.length fp))
         else None
       else None
   end).

Lemma Decimal_of_string_tests (s : string) :
  Decimal_of_string s
  = match PyStr.chars s with
    | [] => parse_unsigned false (PyStr.chars s)
    | c :: r =>
        if Ascii.eqb c "-" then parse_unsigned true r
        else if Ascii.eqb c "+" then parse_unsigned false r
        else parse_unsigned false (PyStr.chars s)
    end.
Proof.
  assert (Htail : forall (neg : bool) (body : list ascii),
             (let '(ip, rest) := PyStr.span PyStr.isdigit body in
              match rest with
              | [] =>
                  match ip with
                  | [] => None
                  | _ :: _ => Some (mkDecimal neg (PyStr.digits_val ip) 0)
                  end
              | "."%char :: fp =>
                  if forallb PyStr.isdigit fp
                     && negb (Nat.eqb (List.length ip + List.length fp) 0)
                  then Some (mkDecimal neg (PyStr.digits_val (ip ++ fp)) (List.length fp))
                  else None
              | _ :: _ => None
              end)
             = parse_unsigned neg body).
  { intros neg body. destruct (PyStr.span PyStr.isdigit body) as [ip [|c fp]];
      cbn [fst snd]; [reflexivity|].
    destruct c as [[] [] [] [] [] [] [] []]; reflexivity. }
  unfold Decimal_of_string. cbv zeta.
  destruct (PyStr.chars s) as [|c r]; [apply Htail|].
  destruct c as [[] [] [] [] [] [] [] []];
    cbv beta iota delta [Ascii.eqb Bool.eqb]; apply Htail.
Qed.

(** The parser after the sign reads exactly the digits, with or without a
    point among them. *)
Lemma parse_unsigned_spec (neg : bool) (body : list ascii) :
  (forall d : Decimal,
      parse_unsigned neg body = Some d ->
      exists (ip fp : list ascii) (n : Z),
        ((body = ip /\ fp = []) \/ body = ip ++ "."%char :: fp)
        /\ ip ++ fp <> []
        /\ number_of (ip ++ fp) = Some n
        /\ d = mkDecimal neg n (List.length fp))
  /\ (forall (ip fp : list ascii) (n : Z),
         ((body = ip /\ fp = []) \/ body = ip ++ "."%char :: fp) ->
         ip ++ fp <> [] ->
         number_of (ip ++ fp) = Some n ->
         parse_unsigned neg body = Some (mkDecimal neg n (List.length fp))).
Proof.
  split.
  - intros d. destruct (span_spec PyStr.isdigit body) as [Hsplit Hall].
    destruct (PyStr.span PyStr.isdigit body) as [ip rest]. cbn [fst snd] in *.
    destruct rest as [|c fp].
    + destruct ip as [|x ip]; [discriminate|]. intros [= <-].
      exists (x :: ip), [], (PyStr.digits_val (x :: ip)).
      rewrite app_nil_r in *. split; [auto|]. split; [discriminate|].
      split; [apply number_of_digits, Hall | reflexivity].
    + destruct (Ascii.eqb_spec c ".") as [->|]; [|discriminate].
      destruct (forallb PyStr.isdigit fp) eqn:Hfp; cbn [andb]; [|discriminate].
      destruct (Nat.eqb_spec (List.length ip + List.length fp) 0) as [|Hlen];
        cbn [negb]; [discriminate|].
      intros [= <-]. exists ip, fp, (PyStr.digits_val (ip ++ fp)).
      split; [right; exact Hsplit|]. split.
      * intros H. apply (f_equal (@List.length ascii)) in H.
        rewrite length_app in H. simpl in H. lia.
      * split; [|reflexivity]. apply number_of_digits.
        rewrite forallb_app, Hall, Hfp. reflexivity.
  - intros ip fp n Hshape Hne Hnum.
    apply number_of_some in Hnum as [Hall ->].
    rewrite forallb_app in Hall. apply andb_true_iff in Hall as [Hip Hfp].
    destruct Hshape as [[-> ->] | ->].
    + assert (Hspan : PyStr.span PyStr.isdigit ip = (ip, [])).
      { pose proof (span_app PyStr.isdigit ip [] Hip I) as H.
        rewrite app_nil_r in H. exact H. }
      rewrite Hspan. cbn [fst snd]. rewrite app_nil_r in *.
      destruct ip as [|x ip]; [congruence | reflexivity].
    + rewrite span_app by (auto; reflexivity). cbn [fst snd].
      change (Ascii.eqb "." ".") with true. cbv iota. rewrite Hfp. cbn [andb].
      destruct (Nat.eqb_spec (List.length ip + List.length fp) 0) as [Hlen|_];
        [|reflexivity].
      exfalso. apply Hne. destruct ip; [|simpl in Hlen; lia].
      destruct fp; [reflexivity | simpl in Hlen; lia].
Qed.

Lemma dec_value_mk (neg : bool) (n : Z) (k : nat) :
  (dec_value (mkDecimal neg n k)
   == inject_Z (if neg then - n else n) / inject_Z (10 ^ Z.of_nat k))%Q.
Proof.
  unfold dec_value. cbn [dec_negative dec_coeff dec_scale].
  rewrite Qmake_Qdiv, Z2Pos.id by (apply Z.pow_pos_nonneg; lia). reflexivity.
Qed.

Lemma digit_not_sign (c : ascii) :
  PyStr.isdigit c = true -> Ascii.eqb c "-" = false /\ Ascii.eqb c "+" = false.
Proof.
  destruct c as [[] [] [] [] [] [] [] []]; vm_compute; split; congruence.
Qed.

(** What the parser reads is what the text writes as a fixed-point
    decimal. *)
Lemma Decimal_of_string_sound (s : string) (d : Decimal) :
  Decimal_of_string s = Some d -> fixed_point (PyStr.chars s) (dec_value d).
Proof.
  assert (Hgen : forall sign neg body,
             written_sign sign neg ->
             parse_unsigned neg body = Some d ->
             fixed_point (sign ++ body) (dec_value d)).
  { intros sign neg body Hsign Hp.
    apply (proj1 (parse_unsigned_spec neg body)) in Hp
      as (ip & fp & n & Hshape & Hne & Hnum & ->).
    exists sign, ip, fp, neg, n. split; [exact Hsign|].
    split; [destruct Hshape as [[-> ->] | ->]; auto|].
    split; [exact Hne|]. split; [exact Hnum | apply dec_value_mk]. }
  rewrite Decimal_of_string_tests.
  destruct (PyStr.chars s) as [|c r]; [exact (Hgen [] false [] sign_none)|].
  destruct (Ascii.eqb_spec c "-") as [->|_];
    [exact (Hgen ["-"%char] true r sign_minus)|].
  destruct (Ascii.eqb_spec c "+") as [->|_];
    [exact (Hgen ["+"%char] false r sign_plus)|].
  exact (Hgen [] false (c :: r) sign_none).
Qed.

(** A text that writes a fixed-point decimal is read as that number. *)
Lemma Decimal_of_string_complete (s : string) (q : Q) :
  fixed_point (PyStr.chars s) q ->
  exists d : Decimal, Decimal_of_string s = Some d /\ (dec_value d == q)%Q.
Proof.
  intros (sign & ip & fp & neg & n & Hsign & Hshape & Hne & Hnum & Hq).
  exists (mkDecimal neg n (List.length fp)).
  split; [|rewrite Hq; apply dec_value_mk].
  set (body := match fp with [] => ip | _ :: _ => ip ++ "."%char :: fp end).
  assert (Hbody : exists body : list ascii,
             PyStr.chars s = sign ++ body
             /\ ((body = ip /\ fp = []) \/ body = ip ++ "."%char :: fp)).
  { destruct Hshape as [[H ->] | H]; eauto. }
  clear body. destruct Hbody as (body & Hs & Hshape').
  pose proof (proj2 (parse_unsigned_spec neg body) ip fp n Hshape' Hne Hnum) as Hp.
  rewrite Decimal_of_string_tests, Hs.
  destruct Hsign; cbn [app].
  - destruct body as [|c r] eqn:Hb; [exact Hp|].
    assert (Hc : Ascii.eqb c "-" = false /\ Ascii.eqb c "+" = false).
    { pose proof (number_of_some _ _ Hnum) as [Hall _].
      rewrite forallb_app in Hall. apply andb_true_iff in Hall as [Hip _].
      destruct ip as [|x ip'].
      - destruct Hshape' as [[H ->] | H]; [congruence|].
        cbn [app] in H. injection H as -> _. split; reflexivity.
      - cbn [forallb] in Hip. apply andb_true_iff in Hip as [Hx _].
        destruct Hshape' as [[H _] | H]; cbn [app] in H; injection H as -> _;
          apply digit_not_sign, Hx. }
    destruct Hc as [-> ->]. exact Hp.
  - change (Ascii.eqb "+" "-") with false. change (Ascii.eqb "+" "+") with true.
    exact Hp.
  - change (Ascii.eqb "-" "-") with true. exact Hp.
Qed.

(** The amount rule in the specification's words: what the validator
    returns for a cell is what the cell, stripped, writes. *)
Lemma clean_amount_spec (s : string) :
  stripped_to (PyStr.chars s) (PyStr.chars (PyStr.re_sub_keep amount_class s))
  /\ (forall d : Decimal,
         clean_amount s = Some d ->
         fixed_point (PyStr.chars (PyStr.re_sub_keep amount_class s)) (dec_value d)
         /\ (0 <= dec_value d)%Q /\ (dec_value d <= 1000000)%Q)
  /\ (clean_amount s = None
      <-> (forall q : Q,
              ~ fixed_point (PyStr.chars (PyStr.re_sub_keep amount_class s)) q)
          \/ exists q : Q,
               fixed_point (PyStr.chars (PyStr.re_sub_keep amount_class s)) q
               /\ ((q < 0)%Q \/ (1000000 < q)%Q)).
Proof.
  split; [|split].
  - apply stripped_to_filter. unfold PyStr.re_sub_keep. apply chars_str.
  - intros d Hd. apply clean_amount_some in Hd as (Hp & H0 & H1).
    split; [apply Decimal_of_string_sound, Hp | auto].
  - rewrite clean_amount_none. split.
    + intros [Hnone | (d & Hd & Hrange)].
      * left. intros q Hq. apply Decimal_of_string_complete in Hq as (d & Hd & _).
        congruence.
      * right. exists (dec_value d). split; [apply Decimal_of_string_sound, Hd|].
        exact Hrange.
    + intros [Hnone | (q & Hq & Hrange)].
      * destruct (Decimal_of_string _) as [d|] eqn:Hd; [|auto].
        exfalso. apply (Hnone (dec_value d)), Decimal_of_string_sound, Hd.
      * apply Decimal_of_string_complete in Hq as (d & Hd & Heq).
        right. exists d. split; [exact Hd|]. rewrite Heq. exact Hrange.
Qed.

(** ** C4: the amount rule *)

(** C4.  Of the AMOUNT cell the validator keeps the digits, [.] and [-]
    and removes every other character.  It accepts the cell exactly when what
    is left writes a fixed-point decimal (an optional sign, digits, optionally
    a point and digits) whose value is neither negative nor greater than
    1,000,000, and the amount it returns has that value; it rejects the cell
    exactly when what is left writes no such decimal, or one that is negative
    or greater than 1,000,000.  A rejection at this rule rejects the record,
    and the amount of every accepted record is the value written by its
    stripped cell and lies in [0, 1000000].  So [$1,234.50] is read as
    1234.50, [12-34], [abc], [-5] and [1000000.01] are rejected, and [-0] and
    [1000000.00] are accepted. *)
Theorem amount_rule :
  (forall s : string, exists t : list ascii, stripped_to (PyStr.chars s) t)
  /\ (forall (s : string) (t : list ascii),
         stripped_to (PyStr.chars s) t ->
         (forall d : Decimal,
             clean_amount s = Some d ->
             fixed_point t (dec_value d)
             /\ (0 <= dec_value d)%Q /\ (dec_value d <= 1000000)%Q)
         /\ (forall q : Q,
                fixed_point t q -> (0 <= q)%Q -> (q <= 1000000)%Q ->
                exists d : Decimal, clean_amount s = Some d /\ (dec_value d == q)%Q)
         /\ (clean_amount s = None
             <-> (forall q : Q, ~ fixed_point t q)
                 \/ exists q : Q, fixed_point t q /\ ((q < 0)%Q \/ (1000000 < q)%Q)))
  /\ (forall (now : datetime) (ok : bool) (row : Row) (ms : list Merchant),
         clean_amount (amount_field row) = None ->
         (clean_transaction_data now ok row ms).1 = None)
  /\ (forall (now : datetime) (ok : bool) (row : Row) (ms : list Merchant)
             (t : Transaction),
         (clean_transaction_data now ok row ms).1 = Some t ->
         (exists kept : list ascii,
             stripped_to (PyStr.chars (amount_field row)) kept
             /\ fixed_point kept (dec_value (amount t)))
         /\ (0 <= dec_value (amount t))%Q /\ (dec_value (amount t) <= 1000000)%Q)
  /\ (clean_amount "$1,234.50" = Some (mkDecimal false 123450 2)
      /\ (dec_value (mkDecimal false 123450 2) == 12345 # 10)%Q
      /\ clean_amount "12-34" = None
      /\ clean_amount "abc" = None
      /\ clean_amount "-5" = None
      /\ clean_amount "-0" = Some (mkDecimal true 0 0)
      /\ clean_amount "1000000.00" = Some (mkDecimal false 100000000 2)
      /\ clean_amount "1000000.01" = None).
Proof.
  assert (Hfun : forall (s : string) (t : list ascii),
             stripped_to (PyStr.chars s) t ->
             t = PyStr.chars (PyStr.re_sub_keep amount_class s)).
  { intros s t Ht. apply stripped_to_filter in Ht. subst t.
    unfold PyStr.re_sub_keep. symmetry. apply chars_str. }
  split; [|split; [|split; [|split]]].
  - intros s. eexists. apply (clean_amount_spec s).
  - intros s t Ht. rewrite (Hfun s t Ht).
    destruct (clean_amount_spec s) as (_ & Hsome & Hnone).
    split; [exact Hsome|]. split; [|exact Hnone].
    intros q Hq H0 H1. apply Decimal_of_string_complete in Hq as (d & Hd & Heq).
    exists d. split; [|exact Heq]. apply clean_amount_some.
    rewrite Heq. auto.
  - intros now ok row ms Hnone. rewrite clean_transaction_data_fst.
    destruct (clean_record now row) as [t|] eqn:Ht; [|reflexivity].
    apply clean_record_inv in Ht as (_ & Ha & _). congruence.
  - intros now ok row ms t Ht. rewrite clean_transaction_data_fst in Ht.
    apply clean_record_inv in Ht as (_ & Ha & _).
    destruct (clean_amount_spec (amount_field row)) as (Hstrip & Hsome & _).
    destruct (Hsome _ Ha) as (Hfp & H0 & H1).
    split; [eauto | auto].
  - split; [vm_compute; reflexivity|].
    split; [reflexivity|].
    split; [vm_compute; reflexivity|].
    split; [vm_compute; reflexivity|].
    split; [vm_compute; reflexivity|].
    split; [vm_compute; reflexivity|].
    split; vm_compute; reflexivity.
Qed.

(** ** C3: the phone rule *)

Lemma str_chars (s : string) : PyStr.str (PyStr.chars s) = s.
Proof. apply string_of_list_ascii_of_string. Qed.

Lemma filter_filter_implies {A : Type} (p q : A -> bool) (l : list A) :
  (forall x, p x = true -> q x = true) ->
  List.filter p (List.filter q l) = List.filter p l.
Proof.
  intros Hpq. induction l as [|x l IH]; simpl; [reflexivity|].
  destruct (q x) eqn:Hq; simpl.
  - rewrite IH. reflexivity.
  - destruct (p x) eqn:Hp; [|exact IH].
    apply Hpq in Hp. congruence.
Qed.

Lemma forallb_filter {A : Type} (p : A -> bool) (l : list A) :
  forallb p (List.filter p l) = true.
Proof.
  induction l as [|x l IH]; simpl; [reflexivity|].
  destruct (p x) eqn:Hp; simpl; [rewrite Hp|]; exact IH.
Qed.

Lemma digit_count_phone_clean (s : string) :
  digit_count (PyStr.re_sub_keep phone_class s) = digit_count s.
Proof.
  unfold digit_count, PyStr.re_sub_keep. rewrite chars_str.
  rewrite filter_filter_implies; [reflexivity|].
  intros c Hc. unfold phone_class. rewrite Hc. reflexivity.
Qed.

Lemma forallb_phone_clean (s : string) :
  forallb phone_class (PyStr.chars (PyStr.re_sub_keep phone_class s)) = true.
Proof. unfold PyStr.re_sub_keep. rewrite chars_str. apply forallb_filter. Qed.

Lemma truthy_false (s : string) : PyStr.truthy s = false <-> s = EmptyString.
Proof. destruct s; simpl; split; congruence. Qed.

(** The phone block, case by case. *)
Lemma clean_phone_cases (raw : string) :
  (raw = EmptyString -> clean_phone raw = EmptyString)
  /\ (raw <> EmptyString -> digit_count raw < 10 \/ 15 < digit_count raw ->
      clean_phone raw = "INVALID"%string)
  /\ (raw <> EmptyString -> 10 <= digit_count raw <= 15 ->
      clean_phone raw = PyStr.re_sub_keep phone_class raw
      /\ phone_10_15 (clean_phone raw) = true).
Proof.
  unfold clean_phone. split; [intros ->; reflexivity|].
  fold (digit_count (PyStr.re_sub_keep phone_class raw)).
  rewrite digit_count_phone_clean.
  split; intros Hne Hn.
  - destruct (PyStr.truthy raw) eqn:Ht; [|apply truthy_false in Ht; contradiction].
    destruct Hn as [Hn|Hn].
    + apply Nat.ltb_lt in Hn. rewrite Hn. reflexivity.
    + apply Nat.ltb_lt in Hn. rewrite Hn, orb_true_r. reflexivity.
  - destruct (PyStr.truthy raw) eqn:Ht; [|apply truthy_false in Ht; contradiction].
    destruct (Nat.ltb_spec (digit_count raw) 10); [lia|].
    destruct (Nat.ltb_spec 15 (digit_count raw)); [lia|]. cbn [orb].
    split; [reflexivity|].
    unfold phone_10_15. rewrite digit_count_phone_clean, forallb_phone_clean.
    rewrite (proj2 (Nat.leb_le 10 (digit_count raw))) by lia.
    rewrite (proj2 (Nat.leb_le (digit_count raw) 15)) by lia.
    reflexivity.
Qed.

Lemma row_get_insert_ne (row : Row) (k k' : string) (v : option string) :
  k <> k' -> row_get (<[k := v]> row) k' = row_get row k'.
Proof. intros Hne. unfold row_get. rewrite lookup_insert_ne by exact Hne. reflexivity. Qed.

(** The phone cell does not decide whether a row is accepted. *)
Lemma phone_never_rejects (now : datetime) (row : Row) (phone : option string) :
  is_Some (clean_record now row) ->
  is_Some (clean_record now (<["CUSTOMER_PHONE"%string := phone]> row)).
Proof.
  rewrite !clean_record_is_some.
  unfold required_fields, amount_field, timestamp_field.
  rewrite !row_get_insert_ne by discriminate. tauto.
Qed.

(** The claim as the specification states it fails at two accepted rows:
    a phone written with a plus sign keeps the sign, and a blank phone stays
    empty; neither output is a string of 10 to 15 digits or the sentinel. *)
Lemma phone_output_outside_claimed_forms :
  (exists t : Transaction,
      (clean_transaction_data now0 true row_plus_phone []).1 = Some t
      /\ customer_phone t = "+15551234567"%string
      /\ digits_10_15 (customer_phone t) = false
      /\ customer_phone t <> "INVALID"%string)
  /\ (exists t : Transaction,
         (clean_transaction_data now0 true row_blank_phone []).1 = Some t
         /\ customer_phone t = EmptyString
         /\ digits_10_15 (customer_phone t) = false
         /\ customer_phone t <> "INVALID"%string).
Proof.
  split.
  - exists (mkTransaction "T1" "M1" "NORTH" "Grocery" (mkDecimal false 1250 2)
                          (utc 2024 1 15 10 30 0) "+15551234567").
    repeat split; try (vm_compute; reflexivity). discriminate.
  - exists (mkTransaction "T2" "M1" "NORTH" "Grocery" (mkDecimal false 1250 2)
                          (utc 2024 1 15 10 30 0) EmptyString).
    repeat split; try (vm_compute; reflexivity). discriminate.
Qed.

(** C3 (amended).  For every accepted record the phone of the output is:
    empty when the raw phone is blank; the sentinel [INVALID] when the raw
    phone is not blank and its digit count is outside [10,15]; and otherwise
    the raw phone with every character but digits and [+] removed, which has
    10 to 15 digits.  Whatever the phone cell holds, the row is not rejected
    for it. *)
Theorem phone_normalised :
  forall (now : datetime) (ok : bool) (row : Row) (ms : list Merchant)
         (t : Transaction),
    (clean_transaction_data now ok row ms).1 = Some t ->
    (phone_field row = EmptyString -> customer_phone t = EmptyString)
    /\ (phone_field row <> EmptyString ->
        digit_count (phone_field row) < 10 \/ 15 < digit_count (phone_field row) ->
        customer_phone t = "INVALID"%string)
    /\ (phone_field row <> EmptyString ->
        10 <= digit_count (phone_field row) <= 15 ->
        customer_phone t = PyStr.re_sub_keep phone_class (phone_field row)
        /\ phone_10_15 (customer_phone t) = true)
    /\ (customer_phone t = EmptyString
        \/ customer_phone t = "INVALID"%string
        \/ phone_10_15 (customer_phone t) = true)
    /\ (forall phone : option string,
           is_Some (clean_transaction_data
                      now ok (<["CUSTOMER_PHONE"%string := phone]> row) ms).1).
Proof.
  intros now ok row ms t Ht. rewrite clean_transaction_data_fst in Ht.
  pose proof (clean_record_inv _ _ _ Ht) as (_ & _ & _ & Hp).
  destruct (clean_phone_cases (phone_field row)) as (H1 & H2 & H3).
  rewrite Hp. repeat split.
  - exact H1.
  - exact H2.
  - apply H3; assumption.
  - apply H3; assumption.
  - destruct (string_dec (phone_field row) EmptyString) as [He|Hne]; [auto|].
    destruct (Nat.ltb_spec (digit_count (phone_field row)) 10); [auto|].
    destruct (Nat.ltb_spec 15 (digit_count (phone_field row))); [auto|].
    right; right. apply H3; [assumption|lia].
  - intros phone. rewrite clean_transaction_data_fst.
    apply phone_never_rejects. rewrite Ht. eauto.
Qed.

(** The amended claim at two accepted rows: the phone with a plus sign is
    kept with it, the blank phone stays empty. *)
Lemma phone_normalised_witness :
  (clean_transaction_data now0 true row_plus_phone []).1
  = Some (mkTransaction "T1" "M1" "NORTH" "Grocery" (mkDecimal false 1250 2)
                        (utc 2024 1 15 10 30 0) "+15551234567")
  /\ phone_10_15 "+15551234567" = true
  /\ (forall phone : option string,
         is_Some (clean_transaction_data
                    now0 true (<["CUSTOMER_PHONE"%string := phone]> row_plus_phone) []).1).
Proof.
  assert (E : (clean_transaction_data now0 true row_plus_phone []).1
              = Some (mkTransaction "T1" "M1" "NORTH" "Grocery" (mkDecimal false 1250 2)
                                    (utc 2024 1 15 10 30 0) "+15551234567")).
  { vm_compute. reflexivity. }
  split; [exact E|]. split; [vm_compute; reflexivity|].
  exact (proj2 (proj2 (proj2 (proj2
           (phone_normalised now0 true row_plus_phone [] _ E))))).
Defined.

(** ** C2: the timestamp rule *)

Lemma clean_timestamp_unfold (now : datetime) (row : Row) :
  clean_timestamp now (timestamp_field row)
  = match parse_timestamp (timestamp_text row) with
    | None => None
    | Some timestamp =>
        match PyDatetime.dt_gt timestamp now with
        | Some true => None
        | Some false => Some timestamp
        | None => None
        end
    end.
Proof. reflexivity. Qed.

Lemma clean_timestamp_none_rejects (now : datetime) (ok : bool) (row : Row)
    (ms : list Merchant) :
  clean_timestamp now (timestamp_field row) = None ->
  (clean_transaction_data now ok row ms).1 = None.
Proof.
  intros Hnone. rewrite clean_transaction_data_fst.
  destruct (clean_record now row) as [t|] eqn:Ht; [|reflexivity].
  apply clean_record_inv in Ht as (_ & _ & Hts & _). congruence.
Qed.

(** C2, what the code does.  When the timestamp text parses as ISO-8601
    and carries no offset, the parsed value stays naive; its comparison with
    the (aware) current instant raises, and the record is rejected whatever
    the instant. *)
Theorem naive_iso_timestamp_is_rejected :
  forall (now : datetime) (ok : bool) (row : Row) (ms : list Merchant)
         (d : datetime),
    tzinfo now <> None ->
    PyDatetime.fromisoformat (PyStr.replace "Z" "+00:00" (timestamp_text row))
    = Some d ->
    tzinfo d = None ->
    (clean_transaction_data now ok row ms).1 = None.
Proof.
  intros now ok row ms d Hnow Hiso Hnaive.
  apply clean_timestamp_none_rejects.
  rewrite clean_timestamp_unfold. unfold parse_timestamp. rewrite Hiso.
  unfold PyDatetime.dt_gt. rewrite Hnaive.
  destruct (tzinfo now); [reflexivity | contradiction].
Qed.

(** At the sample row: the timestamp [2024-01-15T10:30:00], one year
    before the current instant, is rejected, while the same row with the
    offset [+00:00] is accepted. *)
Lemma naive_iso_timestamp_witness :
  (clean_transaction_data now0 true row_naive_iso []).1 = None
  /\ is_Some (clean_transaction_data now0 true row_aware_iso []).1.
Proof.
  split.
  - apply (naive_iso_timestamp_is_rejected now0 true row_naive_iso []
             (mkDatetime 2024 1 15 10 30 0 0 None)).
    + discriminate.
    + vm_compute. reflexivity.
    + reflexivity.
  - vm_compute. eexists. reflexivity.
Defined.

Lemma datetime_new_tzinfo (y m d h mi s us : Z) (tz : option Z) (t : datetime) :
  PyDatetime.datetime_new y m d h mi s us tz = Some t -> tzinfo t = tz.
Proof.
  unfold PyDatetime.datetime_new.
  destruct (_ && _); [|discriminate]. intros [= <-]. reflexivity.
Qed.

Lemma strptime_naive (s fmt : string) (t : datetime) :
  PyDatetime.strptime s fmt = Some t -> tzinfo t = None.
Proof.
  unfold PyDatetime.strptime.
  destruct (PyDatetime.re_match _ _ _) as [[f [|c l]]|]; try discriminate.
  apply datetime_new_tzinfo.
Qed.

Lemma first_some_in {A B : Type} (f : A -> option B) (l : list A) (b : B) :
  PyDatetime.first_some f l = Some b -> exists a, In a l /\ f a = Some b.
Proof.
  induction l as [|a l IH]; simpl; [discriminate|].
  destruct (f a) as [b'|] eqn:Hf.
  - intros [= ->]. exists a; auto.
  - intros H. destruct (IH H) as (a' & Hin & Ha'). exists a'; auto.
Qed.

Lemma strptime_first_naive (s : string) (t : datetime) :
  strptime_first s = Some t -> tzinfo t = None.
Proof.
  unfold strptime_first. intros H.
  apply first_some_in in H as (fmt & _ & Hf).
  eapply strptime_naive; exact Hf.
Qed.

(** ** The run controller *)

Lemma batch_size_pos : 0 < batch_size.
Proof. unfold batch_size. lia. Qed.

Lemma clean_transaction_data_cases (now : datetime) (ok : bool) (row : Row)
    (ms : list Merchant) :
  match clean_record now row with
  | Some t => exists ms', clean_transaction_data now ok row ms = (Some t, ms')
  | None => clean_transaction_data now ok row ms = (None, ms)
  end.
Proof.
  unfold clean_transaction_data. destruct (clean_record now row); eauto.
Qed.

(** One row, when every bulk insert returns: the batch stays below its
    capacity, an insert is made exactly when the batch reaches it, and it
    carries [batch_size] records. *)
Lemma process_row_batching (env : Env) (i : nat) (st : Loop) (row : Row) :
  bulk_accepting env ->
  List.length (l_batch_data st) < batch_size ->
  List.length (l_batch_data (process_row env i st row)) < batch_size
  /\ l_rows_processed (process_row env i st row)
     + List.length (l_batch_data (process_row env i st row))
     = l_rows_processed st + List.length (l_batch_data st)
       + match clean_record (clock env i) row with Some _ => 1 | None => 0 end
  /\ l_bulk_calls st <= l_bulk_calls (process_row env i st row)
  /\ l_rows_processed (process_row env i st row)
     = l_rows_processed st
       + batch_size * (l_bulk_calls (process_row env i st row) - l_bulk_calls st).
Proof.
  intros Hb Hlen. unfold process_row.
  pose proof (clean_transaction_data_cases (clock env i) (merchant_ok env i) row
                (merchants (l_store st))) as Hc.
  destruct (clean_record (clock env i) row) as [t|].
  - destruct Hc as [ms' ->].
    assert (Hl : List.length (l_batch_data st ++ [t])
                 = S (List.length (l_batch_data st))).
    { rewrite length_app. simpl. lia. }
    destruct (Nat.leb_spec batch_size (List.length (l_batch_data st ++ [t]))) as [Hfull|Hnot].
    + rewrite Hb.
      destruct (task_save_ok env (l_save_calls st)); cbn [l_batch_data l_rows_processed
        l_bulk_calls List.length]; pose proof batch_size_pos; nia.
    + cbn [l_batch_data l_rows_processed l_bulk_calls]. nia.
  - rewrite Hc. cbn [l_batch_data l_rows_processed l_bulk_calls]. nia.
Qed.

Lemma run_loop_batching (env : Env) (rows : list Row) :
  bulk_accepting env ->
  forall (i : nat) (st : Loop),
    List.length (l_batch_data st) < batch_size ->
    List.length (l_batch_data (run_loop env i rows st)) < batch_size
    /\ l_rows_processed (run_loop env i rows st)
       + List.length (l_batch_data (run_loop env i rows st))
       = l_rows_processed st + List.length (l_batch_data st) + count_valid env i rows
    /\ l_bulk_calls st <= l_bulk_calls (run_loop env i rows st)
    /\ l_rows_processed (run_loop env i rows st)
       = l_rows_processed st
         + batch_size * (l_bulk_calls (run_loop env i rows st) - l_bulk_calls st).
Proof.
  intros Hb. induction rows as [|row rows IH]; intros i st Hlen.
  - cbn [run_loop count_valid]. rewrite Nat.sub_diag, Nat.mul_0_r.
    repeat split; lia.
  - cbn [run_loop count_valid].
    destruct (process_row_batching env i st row Hb Hlen) as (H1 & H2 & H3 & H4).
    destruct (IH (S i) (process_row env i st row) H1) as (K1 & K2 & K3 & K4).
    repeat split; [exact K1 | lia | lia | nia].
Qed.

(** One row, when every call returns: the row is counted once. *)
Lemma process_row_accounting (env : Env) (i : nat) (st : Loop) (row : Row) :
  accepting env ->
  l_rows_failed (process_row env i st row)
  + match clean_record (clock env i) row with Some _ => 1 | None => 0 end
  = S (l_rows_failed st).
Proof.
  intros [Hb Hs]. unfold process_row.
  pose proof (clean_transaction_data_cases (clock env i) (merchant_ok env i) row
                (merchants (l_store st))) as Hc.
  destruct (clean_record (clock env i) row) as [t|].
  - destruct Hc as [ms' ->].
    destruct (batch_size <=? _).
    + rewrite Hb, Hs. cbn [l_rows_failed]. lia.
    + cbn [l_rows_failed]. lia.
  - rewrite Hc. cbn [l_rows_failed]. lia.
Qed.

Lemma run_loop_accounting (env : Env) (rows : list Row) :
  accepting env ->
  forall (i : nat) (st : Loop),
    l_rows_failed (run_loop env i rows st) + count_valid env i rows
    = l_rows_failed st + List.length rows.
Proof.
  intros Ha. induction rows as [|row rows IH]; intros i st.
  - simpl. lia.
  - cbn [run_loop count_valid List.length].
    pose proof (process_row_accounting env i st row Ha).
    specialize (IH (S i) (process_row env i st row)). lia.
Qed.

Lemma get_task_save (tid : string) (t : UploadTask) (s : Store) :
  task_id t = tid -> is_Some (get_task tid s) ->
  get_task tid (save_task t s) = Some t.
Proof.
  intros Hid [u Hu]. unfold get_task, save_task in *. cbn [upload_tasks].
  induction (upload_tasks s) as [|x l IH]; simpl in *; [discriminate|].
  destruct (String.eqb (task_id x) tid) eqn:Hx.
  - apply String.eqb_eq in Hx. rewrite Hx, <- Hid, String.eqb_refl.
    simpl. rewrite String.eqb_refl. reflexivity.
  - assert (Hx' : String.eqb (task_id x) (task_id t) = false) by (rewrite Hid; exact Hx).
    rewrite Hx'. simpl. rewrite Hx. apply IH. exact Hu.
Qed.

Lemma get_task_save_is_some (tid : string) (t : UploadTask) (s : Store) :
  task_id t = tid -> is_Some (get_task tid s) ->
  is_Some (get_task tid (save_task t s)).
Proof. intros H1 H2. rewrite (get_task_save tid t s H1 H2). eauto. Qed.

(** The loop keeps the task's key, and the task's row stays in the store. *)
Lemma process_row_task (env : Env) (i : nat) (st : Loop) (row : Row) (tid : string) :
  task_id (l_task st) = tid -> is_Some (get_task tid (l_store st)) ->
  task_id (l_task (process_row env i st row)) = tid
  /\ is_Some (get_task tid (l_store (process_row env i st row))).
Proof.
  intros Hid Hs. unfold process_row.
  destruct (clean_transaction_data _ _ _ _) as [[t|] ms].
  - destruct (batch_size <=? _).
    + destruct (bulk_create_ok env _).
      * destruct (task_save_ok env _); cbn [l_task l_store]; split; try exact Hid.
        -- apply get_task_save_is_some; [exact Hid | exact Hs].
        -- exact Hs.
      * cbn [l_task l_store]. split; [exact Hid | exact Hs].
    + cbn [l_task l_store]. split; [exact Hid | exact Hs].
  - cbn [l_task l_store]. split; [exact Hid | exact Hs].
Qed.

Lemma run_loop_task (env : Env) (rows : list Row) (tid : string) :
  forall (i : nat) (st : Loop),
    task_id (l_task st) = tid -> is_Some (get_task tid (l_store st)) ->
    task_id (l_task (run_loop env i rows st)) = tid
    /\ is_Some (get_task tid (l_store (run_loop env i rows st))).
Proof.
  induction rows as [|row rows IH]; intros i st Hid Hs; cbn [run_loop].
  - auto.
  - destruct (process_row_task env i st row tid Hid Hs) as [H1 H2].
    apply IH; assumption.
Qed.

Lemma fail_run_bulk_calls (env : Env) (tid err : string) (store : Store)
    (bulk_calls save_calls : nat) :
  run_bulk_calls (fail_run env tid err store bulk_calls save_calls) = bulk_calls.
Proof. unfold fail_run. destruct (get_task tid store); reflexivity. Qed.

(** The number of bulk inserts of a run whose inserts all return, in terms
    of the loop's counters: when the reader raises, the batch that is pending
    is not inserted. *)
Lemma bulk_calls_of_run (env : Env) (tid : string) (rows : list Row) (store : Store) :
  bulk_accepting env -> task_save_ok env 0 = true -> is_Some (get_task tid store) ->
  exists calls batch : nat,
    batch < batch_size
    /\ batch_size * calls + batch = count_valid env 0 rows
    /\ run_bulk_calls (process_csv_file env tid (Some rows) store)
       = calls + (if reader_raises env then 0
                  else if Nat.eqb batch 0 then 0 else 1).
Proof.
  intros Hb Hs0 [task Htask]. unfold process_csv_file. rewrite Htask, Hs0.
  cbn [negb].
  set (st0 := mkLoop 0 0 [] (set_status PROCESSING task)
                     (save_task (set_status PROCESSING task) store) 0 1).
  destruct (run_loop_batching env rows Hb 0 st0) as (H1 & H2 & H3 & H4).
  { cbn [st0 l_batch_data List.length]. exact batch_size_pos. }
  cbn [st0 l_rows_processed l_batch_data l_bulk_calls List.length] in H2, H3, H4.
  set (st := run_loop env 0 rows st0) in *.
  exists (l_bulk_calls st), (List.length (l_batch_data st)).
  split; [exact H1|]. split; [lia|].
  destruct (reader_raises env); [rewrite fail_run_bulk_calls; lia|].
  destruct (l_batch_data st) as [|t batch] eqn:Hbatch.
  - cbn [List.length Nat.eqb].
    destruct (task_save_ok env (l_save_calls st));
      [destruct (file_remove_ok env);
         [cbn [run_bulk_calls] | rewrite fail_run_bulk_calls]
      | rewrite fail_run_bulk_calls]; lia.
  - rewrite Hb. cbn [List.length Nat.eqb].
    destruct (task_save_ok env (l_save_calls st));
      [destruct (file_remove_ok env);
         [cbn [run_bulk_calls] | rewrite fail_run_bulk_calls]
      | rewrite fail_run_bulk_calls]; lia.
Qed.

(** ** C6: the number of bulk inserts *)

(** The claim as the specification states it, for every run, fails.  The
    source has 1000 valid rows and the reader reads it to the end; the bulk
    insert made when the batch fills raises once, the batch is kept, and the
    insert after the loop stores it: two bulk inserts, where
    [ceil (1000 / 1000)] is one.  And over 1500 valid rows, when every insert
    returns but the reader raises after the last row, the 500 pending records
    are never inserted: one bulk insert, where [ceil (1500 / 1000)] is two. *)
Lemma bulk_inserts_not_ceil_for_every_run :
  count_valid env_first_bulk_fails 0 thousand_rows = 1000
  /\ reader_raises env_first_bulk_fails = false
  /\ run_bulk_calls
       (process_csv_file env_first_bulk_fails "run-1" (Some thousand_rows) queued_store)
     = 2
  /\ (1000 + 999) / 1000 = 1
  /\ count_valid env_reader_raises 0 (thousand_rows ++ repeat row_aware_iso 500) = 1500
  /\ bulk_accepting env_reader_raises
  /\ run_bulk_calls
       (process_csv_file env_reader_raises "run-1"
          (Some (thousand_rows ++ repeat row_aware_iso 500)) queued_store)
     = 1
  /\ (1500 + 999) / 1000 = 2.
Proof.
  split; [vm_compute; reflexivity|].
  split; [reflexivity|].
  split; [vm_compute; reflexivity|].
  split; [reflexivity|].
  split; [vm_compute; reflexivity|].
  split; [intros k; reflexivity|].
  split; [vm_compute; reflexivity | reflexivity].
Qed.

(** C6 (amended).  For a run whose bulk inserts all return.  A run that
    does not start (its record does not exist, or the first save raises) or
    whose file is missing makes no bulk insert.  A run that starts, over a
    source of which the validator accepts [n] rows: when the reader reads the
    source to its end, the store receives exactly [ceil (n / 1000)] bulk
    inserts, [n / 1000] full batches and one more for a remaining partial
    batch, so 1000 valid rows give one insert and 1500 give two; when the
    reader raises after its last row, the store receives the [n / 1000] full
    batches only. *)
Theorem bulk_inserts_per_run :
  forall (env : Env) (tid : string) (rows : list Row) (store : Store),
    bulk_accepting env ->
    (get_task tid store = None \/ task_save_ok env 0 = false ->
     run_bulk_calls (process_csv_file env tid (Some rows) store) = 0)
    /\ run_bulk_calls (process_csv_file env tid None store) = 0
    /\ (is_Some (get_task tid store) -> task_save_ok env 0 = true ->
        (reader_raises env = false ->
         run_bulk_calls (process_csv_file env tid (Some rows) store)
         = count_valid env 0 rows / 1000
           + (if Nat.eqb (count_valid env 0 rows mod 1000) 0 then 0 else 1)
         /\ run_bulk_calls (process_csv_file env tid (Some rows) store)
            = (count_valid env 0 rows + 999) / 1000
         /\ (count_valid env 0 rows = 1000 ->
             run_bulk_calls (process_csv_file env tid (Some rows) store) = 1)
         /\ (count_valid env 0 rows = 1500 ->
             run_bulk_calls (process_csv_file env tid (Some rows) store) = 2))
        /\ (reader_raises env = true ->
            run_bulk_calls (process_csv_file env tid (Some rows) store)
            = count_valid env 0 rows / 1000)).
Proof.
  intros env tid rows store Hb. split; [|split].
  - intros Hstart. unfold process_csv_file.
    destruct (get_task tid store) as [task|]; [|apply fail_run_bulk_calls].
    destruct Hstart as [Hnone|Hsave]; [discriminate|].
    rewrite Hsave. cbn [negb]. apply fail_run_bulk_calls.
  - unfold process_csv_file.
    destruct (get_task tid store) as [task|]; [|apply fail_run_bulk_calls].
    destruct (task_save_ok env 0); cbn [negb]; apply fail_run_bulk_calls.
  - intros Ht Hs0.
    destruct (bulk_calls_of_run env tid rows store Hb Hs0 Ht)
      as (calls & batch & Hlt & Hn & ->).
    change batch_size with 1000 in *.
    set (n := count_valid env 0 rows) in *.
    assert (Hdiv : n / 1000 = calls).
    { symmetry. apply (Nat.div_unique n 1000 calls batch); lia. }
    assert (Hmod : n mod 1000 = batch).
    { symmetry. apply (Nat.mod_unique n 1000 calls batch); lia. }
    assert (Hceil : (n + 999) / 1000 = calls + (if Nat.eqb batch 0 then 0 else 1)).
    { destruct (Nat.eqb_spec batch 0) as [->|Hne].
      - symmetry. apply (Nat.div_unique (n + 999) 1000 (calls + 0) 999); lia.
      - symmetry. apply (Nat.div_unique (n + 999) 1000 (calls + 1) (batch - 1)); lia. }
    rewrite Hdiv, Hmod, Hceil. split; intros ->.
    + repeat split.
      * intros H1000. assert (calls = 1 /\ batch = 0) as [-> ->] by lia. reflexivity.
      * intros H1500. assert (calls = 1 /\ batch = 500) as [-> ->] by lia. reflexivity.
    + lia.
Qed.

(** C6 at 1000 and at 1500 valid rows, with a store that returns and a
    reader that reads to the end. *)
Lemma bulk_inserts_per_run_witness :
  run_bulk_calls (process_csv_file env_ok "run-1" (Some thousand_rows) queued_store) = 1
  /\ run_bulk_calls
       (process_csv_file env_ok "run-1"
          (Some (thousand_rows ++ repeat row_aware_iso 500)) queued_store) = 2.
Proof.
  assert (Hb : bulk_accepting env_ok) by (intros k; reflexivity).
  assert (Ht : is_Some (get_task "run-1" queued_store)) by (eexists; reflexivity).
  split.
  - refine (proj1 (proj2 (proj2 (proj1 (proj2 (proj2
      (bulk_inserts_per_run env_ok "run-1" thousand_rows queued_store Hb))
      Ht eq_refl) eq_refl))) _).
    vm_compute. reflexivity.
  - refine (proj2 (proj2 (proj2 (proj1 (proj2 (proj2
      (bulk_inserts_per_run env_ok "run-1" (thousand_rows ++ repeat row_aware_iso 500)
         queued_store Hb)) Ht eq_refl) eq_refl))) _).
    vm_compute. reflexivity.
Defined.

Lemma get_task_id (tid : string) (s : Store) (t : UploadTask) :
  get_task tid s = Some t -> task_id t = tid.
Proof.
  unfold get_task. intros H. apply find_some in H as [_ H].
  apply String.eqb_eq. exact H.
Qed.

Lemma fail_run_final (env : Env) (tid err : string) (store : Store)
    (bulk_calls save_calls : nat) (u : UploadTask) :
  get_task tid store = Some u ->
  task_save_ok env save_calls = true ->
  final_task tid (fail_run env tid err store bulk_calls save_calls)
  = Some (mkUploadTask tid FAILED (filename u) (file_size u) (rows_processed u)
                       (rows_rejected u) (Some err))
  /\ run_file_removed (fail_run env tid err store bulk_calls save_calls) = false.
Proof.
  intros Hu Hs. unfold fail_run, final_task. rewrite Hu, Hs.
  cbn [run_store run_file_removed]. split; [|reflexivity].
  rewrite (get_task_id _ _ _ Hu).
  apply get_task_save; [reflexivity | eauto].
Qed.

(** When every call to the store returns: a run whose reader reads the
    source to its end and whose staged file is removed completes, and every
    row of the source is counted once, as processed when the validator
    accepts it, as rejected otherwise; a run whose reader raises, or whose
    staged file cannot be removed, ends FAILED. *)
Theorem completed_run_counts_every_row :
  forall (env : Env) (tid : string) (rows : list Row) (store : Store),
    accepting env ->
    is_Some (get_task tid store) ->
    (reader_raises env = false -> file_remove_ok env = true ->
     exists t : UploadTask,
       final_task tid (process_csv_file env tid (Some rows) store) = Some t
       /\ status t = COMPLETED
       /\ rows_processed t = count_valid env 0 rows
       /\ rows_processed t + rows_rejected t = List.length rows)
    /\ (reader_raises env = true \/ file_remove_ok env = false ->
        exists t : UploadTask,
          final_task tid (process_csv_file env tid (Some rows) store) = Some t
          /\ status t = FAILED
          /\ run_file_removed (process_csv_file env tid (Some rows) store) = false).
Proof.
  intros env tid rows store [Hb Hs] [task Htask].
  pose proof (get_task_id _ _ _ Htask) as Hid.
  unfold process_csv_file. rewrite Htask, Hs. cbn [negb].
  set (st0 := mkLoop 0 0 [] (set_status PROCESSING task)
                     (save_task (set_status PROCESSING task) store) 0 1).
  destruct (run_loop_batching env rows Hb 0 st0) as (H1 & H2 & _ & _).
  { cbn [st0 l_batch_data List.length]. exact batch_size_pos. }
  pose proof (run_loop_accounting env rows (conj Hb Hs) 0 st0) as H3.
  destruct (run_loop_task env rows tid 0 st0) as [H4 H5].
  { exact Hid. }
  { cbn [st0 l_store]. apply get_task_save_is_some; [exact Hid | eauto]. }
  cbn [st0 l_rows_processed l_rows_failed l_batch_data List.length] in H2, H3.
  set (st := run_loop env 0 rows st0) in *.
  split.
  - intros -> Hrm. unfold final_task.
    destruct (l_batch_data st) as [|t batch] eqn:Hbatch;
      rewrite ?Hbatch in H2; cbn [List.length] in H2.
    + rewrite Hs, Hrm. cbn [run_store].
      rewrite (get_task_save tid) by (cbn [task_id]; assumption).
      eexists; split; [reflexivity|]. cbn [status rows_processed rows_rejected].
      split; [reflexivity | lia].
    + rewrite Hb, Hs, Hrm. cbn [run_store].
      rewrite (get_task_save tid) by (cbn [task_id]; assumption).
      eexists; split; [reflexivity|].
      cbn [status rows_processed rows_rejected List.length].
      split; [reflexivity | lia].
  - intros Hfail. destruct (reader_raises env) eqn:Hrd.
    + destruct H5 as [u Hu].
      destruct (fail_run_final env tid "the reader raised" (l_store st)
                  (l_bulk_calls st) (l_save_calls st) u Hu (Hs _)) as [K1 K2].
      eexists. split; [exact K1|]. split; [reflexivity | exact K2].
    + destruct Hfail as [Hfail|Hrm]; [discriminate|].
      assert (Hfin : forall store' processed calls,
                 is_Some (get_task tid store') ->
                 exists t : UploadTask,
                   final_task tid
                     (fail_run env tid "os.remove failed"
                        (save_task
                           (mkUploadTask (task_id (l_task st)) COMPLETED
                              (filename (l_task st)) (file_size (l_task st))
                              processed (l_rows_failed st) (error_message (l_task st)))
                           store') calls (S (l_save_calls st))) = Some t
                   /\ status t = FAILED
                   /\ run_file_removed
                        (fail_run env tid "os.remove failed"
                           (save_task
                              (mkUploadTask (task_id (l_task st)) COMPLETED
                                 (filename (l_task st)) (file_size (l_task st))
                                 processed (l_rows_failed st)
                                 (error_message (l_task st)))
                              store') calls (S (l_save_calls st))) = false).
      { intros store' processed calls Hsome.
        pose proof (get_task_save tid
                      (mkUploadTask (task_id (l_task st)) COMPLETED
                         (filename (l_task st)) (file_size (l_task st))
                         processed (l_rows_failed st) (error_message (l_task st)))
                      store' H4 Hsome) as Hg.
        destruct (fail_run_final env tid "os.remove failed" _ calls
                    (S (l_save_calls st)) _ Hg (Hs _)) as [K1 K2].
        eexists. split; [exact K1|]. split; [reflexivity | exact K2]. }
      destruct (l_batch_data st) as [|t batch] eqn:Hbatch.
      * rewrite Hs, Hrm. apply Hfin. exact H5.
      * rewrite Hb, Hs, Hrm. apply Hfin.
        unfold get_task, bulk_create. cbn [upload_tasks]. exact H5.
Qed.

(** The theorem at the source of 1000 valid rows: with a reader that
    reads to the end and a file that is removed, and with a file that cannot
    be removed. *)
Lemma completed_run_counts_every_row_witness :
  (exists t : UploadTask,
      final_task "run-1" (process_csv_file env_ok "run-1" (Some thousand_rows) queued_store)
      = Some t
      /\ status t = COMPLETED
      /\ rows_processed t = count_valid env_ok 0 thousand_rows
      /\ rows_processed t + rows_rejected t = List.length thousand_rows)
  /\ (exists t : UploadTask,
         final_task "run-1"
           (process_csv_file env_remove_fails "run-1" (Some thousand_rows) queued_store)
         = Some t
         /\ status t = FAILED
         /\ run_file_removed
              (process_csv_file env_remove_fails "run-1" (Some thousand_rows)
                 queued_store) = false).
Proof.
  split.
  - apply (completed_run_counts_every_row env_ok "run-1" thousand_rows queued_store).
    + split; intros k; reflexivity.
    + eexists. reflexivity.
    + reflexivity.
    + reflexivity.
  - apply (completed_run_counts_every_row env_remove_fails "run-1" thousand_rows
             queued_store).
    + split; intros k; reflexivity.
    + eexists. reflexivity.
    + right. reflexivity.
Defined.

(** ** C5: the counters of a completed run *)

(** C5, what the code does.  The source has 1000 valid rows; the bulk
    insert made when the batch fills raises once, the handler of the loop
    counts the row as failed and keeps the batch, and the insert after the
    loop stores it.  The run reaches COMPLETED with 1000 rows processed and
    1 rejected: 1001 for a source of 1000 rows. *)
Theorem swallowed_insert_error_counts_a_row_twice :
  final_task "run-1"
    (process_csv_file env_first_bulk_fails "run-1" (Some thousand_rows) queued_store)
  = Some (mkUploadTask "run-1" COMPLETED "data.csv" 100000 1000 1 None)
  /\ List.length thousand_rows = 1000
  /\ count_valid env_first_bulk_fails 0 thousand_rows = 1000
  /\ run_bulk_calls
       (process_csv_file env_first_bulk_fails "run-1" (Some thousand_rows) queued_store)
     = 2.
Proof.
  split; [vm_compute; reflexivity|].
  split; [vm_compute; reflexivity|].
  split; vm_compute; reflexivity.
Qed.

(** ** C7: a header row that lacks required headers *)

Lemma mem_string_In (x : string) (l : list string) :
  mem_string x l = true <-> In x l.
Proof.
  unfold mem_string. rewrite existsb_exists. split.
  - intros (y & Hy & He). apply String.eqb_eq in He. subst. exact Hy.
  - intros H. exists x. split; [exact H | apply String.eqb_refl].
Qed.

(** The missing headers are the required headers the header row lacks. *)
Lemma missing_headers_spec (headers : list string) (h : string) :
  In h (missing_headers headers) <-> In h required_headers /\ ~ In h headers.
Proof.
  unfold missing_headers. rewrite filter_In, negb_true_iff.
  rewrite <- not_true_iff_false, mem_string_In. tauto.
Qed.




(** ** C1: the anomaly detector *)



Lemma insert_desc_length (x : Anomaly) (l : list Anomaly) :
  List.length (insert_desc x l) = S (List.length l).
Proof.
  induction l as [|y l IH]; simpl; [reflexivity|].
  destruct (Qle_bool (a_amount y) (a_amount x)); simpl; [reflexivity|].
  rewrite IH. reflexivity.
Qed.







Lemma firstn_incl {A : Type} (n : nat) (l : list A) (y : A) :
  In y (firstn n l) -> In y l.
Proof.
  revert l. induction n as [|n IH]; intros l; [intros []|].
  destruct l as [|x l]; simpl; [intros []|].
  intros [H|H]; [left; exact H | right; apply IH; exact H].
Qed.

Lemma skipn_incl {A : Type} (n : nat) (l : list A) (y : A) :
  In y (skipn n l) -> In y l.
Proof.
  revert l. induction n as [|n IH]; intros l; [intros H; exact H|].
  destruct l as [|x l]; simpl; [intros []|].
  intros H. right. apply IH. exact H.
Qed.

Lemma StronglySorted_firstn {A : Type} (R : A -> A -> Prop) (n : nat) (l : list A) :
  StronglySorted R l -> StronglySorted R (firstn n l).
Proof.
  revert l. induction n as [|n IH]; intros l Hs; [constructor|].
  destruct l as [|x l]; [constructor|]. simpl.
  inversion Hs as [|? ? Hs' Hall]; subst. constructor; [apply IH; exact Hs'|].
  apply List.Forall_forall. intros y Hy.
  rewrite List.Forall_forall in Hall. apply Hall.
  eapply firstn_incl; exact Hy.
Qed.

(** A page is a run of consecutive items of the list. *)
Lemma page_is_slice {A : Type} (items : list A) (per_page number : Z) (data : list A) :
  Paginator.get_page items per_page number = Some data ->
  exists bottom top, data = Paginator.slice items bottom top.
Proof.
  unfold Paginator.get_page, Paginator.page.
  destruct (Paginator.validate_number items per_page number) as [n|].
  - destruct (Paginator.validate_number items per_page n); [|discriminate].
    intros [= <-]. eauto.
  - destruct (Paginator.validate_number items per_page _); [|discriminate].
    intros [= <-]. eauto.
Qed.




















(** ** Further properties of the timestamp rule *)

(** The timestamp of an accepted record is aware and not after the
    instant at which the row was validated. *)
Theorem accepted_timestamp_not_in_future :
  forall (now : datetime) (ok : bool) (row : Row) (ms : list Merchant)
         (t : Transaction),
    (clean_transaction_data now ok row ms).1 = Some t ->
    PyDatetime.dt_gt (timestamp t) now = Some false.
Proof.
  intros now ok row ms t Ht. rewrite clean_transaction_data_fst in Ht.
  apply clean_record_inv in Ht as (_ & _ & Hts & _).
  rewrite clean_timestamp_unfold in Hts.
  destruct (parse_timestamp (timestamp_text row)) as [ts|]; [|discriminate].
  destruct (PyDatetime.dt_gt ts now) as [[|]|] eqn:Hgt; try discriminate.
  injection Hts as <-. exact Hgt.
Qed.

(** The theorem at the sample row. *)
Lemma accepted_timestamp_not_in_future_witness :
  PyDatetime.dt_gt (utc 2024 1 15 10 30 0) now0 = Some false.
Proof.
  apply (accepted_timestamp_not_in_future now0 true row_aware_iso []
           (mkTransaction "T3" "M1" "NORTH" "Grocery" (mkDecimal false 1250 2)
                          (utc 2024 1 15 10 30 0) "5551234567")).
  vm_compute. reflexivity.
Defined.

(** ** Inserting a batch twice *)

Lemma has_transaction_app (x : string) (ts us : list Transaction) :
  has_transaction x (ts ++ us) = has_transaction x ts || has_transaction x us.
Proof. unfold has_transaction. apply existsb_app. Qed.

Lemma insert_ignore_keeps (x : string) (batch ts : list Transaction) :
  has_transaction x ts = true -> has_transaction x (insert_ignore batch ts) = true.
Proof.
  unfold insert_ignore. revert ts.
  induction batch as [|t batch IH]; intros ts Hx; simpl; [exact Hx|].
  apply IH. destruct (has_transaction (transaction_id t) ts); [exact Hx|].
  rewrite has_transaction_app, Hx. reflexivity.
Qed.

Lemma insert_ignore_has (batch ts : list Transaction) (t : Transaction) :
  In t batch -> has_transaction (transaction_id t) (insert_ignore batch ts) = true.
Proof.
  revert ts. induction batch as [|u batch IH]; intros ts Hin; [destruct Hin|].
  destruct Hin as [->|Hin].
  - change (insert_ignore (t :: batch) ts)
      with (insert_ignore batch
              (if has_transaction (transaction_id t) ts then ts else ts ++ [t])).
    apply insert_ignore_keeps.
    destruct (has_transaction (transaction_id t) ts) eqn:Ht; [exact Ht|].
    rewrite has_transaction_app. simpl.
    rewrite String.eqb_refl, orb_true_r. reflexivity.
  - change (insert_ignore (u :: batch) ts)
      with (insert_ignore batch
              (if has_transaction (transaction_id u) ts then ts else ts ++ [u])).
    apply IH. exact Hin.
Qed.

Lemma insert_ignore_present (batch ts : list Transaction) :
  (forall t, In t batch -> has_transaction (transaction_id t) ts = true) ->
  insert_ignore batch ts = ts.
Proof.
  unfold insert_ignore.
  induction batch as [|t batch IH]; intros Hall; simpl; [reflexivity|].
  rewrite (Hall t) by (left; reflexivity).
  apply IH. intros u Hu. apply Hall. right. exact Hu.
Qed.

(** A bulk insert with conflicts ignored is idempotent: inserting the same
    batch again stores nothing new. *)
Theorem bulk_create_twice :
  forall (batch : list Transaction) (s : Store),
    bulk_create batch (bulk_create batch s) = bulk_create batch s.
Proof.
  intros batch s. unfold bulk_create. cbn [transactions merchants upload_tasks].
  f_equal. apply insert_ignore_present.
  intros t Hin. apply insert_ignore_has. exact Hin.
Qed.

(** ** Sorting and grouping *)

Lemma insert_by_perm {A : Type} (key : A -> Q) (x : A) (l : list A) :
  Permutation (insert_by key x l) (x :: l).
Proof.
  induction l as [|y l IH]; simpl; [reflexivity|].
  destruct (Qle_bool (key y) (key x)); [reflexivity|].
  rewrite IH. apply perm_swap.
Qed.

Lemma sort_by_desc_perm {A : Type} (key : A -> Q) (l : list A) :
  Permutation (sort_by_desc key l) l.
Proof.
  induction l as [|x l IH]; simpl; [reflexivity|].
  rewrite insert_by_perm, IH. reflexivity.
Qed.

Lemma insert_by_sorted {A : Type} (key : A -> Q) (x : A) (l : list A) :
  Sorted (fun a b => (key b <= key a)%Q) l ->
  Sorted (fun a b => (key b <= key a)%Q) (insert_by key x l).
Proof.
  induction l as [|y l IH]; intros Hs; simpl.
  - repeat constructor.
  - destruct (Qle_bool (key y) (key x)) eqn:Hle.
    + constructor; [exact Hs|]. constructor. apply Qle_bool_iff. exact Hle.
    + inversion Hs as [|? ? Hs' Hhd]; subst.
      assert (Hxy : (key x <= key y)%Q).
      { apply Qlt_le_weak, Qnot_le_lt. intros H.
        apply Qle_bool_iff in H. congruence. }
      constructor; [apply IH; exact Hs'|].
      destruct l as [|z l]; simpl.
      * constructor. exact Hxy.
      * destruct (Qle_bool (key z) (key x)); constructor;
          [exact Hxy | inversion Hhd; assumption].
Qed.

Lemma sort_by_desc_sorted {A : Type} (key : A -> Q) (l : list A) :
  StronglySorted (fun a b => (key b <= key a)%Q) (sort_by_desc key l).
Proof.
  apply Sorted_StronglySorted.
  - intros a b c H1 H2. eapply Qle_trans; eassumption.
  - induction l as [|x l IH]; simpl; [constructor|].
    apply insert_by_sorted. exact IH.
Qed.

Lemma list_sum_map_add {K : Type} (a b : K -> nat) (ks : list K) :
  list_sum (map (fun k => a k + b k) ks)
  = list_sum (map a ks) + list_sum (map b ks).
Proof. induction ks as [|k ks IH]; simpl; [reflexivity|]. rewrite IH. lia. Qed.

Lemma indicator_sum_notin {K : Type} (eqb : K -> K -> bool) (a : K) (ks : list K) :
  (forall x y, eqb x y = true <-> x = y) ->
  ~ In a ks ->
  list_sum (map (fun k => if eqb a k then 1 else 0) ks) = 0.
Proof.
  intros Heq Hn. induction ks as [|k ks IH]; simpl; [reflexivity|].
  destruct (eqb a k) eqn:Hak.
  - apply Heq in Hak. exfalso. apply Hn. left. congruence.
  - apply IH. intros H. apply Hn. right. exact H.
Qed.

Lemma indicator_sum_in {K : Type} (eqb : K -> K -> bool) (a : K) (ks : list K) :
  (forall x y, eqb x y = true <-> x = y) ->
  List.NoDup ks -> In a ks ->
  list_sum (map (fun k => if eqb a k then 1 else 0) ks) = 1.
Proof.
  intros Heq Hnd Hin. induction ks as [|k ks IH]; [destruct Hin|]. simpl.
  apply List.NoDup_cons_iff in Hnd as [Hk Hnd].
  destruct (eqb a k) eqn:Hak.
  - apply Heq in Hak. subst k.
    rewrite (indicator_sum_notin eqb a ks Heq Hk). reflexivity.
  - destruct Hin as [->|Hin].
    + rewrite (proj2 (Heq a a) eq_refl) in Hak. discriminate.
    + apply IH; assumption.
Qed.

(** Grouping a list by a key and counting each group counts every element
    once. *)
Lemma group_count_sum {A K : Type} (f : A -> K) (eqb : K -> K -> bool)
    (ks : list K) (l : list A) :
  (forall x y, eqb x y = true <-> x = y) ->
  List.NoDup ks ->
  (forall x, In x l -> In (f x) ks) ->
  list_sum (map (fun k => List.length (List.filter (fun x => eqb (f x) k) l)) ks)
  = List.length l.
Proof.
  intros Heq Hnd. induction l as [|x l IH]; intros Hin.
  - simpl. clear. induction ks as [|k ks IHk]; simpl; [reflexivity | exact IHk].
  - transitivity
      (list_sum (map (fun k => (if eqb (f x) k then 1 else 0)
                               + List.length (List.filter (fun y => eqb (f y) k) l)) ks)).
    { f_equal. apply map_ext. intros k. simpl.
      destruct (eqb (f x) k); reflexivity. }
    rewrite list_sum_map_add, (indicator_sum_in eqb (f x) ks Heq Hnd), IH.
    + reflexivity.
    + intros y Hy. apply Hin. right. exact Hy.
    + apply Hin. left. reflexivity.
Qed.

Lemma string_eqb_iff (x y : string) : String.eqb x y = true <-> x = y.
Proof. apply String.eqb_eq. Qed.

Lemma firstn_NoDup {A : Type} (n : nat) (l : list A) : List.NoDup l -> List.NoDup (firstn n l).
Proof.
  revert l. induction n as [|n IH]; intros l Hnd; [constructor|].
  destruct l as [|x l]; [constructor|]. simpl.
  apply List.NoDup_cons_iff in Hnd as [Hx Hnd].
  apply List.NoDup_cons_iff. split; [|apply IH; exact Hnd].
  intros H. apply Hx. eapply firstn_incl; exact H.
Qed.

(** ** Zone leaderboard *)

Lemma ranked_length (i : nat) (l : list ZoneStat) :
  List.length (ranked i l) = List.length l.
Proof. revert i. induction l as [|z l IH]; intros i; simpl; [|rewrite IH]; reflexivity. Qed.

Lemma ranked_ranks (i : nat) (l : list ZoneStat) :
  map z_rank (ranked i l) = seq (i + 1) (List.length l).
Proof.
  revert i. induction l as [|z l IH]; intros i; simpl; [reflexivity|].
  rewrite IH. replace (S i + 1) with (S (i + 1)) by lia. reflexivity.
Qed.

Lemma ranked_zones (i : nat) (l : list ZoneStat) :
  map z_zone (ranked i l) = map zs_zone l.
Proof. revert i. induction l as [|z l IH]; intros i; simpl; [|rewrite IH]; reflexivity. Qed.

Lemma ranked_In (i : nat) (l : list ZoneStat) (e : ZoneEntry) :
  In e (ranked i l) ->
  exists z, In z l /\ z_zone e = zs_zone z /\ z_total_amount e = zs_total_amount z
            /\ z_transaction_count e = zs_transaction_count z
            /\ z_average_amount e = zs_average_amount z.
Proof.
  revert i. induction l as [|z l IH]; intros i; simpl; [intros []|].
  intros [<-|H].
  - exists z. simpl. auto.
  - destruct (IH _ H) as (z' & Hin & Hrest). exists z'. auto.
Qed.

Lemma ranked_sorted (i : nat) (l : list ZoneStat) :
  StronglySorted (fun a b => (zs_total_amount b <= zs_total_amount a)%Q) l ->
  StronglySorted (fun a b => (z_total_amount b <= z_total_amount a)%Q) (ranked i l).
Proof.
  revert i. induction l as [|z l IH]; intros i Hs; simpl; [constructor|].
  inversion Hs as [|? ? Hs' Hall]; subst. constructor; [apply IH; exact Hs'|].
  apply List.Forall_forall. intros e He.
  apply ranked_In in He as (z' & Hin & _ & Ht & _).
  rewrite List.Forall_forall in Hall. rewrite Ht. simpl. apply Hall. exact Hin.
Qed.

Lemma StronglySorted_app_order {A : Type} (R : A -> A -> Prop) (l1 l2 : list A) :
  StronglySorted R (l1 ++ l2) ->
  forall a b, In a l1 -> In b l2 -> R a b.
Proof.
  induction l1 as [|x l1 IH]; intros Hs a b Ha Hb; [destruct Ha|].
  simpl in Hs. inversion Hs as [|? ? Hs' Hall]; subst.
  destruct Ha as [->|Ha].
  - rewrite List.Forall_forall in Hall. apply Hall. apply in_or_app. right. exact Hb.
  - apply IH; assumption.
Qed.

Lemma zone_stats_sorted_perm (txs : list Transaction) :
  Permutation
    (sort_by_desc zs_total_amount (map (zone_stat txs) (nodup string_dec (map zone txs))))
    (map (zone_stat txs) (nodup string_dec (map zone txs))).
Proof. apply sort_by_desc_perm. Qed.

Lemma in_zone_query (txs : list Transaction) (z : ZoneStat) :
  In z (zone_query txs) ->
  z = zone_stat txs (zs_zone z) /\ List.filter (in_zone (zs_zone z)) txs <> [].
Proof.
  unfold zone_query. intros H. apply firstn_incl in H.
  apply (Permutation_in _ (zone_stats_sorted_perm txs)) in H.
  apply in_map_iff in H as (c & <- & Hc). simpl. split; [reflexivity|].
  apply nodup_In, in_map_iff in Hc as (t & <- & Ht).
  intros Hnil.
  assert (In t (List.filter (in_zone (zone t)) txs)) as Hin.
  { apply filter_In. split; [exact Ht|]. unfold in_zone. apply String.eqb_refl. }
  rewrite Hnil in Hin. exact Hin.
Qed.

(** The zone leaderboard has at most 20 entries, ranked 1, 2, ... in the
    order of their totals, descending; every zone appears at most once, with
    the sum, the number and the mean of its transactions' amounts; a zone
    that is left out has a total no greater than any listed one, and no zone
    is left out when there are at most 20. *)
Theorem zone_leaderboard_ranks_zones :
  forall s : Store,
    List.length (zone_leaderboard s) <= 20
    /\ map z_rank (zone_leaderboard s) = seq 1 (List.length (zone_leaderboard s))
    /\ StronglySorted (fun a b => (z_total_amount b <= z_total_amount a)%Q)
                      (zone_leaderboard s)
    /\ List.NoDup (map z_zone (zone_leaderboard s))
    /\ (forall e, In e (zone_leaderboard s) ->
          List.filter (in_zone (z_zone e)) (transactions s) <> []
          /\ z_transaction_count e
             = List.length (List.filter (in_zone (z_zone e)) (transactions s))
          /\ z_total_amount e
             = Qsum (map (fun t => dec_value (amount t))
                         (List.filter (in_zone (z_zone e)) (transactions s)))
          /\ z_average_amount e
             = Qavg (map (fun t => dec_value (amount t))
                         (List.filter (in_zone (z_zone e)) (transactions s))))
    /\ (forall t e, In t (transactions s) -> In e (zone_leaderboard s) ->
          ~ In (zone t) (map z_zone (zone_leaderboard s)) ->
          (zs_total_amount (zone_stat (transactions s) (zone t)) <= z_total_amount e)%Q)
    /\ (List.length (nodup string_dec (map zone (transactions s))) <= 20 ->
        forall t, In t (transactions s) ->
                  In (zone t) (map z_zone (zone_leaderboard s))).
Proof.
  intros s. unfold zone_leaderboard.
  set (txs := transactions s).
  set (stats := map (zone_stat txs) (nodup string_dec (map zone txs))).
  set (sorted := sort_by_desc zs_total_amount stats).
  assert (Hperm : Permutation sorted stats) by apply sort_by_desc_perm.
  assert (Hsorted : StronglySorted
                      (fun a b => (zs_total_amount b <= zs_total_amount a)%Q) sorted)
    by apply sort_by_desc_sorted.
  assert (Hzones : map zs_zone stats = nodup string_dec (map zone txs)).
  { unfold stats. rewrite map_map. simpl. apply map_id. }
  assert (Hq : zone_query txs = firstn 20 sorted) by reflexivity.
  split; [|split; [|split; [|split; [|split; [|split]]]]].
  - rewrite ranked_length, Hq. apply firstn_le_length.
  - rewrite ranked_ranks, ranked_length. reflexivity.
  - apply ranked_sorted. rewrite Hq. apply StronglySorted_firstn. exact Hsorted.
  - rewrite ranked_zones, Hq, <- firstn_map. apply firstn_NoDup.
    apply (Permutation_NoDup (l := map zs_zone stats)).
    + apply Permutation_map, Permutation_sym. exact Hperm.
    + rewrite Hzones. apply List.NoDup_nodup.
  - intros e He. apply ranked_In in He as (z & Hz & Hzone & Htot & Hcnt & Havg).
    apply in_zone_query in Hz as [Hz Hne].
    rewrite Hzone, Htot, Hcnt, Havg.
    set (zn := zs_zone z) in *. clearbody zn. subst z. simpl.
    split; [exact Hne|]. rewrite length_map. auto.
  - intros t e Ht He Hout.
    apply ranked_In in He as (z & Hz & _ & Htot & _). rewrite Htot.
    rewrite ranked_zones in Hout.
    assert (Hin : In (zone_stat txs (zone t)) sorted).
    { apply (Permutation_in _ (Permutation_sym Hperm)).
      unfold stats. apply in_map, nodup_In, in_map. exact Ht. }
    rewrite <- (firstn_skipn 20 sorted) in Hin, Hsorted.
    apply in_app_or in Hin as [Hin|Hin].
    + exfalso. apply Hout. rewrite Hq.
      change (zone t) with (zs_zone (zone_stat txs (zone t))).
      apply in_map. exact Hin.
    + rewrite Hq in Hz.
      exact (StronglySorted_app_order _ _ _ Hsorted z _ Hz Hin).
  - intros Hlen t Ht. rewrite ranked_zones, Hq.
    rewrite firstn_all2.
    + apply (Permutation_in (l := map zs_zone stats)).
      * apply Permutation_map, Permutation_sym. exact Hperm.
      * rewrite Hzones. apply nodup_In, in_map. exact Ht.
    + rewrite (Permutation_length Hperm). unfold stats. rewrite length_map. exact Hlen.
Qed.

(** ** Category distribution *)

Lemma list_sum_perm (l l' : list nat) : Permutation l l' -> list_sum l = list_sum l'.
Proof. induction 1; simpl; lia. Qed.

Lemma StronglySorted_map_rel {A B : Type} (f : A -> B) (R : A -> A -> Prop)
    (S : B -> B -> Prop) (l : list A) :
  (forall a b, R a b -> S (f a) (f b)) ->
  StronglySorted R l -> StronglySorted S (map f l).
Proof.
  intros HRS. induction 1 as [|a l Hs IH Hall]; simpl; constructor; [exact IH|].
  apply List.Forall_forall. intros b Hb. apply in_map_iff in Hb as (x & <- & Hx).
  rewrite List.Forall_forall in Hall. apply HRS, Hall, Hx.
Qed.

Lemma Qnat_le (a b : nat) : (Qnat a <= Qnat b)%Q -> a <= b.
Proof. unfold Qnat. rewrite <- Zle_Qle. lia. Qed.

Lemma category_shares_map (round1 : Q -> Q) (txs : list Transaction) :
  category_shares round1 txs
  = map (category_share round1 (List.length txs)) (category_counts txs).
Proof. destruct txs; reflexivity. Qed.

Lemma category_counts_perm (txs : list Transaction) :
  Permutation
    (category_counts txs)
    (map (fun c => mkCategoryCount c (List.length (List.filter (in_category c) txs)))
         (nodup string_dec (map category txs))).
Proof. apply sort_by_desc_perm. Qed.

Lemma filter_nonempty_length {A : Type} (p : A -> bool) (l : list A) (x : A) :
  In x l -> p x = true -> 1 <= List.length (List.filter p l).
Proof.
  intros Hin Hp.
  assert (In x (List.filter p l)) as H by (apply filter_In; auto).
  destruct (List.filter p l); [destruct H | simpl; lia].
Qed.

(** The category distribution lists every category that has a transaction
    exactly once, with the number of its transactions (at least one) and the
    rounded percentage of the total, the largest first; the numbers add up
    to the total number of transactions, for an empty store as well. *)
Theorem category_distribution_accounts_for_every_transaction :
  forall (round1 : Q -> Q) (s : Store),
    let d := category_distribution round1 s in
    let txs := transactions s in
    dist_total_transactions d = List.length txs
    /\ list_sum (map cd_transaction_count (dist_data d)) = List.length txs
    /\ StronglySorted (fun a b => cd_transaction_count b <= cd_transaction_count a)
                      (dist_data d)
    /\ List.NoDup (map cd_category (dist_data d))
    /\ (forall t, In t txs -> In (category t) (map cd_category (dist_data d)))
    /\ (forall e, In e (dist_data d) ->
          1 <= cd_transaction_count e
          /\ cd_transaction_count e
             = List.length (List.filter (in_category (cd_category e)) txs)
          /\ cd_percentage e
             = round1 (Qnat (cd_transaction_count e) / Qnat (List.length txs) * 100)%Q).
Proof.
  intros round1 s d txs. unfold d, category_distribution.
  cbn [dist_data dist_total_transactions]. fold txs.
  rewrite category_shares_map.
  pose proof (category_counts_perm txs) as Hperm.
  set (groups := map (fun c => mkCategoryCount c
                                 (List.length (List.filter (in_category c) txs)))
                     (nodup string_dec (map category txs))) in Hperm.
  assert (Hcats : map cc_category groups = nodup string_dec (map category txs)).
  { unfold groups. rewrite map_map. simpl. apply map_id. }
  assert (Hcatmap : map cd_category
                        (map (category_share round1 (List.length txs))
                             (category_counts txs))
                    = map cc_category (category_counts txs))
    by (rewrite map_map; apply map_ext; reflexivity).
  split; [reflexivity|]. split; [|split; [|split; [|split]]].
  - rewrite map_map.
    transitivity (list_sum (map cc_transaction_count (category_counts txs)));
      [f_equal; apply map_ext; reflexivity|].
    rewrite (list_sum_perm _ _ (Permutation_map cc_transaction_count Hperm)).
    unfold groups. rewrite map_map. cbn [cc_transaction_count].
    apply (group_count_sum category String.eqb).
    + exact string_eqb_iff.
    + apply List.NoDup_nodup.
    + intros t Ht. apply nodup_In, in_map. exact Ht.
  - apply (StronglySorted_map_rel _
             (fun a b => (Qnat (cc_transaction_count b) <= Qnat (cc_transaction_count a))%Q)).
    + intros a b Hab. simpl. apply Qnat_le. exact Hab.
    + apply (sort_by_desc_sorted (fun c => Qnat (cc_transaction_count c))).
  - rewrite Hcatmap.
    apply (Permutation_NoDup (l := map cc_category groups)).
    + apply Permutation_map, Permutation_sym. exact Hperm.
    + rewrite Hcats. apply List.NoDup_nodup.
  - intros t Ht. rewrite Hcatmap.
    apply (Permutation_in (l := map cc_category groups)).
    + apply Permutation_map, Permutation_sym. exact Hperm.
    + rewrite Hcats. apply nodup_In, in_map. exact Ht.
  - intros e He. apply in_map_iff in He as (c & <- & Hc).
    apply (Permutation_in _ Hperm) in Hc. unfold groups in Hc.
    apply in_map_iff in Hc as (name & <- & Hname).
    cbn [category_share cd_category cd_transaction_count cd_percentage
         cc_category cc_transaction_count].
    split; [|split; reflexivity].
    apply nodup_In, in_map_iff in Hname as (t & <- & Ht).
    apply (filter_nonempty_length _ _ t Ht). unfold in_category. apply String.eqb_refl.
Qed.

(** ** Customer retention *)

Lemma repeat_counts_bound (l : list (string * nat)) :
  List.Forall (fun pc => 1 <= snd pc) l ->
  List.length l + List.length (List.filter (fun pc => 1 <? snd pc) l)
  <= list_sum (map snd l).
Proof.
  induction 1 as [|pc l Hpc _ IH]; simpl; [lia|].
  destruct (Nat.ltb_spec 1 (snd pc)); simpl; lia.
Qed.

Lemma filter_length_bound {A : Type} (p : A -> bool) (l : list A) :
  List.length (List.filter p l) <= List.length l.
Proof. induction l as [|x l IH]; simpl; [lia|]. destruct (p x); simpl; lia. Qed.

Lemma customer_counts_sum (txs : list Transaction) :
  list_sum (map snd (customer_counts txs)) = List.length txs.
Proof.
  unfold customer_counts. rewrite map_map. cbn [snd].
  apply (group_count_sum customer_phone String.eqb).
  - exact string_eqb_iff.
  - apply List.NoDup_nodup.
  - intros t Ht. apply nodup_In, in_map. exact Ht.
Qed.

Lemma customer_counts_pos (txs : list Transaction) :
  List.Forall (fun pc => 1 <= snd pc) (customer_counts txs).
Proof.
  apply List.Forall_forall. intros pc Hpc. unfold customer_counts in Hpc.
  apply in_map_iff in Hpc as (phone & <- & Hp). cbn [snd].
  apply nodup_In, in_map_iff in Hp as (t & <- & Ht).
  apply (filter_nonempty_length _ _ t Ht). unfold is_customer. apply String.eqb_refl.
Qed.

(** In the retention figures a customer is a distinct phone value; repeat and
    single-transaction customers partition the customers; customers plus
    repeat customers never exceed the number of transactions; a store without
    transactions gives zeros throughout (no division is made), and a store
    with transactions has at least one customer. *)
Theorem customer_retention_partitions_customers :
  forall (round2 : Q -> Q) (s : Store),
    let r := customer_retention round2 s in
    let txs := transactions s in
    total_unique_customers r = List.length (nodup string_dec (map customer_phone txs))
    /\ repeat_customers r + single_transaction_customers r = total_unique_customers r
    /\ total_unique_customers r + repeat_customers r <= List.length txs
    /\ (txs = [] -> r = mkRetention 0 0 0%Q 0 0%Q)
    /\ (txs <> [] -> 1 <= total_unique_customers r).
Proof.
  intros round2 s r txs. unfold r, customer_retention. fold txs.
  cbn [total_unique_customers repeat_customers single_transaction_customers].
  pose proof (filter_length_bound (fun pc : string * nat => 1 <? snd pc)
                                  (customer_counts txs)) as Hle.
  pose proof (repeat_counts_bound _ (customer_counts_pos txs)) as Hb.
  rewrite customer_counts_sum in Hb.
  split; [unfold customer_counts; apply length_map|].
  split; [lia|]. split; [exact Hb|]. split.
  - intros ->. reflexivity.
  - intros Hne. destruct txs as [|t txs']; [congruence|].
    unfold customer_counts. rewrite length_map.
    assert (In (customer_phone t) (nodup string_dec (map customer_phone (t :: txs'))))
      as Hin by (apply nodup_In; left; reflexivity).
    destruct (nodup string_dec (map customer_phone (t :: txs')));
      [destruct Hin | simpl; lia].
Qed.

(** ** Full report *)

Lemma sort_desc_length (l : list Anomaly) : List.length (sort_desc l) = List.length l.
Proof.
  induction l as [|x l IH]; simpl; [reflexivity|].
  rewrite insert_desc_length, IH. reflexivity.
Qed.

Lemma anomalies_count_fold (num : Numerics) (txs : list Transaction)
    (stats : list CategoryStat) (acc : nat) :
  fold_left
    (fun acc stat =>
       if std_dev_positive (category_std_dev stat) then
         let threshold :=
           threshold_of num (category_mean stat) (category_std_dev stat) in
         acc + List.length
                 (List.filter (above_threshold num (cs_category stat) threshold) txs)
       else acc) stats acc
  = acc + List.length (concat (map (category_anomalies num txs) stats)).
Proof.
  revert acc. induction stats as [|stat stats IH]; intros acc; simpl; [lia|].
  rewrite IH, length_app. unfold category_anomalies.
  destruct (std_dev_positive (category_std_dev stat)); [|simpl; lia].
  cbv zeta. rewrite length_map. lia.
Qed.

Lemma anomalies_count_length (num : Numerics) (txs : list Transaction) :
  anomalies_count num txs = List.length (all_anomalies num txs).
Proof.
  unfold anomalies_count, all_anomalies.
  rewrite sort_desc_length, anomalies_count_fold. reflexivity.
Qed.

(** The full report carries the zone leaderboard, the category distribution
    and the retention figures of the single endpoints, and its two counts
    are the totals that the anomalies and the dormant-merchants endpoints
    report in their pagination; its hourly section is always empty. *)
Theorem full_report_agrees_with_endpoints :
  forall (round1 round2 : Q -> Q) (num : Numerics) (s : Store) (page page_size : Z),
    invalid_pagination page page_size = false ->
    let r := full_report round1 round2 num s in
    fr_zone_leaderboard r = zone_leaderboard s
    /\ fr_category_distribution r = dist_data (category_distribution round1 s)
    /\ fr_customer_retention r = customer_retention round2 s
    /\ (exists data pg,
          anomalies num s page page_size = PageOf data pg
          /\ pg_total pg = Z.of_nat (fr_anomalies_count r))
    /\ (exists data pg,
          dormant_merchants s page page_size = PageOf data pg
          /\ pg_total pg = Z.of_nat (fr_dormant_merchants_count r))
    /\ fr_hourly_pattern r = [].
Proof.
  intros round1 round2 num s page page_size Hvalid r.
  pose proof (proj1 (invalid_pagination_false _ _) Hvalid) as [_ [Hsize _]].
  split; [reflexivity|]. split; [reflexivity|]. split; [reflexivity|].
  split; [|split; [|reflexivity]].
  - unfold anomalies. rewrite Hvalid.
    destruct (paginated_in_range (all_anomalies num (transactions s)) page page_size
                Hsize) as [data ->].
    eexists _, _. split; [reflexivity|].
    unfold r, full_report. cbn [pg_total fr_anomalies_count].
    rewrite anomalies_count_length. reflexivity.
  - unfold dormant_merchants. rewrite Hvalid.
    destruct (paginated_in_range (map dormant_entry (dormant_set s)) page page_size Hsize)
      as [data ->].
    eexists _, _. split; [reflexivity|].
    unfold r, full_report. cbn [pg_total fr_dormant_merchants_count].
    unfold Paginator.count. rewrite length_map. reflexivity.
Qed.

Lemma full_report_agrees_with_endpoints_witness :
  invalid_pagination 1 50 = false
  /\ exists data pg,
       anomalies store_numerics sample_store 1 50 = PageOf data pg
       /\ pg_total pg
          = Z.of_nat (fr_anomalies_count
                        (full_report (fun q => q) (fun q => q) store_numerics
                                     sample_store)).
Proof.
  split; [reflexivity|].
  pose proof (full_report_agrees_with_endpoints (fun q => q) (fun q => q)
                store_numerics sample_store 1%Z 50%Z eq_refl) as H.
  cbv zeta in H. destruct H as (_ & _ & _ & H & _). exact H.
Defined.

(** ** Hourly pattern: every transaction is counted once *)

Lemma hour_of_range (t : Transaction) : (0 <= hour_of t < 24)%Z.
Proof. unfold hour_of. apply Z.mod_pos_bound. lia. Qed.

Lemma fill_hours_count (round2 : Q -> Q) (txs : list Transaction) (h : Z) :
  (0 <= h < 24)%Z ->
  h_transaction_count
    (match hours_dict (hourly_data txs) !! h with
     | Some data =>
         mkHourRow h (h_transaction_count data) (round2 (h_average_amount data))
     | None => mkHourRow h 0 0%Q
     end)
  = List.length (List.filter (in_hour h) txs).
Proof.
  intros Hr. unfold hours_dict.
  destruct (fold_left _ (hourly_data txs) ∅ !! h) as [data|] eqn:Hl.
  - apply hours_dict_fold_some in Hl as [Hl | [Hin Hh]];
      [rewrite lookup_empty in Hl; discriminate|].
    apply in_hourly_data in Hin as [Hd _]. rewrite Hh in Hd. rewrite Hd. reflexivity.
  - apply hours_dict_fold_none in Hl as [_ Hall]. cbn [h_transaction_count].
    destruct (List.filter (in_hour h) txs) as [|t l] eqn:Hf; [reflexivity|].
    destruct (hourly_data_has_hour txs h Hr) as (data & Hin & Hh);
      [rewrite Hf; discriminate|].
    rewrite List.Forall_forall in Hall. exfalso. exact (Hall data Hin Hh).
Qed.

(** The counts of the 24 hourly entries add up to the number of stored
    transactions: each transaction is counted in exactly one hour. *)
Theorem hourly_counts_cover_all_transactions :
  forall (round2 : Q -> Q) (s : Store),
    list_sum (map h_transaction_count (hourly_pattern round2 s))
    = List.length (transactions s).
Proof.
  intros round2 s. unfold hourly_pattern, fill_hours. rewrite map_map.
  transitivity
    (list_sum (map (fun h => List.length
                               (List.filter (fun t => (hour_of t =? h)%Z) (transactions s)))
                   (seqZ 0 24))).
  - f_equal. apply map_ext_in. intros h Hh.
    apply list_elem_of_In, elem_of_seqZ in Hh.
    apply (fill_hours_count round2). lia.
  - apply (group_count_sum hour_of Z.eqb).
    + intros x y. apply Z.eqb_eq.
    + apply NoDup_ListNoDup, NoDup_seqZ.
    + intros t _. apply list_elem_of_In, elem_of_seqZ.
      pose proof (hour_of_range t). lia.
Qed.

(** ** Paging through a result *)

Lemma get_page_in_range {A : Type} (items : list A) (per_page number : Z) :
  (1 <= per_page)%Z ->
  (1 <= number <= Paginator.num_pages items per_page)%Z ->
  Paginator.get_page items per_page number
  = Some (firstn (Z.to_nat per_page)
                 (skipn (Z.to_nat (number - 1) * Z.to_nat per_page) items)).
Proof.
  intros Hp [Hn1 Hn2].
  assert (Hv : Paginator.validate_number items per_page number = Some number).
  { unfold Paginator.validate_number.
    destruct (Z.ltb_spec number 1); [lia|].
    destruct (Z.ltb_spec (Paginator.num_pages items per_page) number); [lia|].
    reflexivity. }
  unfold Paginator.get_page. rewrite Hv. unfold Paginator.page. rewrite Hv.
  f_equal. unfold Paginator.slice.
  pose proof (num_pages_bounds items per_page Hp) as [Hlo _].
  assert (Hb : ((number - 1) * per_page <= Paginator.count items)%Z).
  { assert ((number - 1) * per_page
            <= (Paginator.num_pages items per_page - 1) * per_page)%Z by nia.
    unfold Paginator.count in *. lia. }
  replace (Z.to_nat ((number - 1) * per_page))
    with (Z.to_nat (number - 1) * Z.to_nat per_page) by nia.
  destruct (Z.leb_spec (Paginator.count items) ((number - 1) * per_page + per_page))
    as [Hc|Hc].
  - rewrite !firstn_all2; [reflexivity| |];
      rewrite length_skipn; unfold Paginator.count in *; nia.
  - f_equal. lia.
Qed.

Lemma concat_pages {A : Type} (items : list A) (p n : nat) :
  concat (map (fun k => firstn p (skipn (k * p) items)) (seq 0 n))
  = firstn (n * p) items.
Proof.
  induction n as [|n IH]; [reflexivity|].
  rewrite seq_S, map_app, concat_app, IH. simpl.
  rewrite app_nil_r, take_take_drop. f_equal. lia.
Qed.

Lemma pages_cover {A : Type} (items : list A) (per_page : Z) :
  (1 <= per_page)%Z ->
  exists pages : list (list A),
    Z.of_nat (List.length pages) = Paginator.num_pages items per_page
    /\ (forall number,
          (1 <= number <= Paginator.num_pages items per_page)%Z ->
          Paginator.get_page items per_page number = pages !! Z.to_nat (number - 1))
    /\ concat pages = items
    /\ List.Forall (fun data => (Z.of_nat (List.length data) <= per_page)%Z) pages.
Proof.
  intros Hp.
  pose proof (num_pages_ge_1 items per_page Hp) as HN.
  pose proof (num_pages_bounds items per_page Hp) as [_ Hhi].
  exists (map (fun k => firstn (Z.to_nat per_page)
                               (skipn (k * Z.to_nat per_page) items))
              (seq 0 (Z.to_nat (Paginator.num_pages items per_page)))).
  split; [rewrite length_map, length_seq; lia|]. split; [|split].
  - intros number Hn. rewrite (get_page_in_range _ _ _ Hp Hn).
    rewrite list_lookup_fmap, lookup_seq_lt by lia. reflexivity.
  - rewrite concat_pages. apply firstn_all2. unfold Paginator.count in Hhi. nia.
  - apply List.Forall_forall. intros data Hd.
    apply in_map_iff in Hd as (k & <- & _).
    pose proof (firstn_le_length (Z.to_nat per_page)
                  (skipn (k * Z.to_nat per_page) items)). lia.
Qed.

(** Paging through the anomalies or the dormant merchants with a valid page
    size, from page 1 to the reported number of pages, returns every item
    exactly once and in order, at most [page_size] on a page. *)
Theorem paging_returns_every_item_once :
  forall (num : Numerics) (s : Store) (page_size : Z),
    (1 <= page_size <= 1000)%Z ->
    (exists pages : list (list Anomaly),
        concat pages = all_anomalies num (transactions s)
        /\ List.Forall (fun data => (Z.of_nat (List.length data) <= page_size)%Z) pages
        /\ forall page, (1 <= page <= Z.of_nat (List.length pages))%Z ->
             exists data,
               pages !! Z.to_nat (page - 1) = Some data
               /\ anomalies num s page page_size
                  = PageOf data
                      (mkPagination page page_size
                         (Z.of_nat (List.length (all_anomalies num (transactions s))))
                         (Z.of_nat (List.length pages))))
    /\ (exists pages : list (list DormantEntry),
        concat pages = map dormant_entry (dormant_set s)
        /\ List.Forall (fun data => (Z.of_nat (List.length data) <= page_size)%Z) pages
        /\ forall page, (1 <= page <= Z.of_nat (List.length pages))%Z ->
             exists data,
               pages !! Z.to_nat (page - 1) = Some data
               /\ dormant_merchants s page page_size
                  = PageOf data
                      (mkPagination page page_size
                         (Z.of_nat (List.length (dormant_set s)))
                         (Z.of_nat (List.length pages)))).
Proof.
  intros num s page_size Hsize.
  assert (Hgen : forall (A : Type) (items : list A),
             exists pages : list (list A),
               concat pages = items
               /\ List.Forall
                    (fun data => (Z.of_nat (List.length data) <= page_size)%Z) pages
               /\ forall page, (1 <= page <= Z.of_nat (List.length pages))%Z ->
                    exists data,
                      pages !! Z.to_nat (page - 1) = Some data
                      /\ (if invalid_pagination page page_size
                          then BadRequest "Invalid pagination parameters"
                          else paginated items page page_size)
                         = PageOf data
                             (mkPagination page page_size
                                (Z.of_nat (List.length items))
                                (Z.of_nat (List.length pages)))).
  { intros A items.
    destruct (pages_cover items page_size ltac:(lia)) as (pages & Hlen & Hget & Hcat & Hall).
    exists pages. split; [exact Hcat|]. split; [exact Hall|].
    intros page Hpage. rewrite Hlen in *.
    rewrite (proj2 (invalid_pagination_false page page_size)) by lia.
    unfold paginated. rewrite (Hget page Hpage).
    destruct (pages !! Z.to_nat (page - 1)) as [data|] eqn:Hl.
    - exists data. split; reflexivity.
    - apply lookup_ge_None in Hl. lia. }
  split.
  - exact (Hgen _ (all_anomalies num (transactions s))).
  - destruct (Hgen _ (map dormant_entry (dormant_set s))) as (pages & H1 & H2 & H3).
    exists pages. rewrite length_map in H3. auto.
Qed.

Lemma paging_returns_every_item_once_witness :
  (1 <= 1 <= 1000)%Z
  /\ exists pages : list (list Anomaly),
       concat pages = all_anomalies store_numerics (transactions sample_store)
       /\ List.Forall (fun data => (Z.of_nat (List.length data) <= 1)%Z) pages.
Proof.
  split; [lia|].
  destruct (paging_returns_every_item_once store_numerics sample_store 1%Z ltac:(lia))
    as [(pages & Hcat & Hall & _) _].
  exists pages. split; assumption.
Defined.

(** ** What a run does to the store, whatever calls fail *)

Ltac process_row_cases env i st row :=
  unfold process_row, clean_transaction_data;
  destruct (clean_record (clock env i) row) as [t|] eqn:Hclean;
  [ destruct (batch_size <=? List.length (l_batch_data st ++ [t])) eqn:Hfull;
    [ destruct (bulk_create_ok env (l_bulk_calls st)) eqn:Hbulk;
      [ destruct (task_save_ok env (l_save_calls st)) eqn:Hsave | ] | ] | ];
  cbn [l_rows_processed l_rows_failed l_batch_data l_task l_store l_bulk_calls
       l_save_calls].

Lemma save_task_ids (t : UploadTask) (s : Store) :
  map task_id (upload_tasks (save_task t s)) = map task_id (upload_tasks s).
Proof.
  unfold save_task. cbn [upload_tasks]. rewrite map_map. apply map_ext.
  intros u. destruct (String.eqb (task_id u) (task_id t)) eqn:Hu; [|reflexivity].
  apply String.eqb_eq in Hu. congruence.
Qed.

Lemma save_task_others (tid : string) (t : UploadTask) (s : Store) :
  task_id t = tid -> other_tasks tid (save_task t s) = other_tasks tid s.
Proof.
  intros <-. unfold other_tasks, save_task. cbn [upload_tasks].
  induction (upload_tasks s) as [|u l IH]; [reflexivity|]. simpl.
  destruct (String.eqb (task_id u) (task_id t)) eqn:Hu; simpl.
  - rewrite String.eqb_refl. simpl. exact IH.
  - rewrite Hu. simpl. f_equal. exact IH.
Qed.

(** One row of the loop: run records. *)
Lemma process_row_tasks (env : Env) (i : nat) (st : Loop) (row : Row) (tid : string) :
  task_id (l_task st) = tid ->
  map task_id (upload_tasks (l_store (process_row env i st row)))
  = map task_id (upload_tasks (l_store st))
  /\ other_tasks tid (l_store (process_row env i st row)) = other_tasks tid (l_store st).
Proof.
  intros Hid. process_row_cases env i st row; try (split; reflexivity).
  split.
  - rewrite save_task_ids. reflexivity.
  - rewrite save_task_others by exact Hid. reflexivity.
Qed.

Lemma run_loop_tasks (env : Env) (rows : list Row) (tid : string) :
  forall (i : nat) (st : Loop),
    task_id (l_task st) = tid -> is_Some (get_task tid (l_store st)) ->
    map task_id (upload_tasks (l_store (run_loop env i rows st)))
    = map task_id (upload_tasks (l_store st))
    /\ other_tasks tid (l_store (run_loop env i rows st)) = other_tasks tid (l_store st).
Proof.
  induction rows as [|row rows IH]; intros i st Hid Hs; cbn [run_loop]; [auto|].
  destruct (process_row_task env i st row tid Hid Hs) as [H1 H2].
  destruct (process_row_tasks env i st row tid Hid) as [H3 H4].
  destruct (IH (S i) _ H1 H2) as [H5 H6].
  split; congruence.
Qed.

Lemma fail_run_store (env : Env) (tid err : string) (store : Store)
    (bulk_calls save_calls : nat) :
  let r := fail_run env tid err store bulk_calls save_calls in
  transactions (run_store r) = transactions store
  /\ merchants (run_store r) = merchants store
  /\ map task_id (upload_tasks (run_store r)) = map task_id (upload_tasks store)
  /\ other_tasks tid (run_store r) = other_tasks tid store
  /\ run_file_removed r = false.
Proof.
  unfold fail_run. destruct (get_task tid store) as [t|] eqn:Ht; cbn [run_store run_file_removed].
  - destruct (task_save_ok env save_calls); [|auto].
    rewrite save_task_ids, save_task_others; [auto|].
    cbn [task_id]. exact (get_task_id _ _ _ Ht).
  - auto.
Qed.

(** A run creates and deletes no run record, and changes none but its own,
    whatever the source holds and whichever calls to the store fail. *)
Theorem run_changes_only_its_own_record :
  forall (env : Env) (tid : string) (file : option (list Row)) (store : Store),
    map task_id (upload_tasks (run_store (process_csv_file env tid file store)))
    = map task_id (upload_tasks store)
    /\ other_tasks tid (run_store (process_csv_file env tid file store))
       = other_tasks tid store.
Proof.
  intros env tid file store. unfold process_csv_file.
  destruct (get_task tid store) as [task|] eqn:Htask;
    [|destruct (fail_run_store env tid "UploadTask matching query does not exist."
                  store 0 0) as (_ & _ & H1 & H2 & _); auto].
  pose proof (get_task_id _ _ _ Htask) as Hid.
  destruct (task_save_ok env 0); cbn [negb];
    [|destruct (fail_run_store env tid "task.save() failed" store 0 1)
        as (_ & _ & H1 & H2 & _); auto].
  set (task1 := set_status PROCESSING task).
  assert (Hid1 : task_id task1 = tid) by exact Hid.
  pose proof (save_task_ids task1 store) as Hs1.
  pose proof (save_task_others tid task1 store Hid1) as Hs2.
  destruct file as [rows|].
  2:{ destruct (fail_run_store env tid "File not found" (save_task task1 store) 0 1)
        as (_ & _ & H1 & H2 & _). split; congruence. }
  set (st0 := mkLoop 0 0 [] task1 (save_task task1 store) 0 1).
  destruct (run_loop_tasks env rows tid 0 st0 Hid1) as [H1 H2].
  { cbn [st0 l_store]. apply get_task_save_is_some; [exact Hid1 | eauto]. }
  destruct (run_loop_task env rows tid 0 st0 Hid1) as [H3 _].
  { cbn [st0 l_store]. apply get_task_save_is_some; [exact Hid1 | eauto]. }
  cbn [st0 l_store] in H1, H2.
  set (st := run_loop env 0 rows st0) in *.
  assert (Hend : forall store' processed calls,
             map task_id (upload_tasks store') = map task_id (upload_tasks (l_store st)) ->
             other_tasks tid store' = other_tasks tid (l_store st) ->
             let done :=
               save_task (mkUploadTask (task_id (l_task st)) COMPLETED
                            (filename (l_task st)) (file_size (l_task st))
                            processed (l_rows_failed st)
                            (error_message (l_task st))) store' in
             let r := if task_save_ok env (l_save_calls st)
                      then if file_remove_ok env
                           then mkRun done calls (S (l_save_calls st)) true
                           else fail_run env tid "os.remove failed" done calls
                                         (S (l_save_calls st))
                      else fail_run env tid "task.save() failed" store' calls
                                    (S (l_save_calls st)) in
             map task_id (upload_tasks (run_store r)) = map task_id (upload_tasks store)
             /\ other_tasks tid (run_store r) = other_tasks tid store).
  { intros store' processed calls K1 K2.
    destruct (task_save_ok env (l_save_calls st)); cbv zeta.
    - destruct (file_remove_ok env).
      + cbn [run_store]. rewrite save_task_ids, save_task_others by exact H3.
        split; congruence.
      + destruct (fail_run_store env tid "os.remove failed"
                    (save_task (mkUploadTask (task_id (l_task st)) COMPLETED
                                  (filename (l_task st)) (file_size (l_task st))
                                  processed (l_rows_failed st)
                                  (error_message (l_task st))) store')
                    calls (S (l_save_calls st))) as (_ & _ & K3 & K4 & _).
        rewrite save_task_ids in K3. rewrite save_task_others in K4 by exact H3.
        split; congruence.
    - destruct (fail_run_store env tid "task.save() failed" store' calls
                  (S (l_save_calls st))) as (_ & _ & K3 & K4 & _).
      split; congruence. }
  destruct (reader_raises env).
  { destruct (fail_run_store env tid "the reader raised" (l_store st)
                (l_bulk_calls st) (l_save_calls st)) as (_ & _ & K3 & K4 & _).
    split; congruence. }
  destruct (l_batch_data st) as [|t batch].
  - apply Hend; reflexivity.
  - destruct (bulk_create_ok env (l_bulk_calls st)).
    + apply Hend; reflexivity.
    + destruct (fail_run_store env tid "bulk_create failed" (l_store st)
                  (S (l_bulk_calls st)) (l_save_calls st)) as (_ & _ & K3 & K4 & _).
      split; congruence.
Qed.

Lemma has_transaction_In (x : string) (ts : list Transaction) :
  has_transaction x ts = true <-> In x (map transaction_id ts).
Proof.
  unfold has_transaction. rewrite existsb_exists, in_map_iff. split.
  - intros (t & Ht & He). apply String.eqb_eq in He. eauto.
  - intros (t & He & Ht). exists t. split; [exact Ht|]. apply String.eqb_eq. exact He.
Qed.

(** [INSERT IGNORE] appends rows of the batch, and keeps identifiers
    unique. *)
Lemma insert_ignore_app (batch ts : list Transaction) :
  exists added : list Transaction,
    insert_ignore batch ts = ts ++ added
    /\ incl added batch
    /\ List.length added <= List.length batch
    /\ (List.NoDup (map transaction_id ts) ->
        List.NoDup (map transaction_id (ts ++ added))).
Proof.
  unfold insert_ignore. revert ts.
  induction batch as [|t batch IH]; intros ts; simpl.
  - exists []. rewrite app_nil_r. repeat split; auto. intros x [].
  - destruct (has_transaction (transaction_id t) ts) eqn:Hhas.
    + destruct (IH ts) as (added & H1 & H2 & H3 & H4).
      exists added. repeat split; auto. intros x Hx. right. apply H2, Hx.
    + destruct (IH (ts ++ [t])) as (added & H1 & H2 & H3 & H4).
      exists (t :: added). rewrite H1, <- app_assoc. simpl.
      split; [reflexivity|]. split; [|split; [lia|]].
      * intros x [<-|Hx]; [left; reflexivity | right; apply H2, Hx].
      * intros Hnd. change (ts ++ t :: added) with (ts ++ [t] ++ added).
        rewrite app_assoc. apply H4. rewrite map_app. simpl.
        apply NoDup_ListNoDup, NoDup_app. repeat split.
        -- apply NoDup_ListNoDup. exact Hnd.
        -- intros x Hx Hx'. apply list_elem_of_In in Hx.
           apply list_elem_of_In in Hx' as [<-|[]].
           apply has_transaction_In in Hx. congruence.
        -- apply NoDup_singleton.
Qed.

Lemma validated_Forall_incl (env : Env) (rows : list Row) (l l' : list Transaction) :
  incl l l' -> List.Forall (validated env rows) l' -> List.Forall (validated env rows) l.
Proof.
  intros Hincl Hall. rewrite List.Forall_forall in *. intros t Ht. apply Hall, Hincl, Ht.
Qed.

(** One row of the loop: stored transactions. *)
Lemma process_row_transactions (env : Env) (rows : list Row) (i : nat) (st : Loop)
    (row : Row) :
  rows !! i = Some row ->
  List.Forall (validated env rows) (l_batch_data st) ->
  List.Forall (validated env rows) (l_batch_data (process_row env i st row))
  /\ exists added : list Transaction,
       transactions (l_store (process_row env i st row))
       = transactions (l_store st) ++ added
       /\ List.Forall (validated env rows) added
       /\ List.length added + l_rows_processed st
          <= l_rows_processed (process_row env i st row)
       /\ (List.NoDup (transaction_ids (l_store st)) ->
           List.NoDup (transaction_ids (l_store (process_row env i st row)))).
Proof.
  intros Hrow Hbatch.
  assert (Hnone : exists added : list Transaction,
             transactions (l_store st) = transactions (l_store st) ++ added
             /\ List.Forall (validated env rows) added
             /\ List.length added + l_rows_processed st <= l_rows_processed st
             /\ (List.NoDup (transaction_ids (l_store st)) ->
                 List.NoDup (transaction_ids (l_store st)))).
  { exists []. rewrite app_nil_r. simpl. repeat split; auto. }
  process_row_cases env i st row; cbn [set_merchants transactions];
    try (split; [|exact Hnone]).
  - assert (Hb : List.Forall (validated env rows) (l_batch_data st ++ [t])).
    { apply Forall_app. split; [exact Hbatch|]. constructor; [|constructor].
      exists i, row. auto. }
    split; [constructor|].
    destruct (insert_ignore_app (l_batch_data st ++ [t]) (transactions (l_store st)))
      as (added & H1 & H2 & H3 & H4).
    exists added. unfold transaction_ids. cbn [save_task bulk_create set_merchants transactions].
    rewrite H1. repeat split; [| lia | exact H4].
    exact (validated_Forall_incl _ _ _ _ H2 Hb).
  - assert (Hb : List.Forall (validated env rows) (l_batch_data st ++ [t])).
    { apply Forall_app. split; [exact Hbatch|]. constructor; [|constructor].
      exists i, row. auto. }
    split; [constructor|].
    destruct (insert_ignore_app (l_batch_data st ++ [t]) (transactions (l_store st)))
      as (added & H1 & H2 & H3 & H4).
    exists added. unfold transaction_ids. cbn [save_task bulk_create set_merchants transactions].
    rewrite H1. repeat split; [| lia | exact H4].
    exact (validated_Forall_incl _ _ _ _ H2 Hb).
  - apply Forall_app. split; [exact Hbatch|]. constructor; [|constructor].
    exists i, row. auto.
  - apply Forall_app. split; [exact Hbatch|]. constructor; [|constructor].
    exists i, row. auto.
  - exact Hbatch.
Qed.

Lemma run_loop_transactions (env : Env) (all : list Row) :
  forall (rows pre : list Row) (st : Loop),
    all = pre ++ rows ->
    List.Forall (validated env all) (l_batch_data st) ->
    List.Forall (validated env all)
                (l_batch_data (run_loop env (List.length pre) rows st))
    /\ exists added : list Transaction,
         transactions (l_store (run_loop env (List.length pre) rows st))
         = transactions (l_store st) ++ added
         /\ List.Forall (validated env all) added
         /\ List.length added + l_rows_processed st
            <= l_rows_processed (run_loop env (List.length pre) rows st)
         /\ (List.NoDup (transaction_ids (l_store st)) ->
             List.NoDup (transaction_ids
                           (l_store (run_loop env (List.length pre) rows st)))).
Proof.
  induction rows as [|row rows IH]; intros pre st Hall Hbatch; cbn [run_loop].
  - split; [exact Hbatch|]. exists []. rewrite app_nil_r. simpl. repeat split; auto.
  - assert (Hrow : all !! List.length pre = Some row).
    { rewrite Hall. rewrite lookup_app_r by lia. rewrite Nat.sub_diag. reflexivity. }
    destruct (process_row_transactions env all _ st row Hrow Hbatch)
      as (Hb1 & added1 & T1 & V1 & L1 & N1).
    specialize (IH (pre ++ [row]) (process_row env (List.length pre) st row)).
    rewrite length_app in IH. cbn [List.length] in IH.
    replace (List.length pre + 1) with (S (List.length pre)) in IH by lia.
    destruct IH as (Hb2 & added2 & T2 & V2 & L2 & N2);
      [rewrite <- app_assoc; exact Hall | exact Hb1 |].
    split; [exact Hb2|].
    exists (added1 ++ added2). rewrite T2, T1, <- app_assoc.
    split; [reflexivity|]. split; [apply Forall_app; auto|].
    split; [rewrite length_app; lia | auto].
Qed.

(** One row of the loop: the counters, whichever calls fail. *)
Lemma process_row_counts (env : Env) (i : nat) (st : Loop) (row : Row) :
  l_rows_processed (process_row env i st row)
  + List.length (l_batch_data (process_row env i st row))
  = l_rows_processed st + List.length (l_batch_data st)
    + match clean_record (clock env i) row with Some _ => 1 | None => 0 end
  /\ l_rows_failed st + 1
     <= l_rows_failed (process_row env i st row)
        + match clean_record (clock env i) row with Some _ => 1 | None => 0 end
  /\ l_rows_failed (process_row env i st row) <= l_rows_failed st + 1.
Proof.
  process_row_cases env i st row; rewrite ?length_app; cbn [List.length]; lia.
Qed.

Lemma run_loop_counts (env : Env) (rows : list Row) :
  forall (i : nat) (st : Loop),
    l_rows_processed (run_loop env i rows st)
    + List.length (l_batch_data (run_loop env i rows st))
    = l_rows_processed st + List.length (l_batch_data st) + count_valid env i rows
    /\ l_rows_failed st + List.length rows
       <= l_rows_failed (run_loop env i rows st) + count_valid env i rows
    /\ l_rows_failed (run_loop env i rows st) <= l_rows_failed st + List.length rows.
Proof.
  induction rows as [|row rows IH]; intros i st; cbn [run_loop count_valid List.length].
  - lia.
  - pose proof (process_row_counts env i st row) as (H1 & H2 & H3).
    destruct (IH (S i) (process_row env i st row)) as (K1 & K2 & K3). lia.
Qed.

Lemma count_valid_le (env : Env) (rows : list Row) (i : nat) :
  count_valid env i rows <= List.length rows.
Proof.
  revert i. induction rows as [|row rows IH]; intros i; cbn [count_valid List.length];
    [lia|].
  specialize (IH (S i)). destruct (clean_record (clock env i) row); lia.
Qed.

(** The ways a run ends.  Either it does not reach the loop (no run record,
    a failing first save, no file), or the loop runs and then the reader
    raises, or the last batch is stored or the insert fails, the final save
    returns or fails, and the staged file is removed or not. *)
Lemma process_csv_file_outcome (env : Env) (tid : string) (file : option (list Row))
    (store : Store) :
  let r := process_csv_file env tid file store in
  ((get_task tid store = None \/ task_save_ok env 0 = false \/ file = None)
   /\ run_file_removed r = false /\ run_bulk_calls r = 0
   /\ transactions (run_store r) = transactions store
   /\ merchants (run_store r) = merchants store)
  \/ exists (task : UploadTask) (rows : list Row),
       get_task tid store = Some task /\ file = Some rows
       /\ task_save_ok env 0 = true
       /\ let st := run_loop env 0 rows
                      (mkLoop 0 0 [] (set_status PROCESSING task)
                              (save_task (set_status PROCESSING task) store) 0 1) in
          merchants (run_store r) = merchants (l_store st)
          /\ ((run_file_removed r = false
               /\ transactions (run_store r) = transactions (l_store st))
              \/ (transactions (run_store r)
                  = insert_ignore (l_batch_data st) (transactions (l_store st))
                  /\ (run_file_removed r = true ->
                      final_task tid r
                      = Some (mkUploadTask tid COMPLETED (filename (l_task st))
                                (file_size (l_task st))
                                (l_rows_processed st + List.length (l_batch_data st))
                                (l_rows_failed st) (error_message (l_task st)))))).
Proof.
  intros r. unfold r, process_csv_file.
  destruct (get_task tid store) as [task|] eqn:Htask.
  2:{ left. destruct (fail_run_store env tid "UploadTask matching query does not exist."
                        store 0 0) as (H1 & H2 & _ & _ & H3).
      rewrite fail_run_bulk_calls. auto 10. }
  pose proof (get_task_id _ _ _ Htask) as Hid.
  destruct (task_save_ok env 0) eqn:Hs0; cbn [negb].
  2:{ left. destruct (fail_run_store env tid "task.save() failed" store 0 1)
        as (H1 & H2 & _ & _ & H3).
      rewrite fail_run_bulk_calls. auto 10. }
  destruct file as [rows|].
  2:{ left. destruct (fail_run_store env tid "File not found"
                        (save_task (set_status PROCESSING task) store) 0 1)
        as (H1 & H2 & _ & _ & H3).
      rewrite fail_run_bulk_calls. auto 10. }
  right. exists task, rows. split; [reflexivity|]. split; [reflexivity|].
  split; [reflexivity|]. cbv zeta.
  set (st0 := mkLoop 0 0 [] (set_status PROCESSING task)
                     (save_task (set_status PROCESSING task) store) 0 1).
  destruct (run_loop_task env rows tid 0 st0) as [H3 H4].
  { exact Hid. }
  { cbn [st0 l_store]. apply get_task_save_is_some; [exact Hid | eauto]. }
  set (st := run_loop env 0 rows st0) in *.
  assert (Hend : forall store' processed calls,
             merchants store' = merchants (l_store st) ->
             upload_tasks store' = upload_tasks (l_store st) ->
             let done :=
               save_task (mkUploadTask (task_id (l_task st)) COMPLETED
                            (filename (l_task st)) (file_size (l_task st))
                            processed (l_rows_failed st)
                            (error_message (l_task st))) store' in
             let r := if task_save_ok env (l_save_calls st)
                      then if file_remove_ok env
                           then mkRun done calls (S (l_save_calls st)) true
                           else fail_run env tid "os.remove failed" done calls
                                         (S (l_save_calls st))
                      else fail_run env tid "task.save() failed" store' calls
                                    (S (l_save_calls st)) in
             merchants (run_store r) = merchants (l_store st)
             /\ transactions (run_store r) = transactions store'
             /\ (run_file_removed r = true ->
                 final_task tid r
                 = Some (mkUploadTask tid COMPLETED (filename (l_task st))
                           (file_size (l_task st)) processed (l_rows_failed st)
                           (error_message (l_task st))))).
  { intros store' processed calls K1 K2.
    destruct (task_save_ok env (l_save_calls st)); cbv zeta.
    - destruct (file_remove_ok env).
      + cbn [run_store run_file_removed]. split; [exact K1|]. split; [reflexivity|].
        intros _. unfold final_task. cbn [run_store]. rewrite H3.
        apply get_task_save; [reflexivity|].
        unfold get_task in *. rewrite K2. exact H4.
      + destruct (fail_run_store env tid "os.remove failed"
                    (save_task (mkUploadTask (task_id (l_task st)) COMPLETED
                                  (filename (l_task st)) (file_size (l_task st))
                                  processed (l_rows_failed st)
                                  (error_message (l_task st))) store')
                    calls (S (l_save_calls st))) as (K3 & K4 & _ & _ & K5).
        cbn [save_task transactions merchants] in K3, K4.
        split; [congruence|]. split; [exact K3|]. intros K6. congruence.
    - destruct (fail_run_store env tid "task.save() failed" store' calls
                  (S (l_save_calls st))) as (K3 & K4 & _ & _ & K5).
      split; [congruence|]. split; [exact K3|]. intros K6. congruence. }
  destruct (reader_raises env).
  { destruct (fail_run_store env tid "the reader raised" (l_store st)
                (l_bulk_calls st) (l_save_calls st)) as (K3 & K4 & _ & _ & K5).
    split; [exact K4|]. left. split; [exact K5 | exact K3]. }
  destruct (l_batch_data st) as [|t batch] eqn:Hbatch.
  - destruct (Hend (l_store st) (l_rows_processed st) (l_bulk_calls st) eq_refl eq_refl)
      as (K1 & K2 & K3).
    split; [exact K1|]. right. split; [exact K2|].
    cbn [List.length]. rewrite Nat.add_0_r. exact K3.
  - destruct (bulk_create_ok env (l_bulk_calls st)).
    + destruct (Hend (bulk_create (t :: batch) (l_store st))
                     (l_rows_processed st + List.length (t :: batch))
                     (S (l_bulk_calls st)) eq_refl eq_refl) as (K1 & K2 & K3).
      split; [exact K1|]. right. split; [exact K2 | exact K3].
    + destruct (fail_run_store env tid "bulk_create failed" (l_store st)
                  (S (l_bulk_calls st)) (l_save_calls st)) as (K3 & K4 & _ & _ & K5).
      split; [exact K4|]. left. split; [exact K5 | exact K3].
Qed.

(** Whichever calls to the store fail, a run that removes the staged file
    has recorded its task as COMPLETED; its processed counter is then the
    number of rows the validator accepted, and its rejected counter is at
    least the number of the other rows and at most the number of rows: the
    counters never lose a row. *)
Theorem removed_file_means_completed_and_counted :
  forall (env : Env) (tid : string) (file : option (list Row)) (store : Store),
    run_file_removed (process_csv_file env tid file store) = true ->
    exists (rows : list Row) (t : UploadTask),
      file = Some rows
      /\ final_task tid (process_csv_file env tid file store) = Some t
      /\ status t = COMPLETED
      /\ rows_processed t = count_valid env 0 rows
      /\ List.length rows <= rows_processed t + rows_rejected t
      /\ rows_rejected t <= List.length rows.
Proof.
  intros env tid file store Hrem.
  destruct (process_csv_file_outcome env tid file store)
    as [(_ & H & _) | (task & rows & Htask & -> & Hs0 & Hm & [[H _] | [Ht Hfin]])];
    try congruence.
  exists rows. eexists. split; [reflexivity|]. split; [exact (Hfin Hrem)|].
  cbn [status rows_processed rows_rejected].
  destruct (run_loop_counts env rows 0
              (mkLoop 0 0 [] (set_status PROCESSING task)
                      (save_task (set_status PROCESSING task) store) 0 1))
    as (K1 & K2 & K3).
  cbn [l_rows_processed l_rows_failed l_batch_data List.length] in K1, K2, K3.
  split; [reflexivity|]. split; [lia|]. split; lia.
Qed.

Lemma removed_file_means_completed_and_counted_witness :
  exists (rows : list Row) (t : UploadTask),
    Some [row_aware_iso; row_naive_iso] = Some rows
    /\ final_task "run-1"
         (process_csv_file env_ok "run-1" (Some [row_aware_iso; row_naive_iso])
                           queued_store) = Some t
    /\ status t = COMPLETED
    /\ rows_processed t = count_valid env_ok 0 rows
    /\ List.length rows <= rows_processed t + rows_rejected t
    /\ rows_rejected t <= List.length rows.
Proof.
  apply (removed_file_means_completed_and_counted env_ok "run-1"
           (Some [row_aware_iso; row_naive_iso]) queued_store).
  vm_compute. reflexivity.
Defined.

(** A run only appends to the stored transactions, and what it appends are
    records the validator produced from rows of the source, no more of them
    than rows were accepted; identifiers that were unique stay unique.  This
    holds whichever calls to the store fail. *)
Theorem run_appends_validated_transactions :
  forall (env : Env) (tid : string) (file : option (list Row)) (store : Store),
    exists added : list Transaction,
      transactions (run_store (process_csv_file env tid file store))
      = transactions store ++ added
      /\ List.Forall (validated env (rows_of file)) added
      /\ List.length added <= count_valid env 0 (rows_of file)
      /\ (List.NoDup (transaction_ids store) ->
          List.NoDup (transaction_ids (run_store (process_csv_file env tid file store)))).
Proof.
  intros env tid file store.
  destruct (process_csv_file_outcome env tid file store)
    as [(_ & _ & _ & H & _) | (task & rows & Htask & -> & Hs0 & Hm & Hcases)].
  { exists []. unfold transaction_ids. rewrite H, app_nil_r.
    split; [reflexivity|]. split; [constructor|]. split; [simpl; lia | auto]. }
  change (rows_of (Some rows)) with rows.
  set (st0 := mkLoop 0 0 [] (set_status PROCESSING task)
                     (save_task (set_status PROCESSING task) store) 0 1) in *.
  destruct (run_loop_transactions env rows rows [] st0 eq_refl)
    as (Hb & added & T & V & L & N); [constructor|].
  destruct (run_loop_counts env rows 0 st0) as (K1 & _ & _).
  cbn [List.length] in Hb, T, L, N.
  change (l_rows_processed st0) with 0 in K1, L.
  change (l_batch_data st0) with (@nil Transaction) in K1.
  cbn [List.length] in K1.
  change (transactions (l_store st0)) with (transactions store) in T.
  change (transaction_ids (l_store st0)) with (transaction_ids store) in N.
  set (st := run_loop env 0 rows st0) in *.
  destruct Hcases as [[_ Ht] | [Ht _]]; unfold transaction_ids in *; rewrite Ht.
  - exists added. rewrite T. split; [reflexivity|]. split; [exact V|].
    split; [lia|]. rewrite <- T. exact N.
  - destruct (insert_ignore_app (l_batch_data st) (transactions (l_store st)))
      as (added2 & H1 & H2 & H3 & H4).
    exists (added ++ added2). rewrite H1, T, <- app_assoc.
    split; [reflexivity|]. split; [|split].
    + apply Forall_app. split; [exact V|].
      exact (validated_Forall_incl _ _ _ _ H2 Hb).
    + rewrite length_app. lia.
    + intros Hnd. rewrite app_assoc, <- T. apply H4, N, Hnd.
Qed.

(** ** Merchants created by a run *)

Lemma has_merchant_In (mid : string) (ms : list Merchant) :
  has_merchant mid ms = true <-> In mid (map m_merchant_id ms).
Proof.
  unfold has_merchant. rewrite existsb_exists, in_map_iff. split.
  - intros (m & Hm & He). apply String.eqb_eq in He. eauto.
  - intros (m & He & Hm). exists m. split; [exact Hm|]. apply String.eqb_eq. exact He.
Qed.

Lemma has_merchant_app (mid : string) (ms new : list Merchant) :
  has_merchant mid ms = true -> has_merchant mid (ms ++ new) = true.
Proof.
  unfold has_merchant. rewrite existsb_app. intros ->. reflexivity.
Qed.

(** [get_or_create] appends at most one merchant, without a name, and keeps
    the keys unique. *)
Lemma get_or_create_spec (mid : string) (ms : list Merchant) :
  has_merchant mid (get_or_create mid ms) = true
  /\ (get_or_create mid ms = ms
      \/ (has_merchant mid ms = false /\ get_or_create mid ms = ms ++ [mkMerchant mid None]))
  /\ (List.NoDup (map m_merchant_id ms) ->
      List.NoDup (map m_merchant_id (get_or_create mid ms))).
Proof.
  unfold get_or_create. destruct (has_merchant mid ms) eqn:Hhas.
  - auto.
  - split; [|split; [auto|]].
    + unfold has_merchant. rewrite existsb_app. simpl.
      rewrite String.eqb_refl, orb_true_r. reflexivity.
    + intros Hnd. rewrite map_app. simpl.
      apply NoDup_ListNoDup, NoDup_app. repeat split.
      * apply NoDup_ListNoDup. exact Hnd.
      * intros x Hx Hx'. apply list_elem_of_In in Hx.
        apply list_elem_of_In in Hx' as [<-|[]].
        apply has_merchant_In in Hx. congruence.
      * apply NoDup_singleton.
Qed.

Lemma process_row_merchants_eq (env : Env) (i : nat) (st : Loop) (row : Row) :
  merchants (l_store (process_row env i st row))
  = (clean_transaction_data (clock env i) (merchant_ok env i) row
                            (merchants (l_store st))).2.
Proof. process_row_cases env i st row; reflexivity. Qed.

(** One row of the loop: merchants. *)
Lemma process_row_merchants (env : Env) (rows : list Row) (i : nat) (st : Loop)
    (row : Row) :
  rows !! i = Some row ->
  exists new : list Merchant,
    merchants (l_store (process_row env i st row)) = merchants (l_store st) ++ new
    /\ List.Forall (fun m => m_name m = None
                             /\ exists t, validated env rows t
                                          /\ merchant_id t = m_merchant_id m) new
    /\ (List.NoDup (merchant_ids (l_store st)) ->
        List.NoDup (merchant_ids (l_store (process_row env i st row))))
    /\ (forall t, clean_record (clock env i) row = Some t ->
                  merchant_ok env i = true ->
                  has_merchant (merchant_id t)
                               (merchants (l_store (process_row env i st row))) = true).
Proof.
  intros Hrow. unfold merchant_ids. rewrite process_row_merchants_eq.
  unfold clean_transaction_data.
  destruct (clean_record (clock env i) row) as [t|] eqn:Hclean; cbn [snd].
  2:{ exists []. rewrite app_nil_r. repeat split; auto. discriminate. }
  destruct (merchant_ok env i).
  2:{ exists []. rewrite app_nil_r. repeat split; auto. discriminate. }
  destruct (get_or_create_spec (merchant_id t) (merchants (l_store st)))
    as (H1 & [H2 | [H2 H3]] & H4).
  - exists []. rewrite app_nil_r. split; [exact H2|]. split; [constructor|].
    split; [exact H4|]. intros t' [= <-] _. exact H1.
  - exists [mkMerchant (merchant_id t) None]. split; [exact H3|].
    split; [|split; [exact H4|]].
    + constructor; [|constructor]. split; [reflexivity|].
      exists t. split; [exists i, row; auto | reflexivity].
    + intros t' [= <-] _. exact H1.
Qed.

Lemma run_loop_merchants (env : Env) (all : list Row) :
  forall (rows pre : list Row) (st : Loop),
    all = pre ++ rows ->
    exists new : list Merchant,
      merchants (l_store (run_loop env (List.length pre) rows st))
      = merchants (l_store st) ++ new
      /\ List.Forall (fun m => m_name m = None
                               /\ exists t, validated env all t
                                            /\ merchant_id t = m_merchant_id m) new
      /\ (List.NoDup (merchant_ids (l_store st)) ->
          List.NoDup (merchant_ids (l_store (run_loop env (List.length pre) rows st))))
      /\ (forall i row t,
            List.length pre <= i -> all !! i = Some row ->
            clean_record (clock env i) row = Some t ->
            merchant_ok env i = true ->
            has_merchant (merchant_id t)
              (merchants (l_store (run_loop env (List.length pre) rows st))) = true).
Proof.
  induction rows as [|row rows IH]; intros pre st Hall; cbn [run_loop].
  - exists []. rewrite app_nil_r. split; [reflexivity|]. split; [constructor|].
    split; [auto|]. intros i row t Hi Hrow. apply lookup_lt_Some in Hrow.
    rewrite Hall, length_app in Hrow. simpl in Hrow. lia.
  - assert (Hrow : all !! List.length pre = Some row).
    { rewrite Hall. rewrite lookup_app_r by lia. rewrite Nat.sub_diag. reflexivity. }
    destruct (process_row_merchants env all _ st row Hrow) as (new1 & M1 & V1 & N1 & C1).
    specialize (IH (pre ++ [row]) (process_row env (List.length pre) st row)).
    rewrite length_app in IH. cbn [List.length] in IH.
    replace (List.length pre + 1) with (S (List.length pre)) in IH by lia.
    destruct IH as (new2 & M2 & V2 & N2 & C2); [rewrite <- app_assoc; exact Hall|].
    exists (new1 ++ new2). rewrite M2, M1, <- app_assoc.
    split; [reflexivity|]. split; [apply Forall_app; auto|].
    split; [intros Hnd; apply N2, N1, Hnd|].
    intros i row' t Hi Hrow' Hclean Hok.
    destruct (Nat.eq_dec i (List.length pre)) as [->|Hne].
    + rewrite Hrow in Hrow'. injection Hrow' as <-.
      rewrite app_assoc, <- M1. apply has_merchant_app. exact (C1 t Hclean Hok).
    + rewrite app_assoc, <- M1, <- M2. apply (C2 i row' t); auto. lia.
Qed.

(** A run only appends to the merchants: rows without a name, whose key is
    the merchant of a record the validator accepted; keys that were unique
    stay unique.  Once the loop is reached, the merchant of every accepted
    row whose upsert returned is in the table when the run ends, also when
    the run fails afterwards. *)
Theorem run_creates_merchants_of_accepted_rows :
  forall (env : Env) (tid : string) (file : option (list Row)) (store : Store),
    exists new : list Merchant,
      merchants (run_store (process_csv_file env tid file store))
      = merchants store ++ new
      /\ List.Forall (fun m => m_name m = None
                               /\ exists t, validated env (rows_of file) t
                                            /\ merchant_id t = m_merchant_id m) new
      /\ (List.NoDup (merchant_ids store) ->
          List.NoDup (merchant_ids (run_store (process_csv_file env tid file store))))
      /\ (is_Some (get_task tid store) -> task_save_ok env 0 = true ->
          forall i row t,
            rows_of file !! i = Some row ->
            clean_record (clock env i) row = Some t ->
            merchant_ok env i = true ->
            has_merchant (merchant_id t)
              (merchants (run_store (process_csv_file env tid file store))) = true).
Proof.
  intros env tid file store.
  destruct (process_csv_file_outcome env tid file store)
    as [(Hwhy & _ & _ & _ & H) | (task & rows & Htask & -> & Hs0 & Hm & _)].
  - exists []. unfold merchant_ids. rewrite H, app_nil_r.
    split; [reflexivity|]. split; [constructor|]. split; [auto|].
    intros [task Htask] Hs0 i row t Hrow.
    destruct Hwhy as [Hw | [Hw | ->]]; [congruence | congruence | discriminate Hrow].
  - change (rows_of (Some rows)) with rows.
    destruct (run_loop_merchants env rows rows []
                (mkLoop 0 0 [] (set_status PROCESSING task)
                        (save_task (set_status PROCESSING task) store) 0 1) eq_refl)
      as (new & M & V & N & C).
    cbn [List.length] in M, N, C. cbv zeta in Hm.
    change (merchants (l_store (mkLoop 0 0 [] (set_status PROCESSING task)
                                  (save_task (set_status PROCESSING task) store) 0 1)))
      with (merchants store) in M.
    unfold merchant_ids in *. rewrite Hm.
    exists new. split; [exact M|]. split; [exact V|]. split; [exact N|].
    intros _ _ i row t Hrow Hclean Hok. apply (C i row t); auto. lia.
Qed.

(** ** How a run ends *)

(** When the saves of the run record return, a run of an existing record
    ends in COMPLETED or in FAILED, never in between; the staged file is
    removed exactly in the first case, and a failed run carries an error
    message.  A run whose file is missing fails without an insert, and its
    counters stay as they were. *)
Theorem run_ends_completed_or_failed :
  forall (env : Env) (tid : string) (file : option (list Row)) (store : Store)
         (task : UploadTask),
    (forall k, task_save_ok env k = true) ->
    get_task tid store = Some task ->
    exists t : UploadTask,
      final_task tid (process_csv_file env tid file store) = Some t
      /\ ((status t = COMPLETED
           /\ run_file_removed (process_csv_file env tid file store) = true
           /\ is_Some file)
          \/ (status t = FAILED
              /\ run_file_removed (process_csv_file env tid file store) = false
              /\ is_Some (error_message t)))
      /\ (file = None ->
          status t = FAILED
          /\ rows_processed t = rows_processed task
          /\ rows_rejected t = rows_rejected task
          /\ run_bulk_calls (process_csv_file env tid file store) = 0
          /\ transactions (run_store (process_csv_file env tid file store))
             = transactions store).
Proof.
  intros env tid file store task Hsaves Htask.
  pose proof (get_task_id _ _ _ Htask) as Hid.
  unfold process_csv_file. rewrite Htask, Hsaves. cbn [negb].
  set (task1 := set_status PROCESSING task).
  assert (Hget1 : get_task tid (save_task task1 store) = Some task1)
    by (apply get_task_save; [exact Hid | eauto]).
  destruct file as [rows|].
  2:{ destruct (fail_run_final env tid "File not found" (save_task task1 store) 0 1
                  task1 Hget1 (Hsaves 1)) as [H1 H2].
      eexists. split; [exact H1|]. cbn [status error_message rows_processed rows_rejected].
      split; [right; eauto|]. intros _.
      rewrite fail_run_bulk_calls.
      destruct (fail_run_store env tid "File not found" (save_task task1 store) 0 1)
        as (K1 & _). rewrite K1. auto. }
  set (st0 := mkLoop 0 0 [] task1 (save_task task1 store) 0 1).
  destruct (run_loop_task env rows tid 0 st0 Hid) as [H3 [u Hu]].
  { cbn [st0 l_store]. rewrite Hget1. eauto. }
  set (st := run_loop env 0 rows st0) in *.
  assert (Hend : forall store' processed calls,
             upload_tasks store' = upload_tasks (l_store st) ->
             let done :=
               save_task (mkUploadTask (task_id (l_task st)) COMPLETED
                            (filename (l_task st)) (file_size (l_task st))
                            processed (l_rows_failed st)
                            (error_message (l_task st))) store' in
             let r := if task_save_ok env (l_save_calls st)
                      then if file_remove_ok env
                           then mkRun done calls (S (l_save_calls st)) true
                           else fail_run env tid "os.remove failed" done calls
                                         (S (l_save_calls st))
                      else fail_run env tid "task.save() failed" store' calls
                                    (S (l_save_calls st)) in
             exists t : UploadTask,
               final_task tid r = Some t
               /\ ((status t = COMPLETED /\ run_file_removed r = true)
                   \/ (status t = FAILED /\ run_file_removed r = false
                       /\ is_Some (error_message t)))).
  { intros store' processed calls K. cbv zeta. rewrite Hsaves.
    assert (Hdone : get_task tid
                      (save_task (mkUploadTask (task_id (l_task st)) COMPLETED
                                    (filename (l_task st)) (file_size (l_task st))
                                    processed (l_rows_failed st)
                                    (error_message (l_task st))) store')
                    = Some (mkUploadTask (task_id (l_task st)) COMPLETED
                              (filename (l_task st)) (file_size (l_task st))
                              processed (l_rows_failed st)
                              (error_message (l_task st)))).
    { apply get_task_save; [exact H3|].
      unfold get_task in *. rewrite K. eauto. }
    destruct (file_remove_ok env).
    - eexists. split; [exact Hdone|]. left. split; reflexivity.
    - destruct (fail_run_final env tid "os.remove failed" _ calls
                  (S (l_save_calls st)) _ Hdone (Hsaves _)) as [K1 K2].
      eexists. split; [exact K1|]. right. cbn [status error_message]. eauto. }
  destruct (reader_raises env).
  { destruct (fail_run_final env tid "the reader raised" (l_store st)
                (l_bulk_calls st) (l_save_calls st) u Hu (Hsaves _)) as [K1 K2].
    eexists. split; [exact K1|]. cbn [status error_message].
    split; [right; eauto | discriminate]. }
  destruct (l_batch_data st) as [|t batch].
  - destruct (Hend (l_store st) (l_rows_processed st) (l_bulk_calls st) eq_refl)
      as (t' & K1 & K2).
    exists t'. split; [exact K1|]. split; [|discriminate].
    destruct K2 as [[K2 K3]|K2]; [left; eauto | right; exact K2].
  - destruct (bulk_create_ok env (l_bulk_calls st)).
    + destruct (Hend (bulk_create (t :: batch) (l_store st))
                     (l_rows_processed st + List.length (t :: batch))
                     (S (l_bulk_calls st)) eq_refl) as (t' & K1 & K2).
      exists t'. split; [exact K1|]. split; [|discriminate].
      destruct K2 as [[K2 K3]|K2]; [left; eauto | right; exact K2].
    + destruct (fail_run_final env tid "bulk_create failed" (l_store st)
                  (S (l_bulk_calls st)) (l_save_calls st) u Hu (Hsaves _)) as [K1 K2].
      eexists. split; [exact K1|]. cbn [status error_message].
      split; [right; eauto | discriminate].
Qed.

Lemma run_ends_completed_or_failed_witness :
  exists t : UploadTask,
    final_task "run-1" (process_csv_file env_ok "run-1" None queued_store) = Some t
    /\ status t = FAILED /\ rows_processed t = 0.
Proof.
  destruct (run_ends_completed_or_failed env_ok "run-1" None queued_store
              (mkUploadTask "run-1" QUEUED "data.csv" 100000 0 0 None)
              (fun _ => eq_refl) eq_refl) as (t & Hfin & _ & Hnone).
  destruct (Hnone eq_refl) as (Hst & Hp & _).
  exists t. split; [exact Hfin|]. split; [exact Hst | exact Hp].
Defined.

(** ** The submission gateway *)

Lemma missing_headers_nil (headers : list string) :
  missing_headers headers = [] <-> forall h, In h required_headers -> In h headers.
Proof.
  split.
  - intros Hnil h Hh.
    destruct (in_dec string_dec h headers) as [Hin|Hout]; [exact Hin|].
    assert (In h (missing_headers headers)) as H by (apply missing_headers_spec; auto).
    rewrite Hnil in H. destruct H.
  - intros Hall. destruct (missing_headers headers) as [|h l] eqn:Hm; [reflexivity|].
    assert (In h (missing_headers headers)) as H by (rewrite Hm; left; reflexivity).
    apply missing_headers_spec in H as [H1 H2]. exfalso. apply H2, Hall, H1.
Qed.

(** The pre-flight checks pass exactly for a named file of 1 byte to 3 GiB
    whose name ends in [.csv] and whose first 2048 characters are not blank
    and start with a header row that holds every required header, in any
    order and among any other columns. *)
Lemma preflight_passes (nul_error : bool) (f : UploadedFile) :
  preflight nul_error (Some f) = None
  <-> PyStr.truthy (name f) = true
      /\ size f <> 0%Z /\ (size f <= 3 * 1024 * 1024 * 1024)%Z
      /\ PyStr.endswith (name f) ".csv" = true
      /\ PyStr.truthy (PyStr.strip (PyStr.take 2048 (content f))) = true
      /\ exists headers,
           Csv.fieldnames nul_error (PyStr.take 2048 (content f)) = Csv.RowOf headers
           /\ forall h, In h required_headers -> In h headers.
Proof.
  unfold preflight.
  destruct (PyStr.truthy (name f)); cbn [negb];
    [|split; [discriminate | intros (H & _); discriminate]].
  destruct (Z.eqb_spec (size f) 0) as [H0|H0];
    [split; [discriminate | intros (_ & H & _); contradiction]|].
  destruct (PyStr.endswith (name f) ".csv"); cbn [negb];
    [|split; [discriminate | intros (_ & _ & _ & H & _); discriminate]].
  destruct (Z.ltb_spec (3 * 1024 * 1024 * 1024) (size f)) as [Hbig|Hbig];
    [split; [discriminate | intros (_ & _ & H & _); lia]|].
  cbv zeta.
  destruct (PyStr.truthy (PyStr.strip (PyStr.take 2048 (content f)))); cbn [negb];
    [|split; [discriminate | intros (_ & _ & _ & _ & H & _); discriminate]].
  destruct (Csv.fieldnames nul_error (PyStr.take 2048 (content f))) as [| |headers];
    try (split; [discriminate | intros (_ & _ & _ & _ & _ & hs & H & _); discriminate]).
  destruct headers as [|h0 headers].
  { split; [discriminate|]. intros (_ & _ & _ & _ & _ & hs & [= <-] & Hall).
    exfalso. apply (Hall "AMOUNT"%string). unfold required_headers. simpl. tauto. }
  destruct (missing_headers (h0 :: headers)) as [|m ms] eqn:Hm.
  - split; [|reflexivity]. intros _. repeat split; auto.
    exists (h0 :: headers). split; [reflexivity|]. apply missing_headers_nil, Hm.
  - split; [discriminate|]. intros (_ & _ & _ & _ & _ & hs & [= <-] & Hall).
    apply missing_headers_nil in Hall. congruence.
Qed.

(** Every rejection of the pre-flight checks has status 400. *)
Lemma preflight_rejects_with_400 (nul_error : bool) (file : option UploadedFile)
    (rejection : Response) :
  preflight nul_error file = Some rejection ->
  exists msg, rejection = Rejected 400 msg.
Proof.
  unfold preflight. destruct file as [f|]; [|intros [= <-]; eauto].
  destruct (negb (PyStr.truthy (name f))); [intros [= <-]; eauto|].
  destruct (size f =? 0)%Z; [intros [= <-]; eauto|].
  destruct (negb (PyStr.endswith (name f) ".csv")); [intros [= <-]; eauto|].
  destruct (3 * 1024 * 1024 * 1024 <? size f)%Z; [intros [= <-]; eauto|].
  cbv zeta.
  destruct (negb (PyStr.truthy _)); [intros [= <-]; eauto|].
  destruct (Csv.fieldnames _ _) as [| |[|h0 headers]]; try (intros [= <-]; eauto).
  destruct (missing_headers _); [discriminate | intros [= <-]; eauto].
Qed.


Lemma delete_created_task (t : UploadTask) (s : Store) :
  get_task (task_id t) s = None ->
  delete_task (task_id t) (create_task t s) = s.
Proof.
  intros Hfresh. destruct s as [txs ms tasks]. unfold delete_task, create_task, get_task in *.
  cbn [transactions merchants upload_tasks] in *. f_equal.
  rewrite List.filter_app. simpl. rewrite String.eqb_refl. simpl. rewrite app_nil_r.
  induction tasks as [|u tasks IH]; [reflexivity|]. simpl in *.
  destruct (String.eqb (task_id u) (task_id t)); [discriminate|].
  simpl. f_equal. apply IH, Hfresh.
Qed.

(** What the submission of a file does to the state, in every case:
    transactions and merchants are never touched.  It is rejected with status
    400 exactly when a pre-flight check fails, and the run records and the
    staging directory are then as they were; with status 500 exactly when the
    checks pass and the run record cannot be created or the file not staged;
    with status 503 exactly when both succeed and the fallback thread does not
    start.  It is accepted exactly when the checks pass, both succeed and the
    fallback thread starts, the queue playing no part: it then adds exactly
    one run record, QUEUED with both counters at zero and the size of the
    file, and stages the content of the file under a path that starts with the
    run's identifier; its receipt names that record and estimates at least one
    row. *)
Theorem ingest_csv_effects :
  forall (env : GatewayEnv) (f : UploadedFile) (g : Gateway),
    transactions (g_store (ingest_csv env (Some f) g).2) = transactions (g_store g)
    /\ merchants (g_store (ingest_csv env (Some f) g).2) = merchants (g_store g)
    /\ match (ingest_csv env (Some f) g).1 with
       | Rejected code _ =>
           (code = 400 \/ code = 500 \/ code = 503)%Z
           /\ (code = 400%Z -> (ingest_csv env (Some f) g).2 = g)
           /\ (code = 400%Z <-> is_Some (preflight (csv_nul_error env) (Some f)))
           /\ (code = 500%Z
               <-> preflight (csv_nul_error env) (Some f) = None
                   /\ (create_ok env = false \/ write_ok env = false))
           /\ (code = 503%Z
               <-> preflight (csv_nul_error env) (Some f) = None
                   /\ create_ok env = true /\ write_ok env = true
                   /\ fallback_ok env = false)
       | Accepted receipt =>
           preflight (csv_nul_error env) (Some f) = None
           /\ create_ok env = true /\ write_ok env = true
           /\ fallback_ok env = true
           /\ r_task_id receipt = new_task_id env
           /\ r_status receipt = QUEUED
           /\ (1 <= r_estimated_rows receipt)%Z
           /\ r_estimated_rows receipt = Z.max 1 (size f / 100)
           /\ upload_tasks (g_store (ingest_csv env (Some f) g).2)
              = upload_tasks (g_store g)
                ++ [mkUploadTask (new_task_id env) QUEUED (r_file_name receipt)
                                 (size f) 0 0 None]
           /\ g_staged (ingest_csv env (Some f) g).2
              = g_staged g
                ++ [(new_task_id env +:+ "_" +:+ r_file_name receipt, content f)]
       end.
Proof.
  intros env f g. unfold ingest_csv.
  destruct (preflight (csv_nul_error env) (Some f)) as [rejection|] eqn:Hpre.
  - cbn [fst snd]. split; [reflexivity|]. split; [reflexivity|].
    destruct (preflight_rejects_with_400 _ _ _ Hpre) as [msg ->].
    split; [auto|]. split; [reflexivity|].
    split; [split; eauto|].
    split; (split; [discriminate | intros [H _]; discriminate]).
  - destruct (create_ok env); cbn [negb fst snd].
    2:{ split; [reflexivity|]. split; [reflexivity|].
        split; [auto|]. split; [discriminate|].
        split; [split; [discriminate | intros [r Hr]; discriminate]|].
        split; [split; auto|].
        split; [discriminate | intros (_ & H & _); discriminate]. }
    destruct (write_ok env); cbn [negb fst snd].
    2:{ split; [reflexivity|]. split; [reflexivity|].
        split; [auto|]. split; [discriminate|].
        split; [split; [discriminate | intros [r Hr]; discriminate]|].
        split; [split; auto|].
        split; [discriminate | intros (_ & _ & H & _); discriminate]. }
    destruct (fallback_ok env); cbn [fst snd].
    + split; [reflexivity|]. split; [reflexivity|].
      cbn [r_task_id r_status r_estimated_rows r_file_name g_store g_staged
           create_task upload_tasks].
      repeat split; lia.
    + assert (Hcodes : (503 = 400 \/ 503 = 500 \/ 503 = 503)%Z
                       /\ (503%Z = 400%Z <-> @is_Some Response None)
                       /\ (503%Z = 500%Z
                           <-> @None Response = None /\ (true = false \/ true = false))
                       /\ (503%Z = 503%Z
                           <-> @None Response = None /\ true = true /\ true = true
                               /\ false = false)).
      { split; [auto|].
        split; [split; [discriminate | intros [r Hr]; discriminate]|].
        split; [split; [discriminate | intros [_ [H|H]]; discriminate]|].
        split; auto. }
      destruct Hcodes as (C1 & C2 & C3 & C4).
      destruct (remove_ok env); cbn [fst snd g_store].
      * destruct (delete_ok env); cbn [delete_task create_task transactions merchants];
          (split; [reflexivity|]); (split; [reflexivity|]);
          (split; [exact C1|]); (split; [discriminate|]); auto.
      * split; [reflexivity|]. split; [reflexivity|].
        split; [exact C1|]. split; [discriminate|]. auto.
Qed.


(** When the fallback thread does not start (the queue never takes a run)
    and the roll-back succeeds, the submission is answered with status 503
    and leaves no trace: the run record and the staged file are gone. *)
Theorem unavailable_queue_rolls_back :
  forall (env : GatewayEnv) (f : UploadedFile) (g : Gateway),
    preflight (csv_nul_error env) (Some f) = None ->
    create_ok env = true -> write_ok env = true ->
    fallback_ok env = false ->
    remove_ok env = true -> delete_ok env = true ->
    get_task (new_task_id env) (g_store g) = None ->
    ingest_csv env (Some f) g = (Rejected 503 "Processing queue unavailable", g).
Proof.
  intros env f g Hpre Hc Hw Hf Hr Hdel Hfresh.
  unfold ingest_csv. rewrite Hpre, Hc, Hw, Hf, Hr, Hdel. cbn [negb].
  f_equal. destruct g as [store staged]. cbn [g_store g_staged] in *. f_equal.
  exact (delete_created_task
           (mkUploadTask (new_task_id env) QUEUED _ (size f) 0 0 None) store Hfresh).
Qed.


Lemma unavailable_queue_rolls_back_witness :
  ingest_csv gateway_env_down (Some upload_shuffled) empty_gateway
  = (Rejected 503 "Processing queue unavailable", empty_gateway).
Proof.
  apply (unavailable_queue_rolls_back gateway_env_down upload_shuffled empty_gateway).
  - vm_compute. reflexivity.
  - reflexivity.
  - reflexivity.
  - reflexivity.
  - reflexivity.
  - reflexivity.
  - reflexivity.
Defined.

(** ** Dormant merchants *)

Lemma dormant_set_spec (s : Store) (m : Merchant) :
  In m (dormant_set s)
  <-> In m (merchants s)
      /\ forall t, In t (transactions s) -> merchant_id t <> m_merchant_id m.
Proof.
  unfold dormant_set. rewrite filter_In, negb_true_iff, <- not_true_iff_false.
  rewrite mem_string_In, in_map_iff. split.
  - intros [Hm Hno]. split; [exact Hm|]. intros t Ht Heq. apply Hno. eauto.
  - intros [Hm Hno]. split; [exact Hm|]. intros (t & Heq & Ht). exact (Hno t Ht Heq).
Qed.

Lemma get_page_incl {A : Type} (items : list A) (per_page number : Z) (data : list A) :
  Paginator.get_page items per_page number = Some data -> incl data items.
Proof.
  intros H. apply page_is_slice in H as (bottom & top & ->).
  unfold Paginator.slice. intros x Hx. eapply skipn_incl, firstn_incl, Hx.
Qed.

(** The dormant-merchants endpoint is sound and complete: every entry of
    every page stands for a stored merchant that no transaction names, and
    every such merchant is on one of the pages 1 to [total_pages]; an entry
    never has an empty name, and its zone is always [Unknown]. *)
Theorem dormant_merchants_sound_and_complete :
  forall (s : Store) (page_size : Z),
    (1 <= page_size <= 1000)%Z ->
    (forall page data pg e,
        dormant_merchants s page page_size = PageOf data pg ->
        In e data ->
        exists m, In m (merchants s) /\ e = dormant_entry m
                  /\ forall t, In t (transactions s) ->
                               merchant_id t <> m_merchant_id m)
    /\ (forall m,
           In m (merchants s) ->
           (forall t, In t (transactions s) -> merchant_id t <> m_merchant_id m) ->
           exists page data pg,
             (1 <= page <= pg_total_pages pg)%Z
             /\ dormant_merchants s page page_size = PageOf data pg
             /\ In (dormant_entry m) data)
    /\ (forall m, d_merchant_id (dormant_entry m) = m_merchant_id m
                  /\ d_merchant_name (dormant_entry m) <> EmptyString
                  /\ d_zone (dormant_entry m) = "Unknown"%string).
Proof.
  intros s page_size Hsize. split; [|split].
  - intros page data pg e Hresp He. unfold dormant_merchants in Hresp.
    destruct (invalid_pagination page page_size); [discriminate|].
    unfold paginated in Hresp.
    destruct (Paginator.get_page _ page_size page) as [page_obj|] eqn:Hget;
      [|discriminate].
    assert (page_obj = data) as -> by congruence.
    apply (get_page_incl _ _ _ _ Hget) in He.
    apply in_map_iff in He as (m & <- & Hm).
    apply dormant_set_spec in Hm as [Hm Hno]. eauto.
  - intros m Hm Hno.
    assert (Hin : In (dormant_entry m) (map dormant_entry (dormant_set s))).
    { apply in_map, dormant_set_spec. auto. }
    destruct (pages_cover (map dormant_entry (dormant_set s)) page_size ltac:(lia))
      as (pages & Hlen & Hget & Hcat & _).
    rewrite <- Hcat in Hin. apply in_concat in Hin as (data & Hdata & He).
    apply list_elem_of_In, list_elem_of_lookup in Hdata as [k Hk].
    pose proof (lookup_lt_Some _ _ _ Hk) as Hlt.
    exists (Z.of_nat k + 1)%Z, data.
    eexists. split; [|split; [|exact He]].
    2:{ unfold dormant_merchants.
        rewrite (proj2 (invalid_pagination_false (Z.of_nat k + 1) page_size)) by lia.
        unfold paginated. rewrite Hget by lia.
        replace (Z.to_nat (Z.of_nat k + 1 - 1)) with k by lia.
        rewrite Hk. reflexivity. }
    cbn [pg_total_pages]. lia.
  - intros m. split; [reflexivity|]. split; [|reflexivity].
    unfold dormant_entry. cbn [d_merchant_name].
    destruct (m_name m) as [n|]; [|discriminate].
    destruct n; simpl; discriminate.
Qed.

Lemma dormant_merchants_sound_and_complete_witness :
  exists page data pg,
    (1 <= page <= pg_total_pages pg)%Z
    /\ dormant_merchants sample_store page 2 = PageOf data pg
    /\ In (dormant_entry (mkMerchant "M3" None)) data.
Proof.
  destruct (dormant_merchants_sound_and_complete sample_store 2%Z ltac:(lia))
    as (_ & Hcomplete & _).
  apply Hcomplete.
  - simpl. auto.
  - intros t Ht. simpl in Ht.
    repeat (destruct Ht as [<-|Ht]; [discriminate|]). destruct Ht.
Defined.

(** ** Small categories: no anomaly but a tie *)










(** A tie with the threshold is decided by rounding: of [tie_txs] the
    sample store flags nothing, and the store whose deviation is a millionth
    lower flags the large transaction. *)
Example tie_is_decided_by_rounding :
  all_anomalies store_numerics tie_txs = []
  /\ all_anomalies numerics_low tie_txs = [anomaly_of tie_tx]
  /\ List.length (List.filter (in_category "Bills") tie_txs) = 10.
Proof. repeat split; vm_compute; reflexivity. Qed.



(** ** Zone and category are read without regard to letter case *)

Ltac ascii_cases c :=
  destruct c as [[] [] [] [] [] [] [] []]; vm_compute; reflexivity.

Lemma isspace_upper_char (c : ascii) :
  PyStr.isspace (PyStr.upper_char c) = PyStr.isspace c.
Proof. ascii_cases c. Qed.

Lemma iscased_upper_char (c : ascii) :
  PyStr.iscased (PyStr.upper_char c) = PyStr.iscased c.
Proof. ascii_cases c. Qed.

Lemma upper_upper_char (c : ascii) :
  PyStr.upper_char (PyStr.upper_char c) = PyStr.upper_char c.
Proof. ascii_cases c. Qed.

Lemma lower_upper_char (c : ascii) :
  PyStr.lower_char (PyStr.upper_char c) = PyStr.lower_char c.
Proof. ascii_cases c. Qed.

Lemma lstrip_chars_upper (l : list ascii) :
  PyStr.lstrip_chars (map PyStr.upper_char l)
  = map PyStr.upper_char (PyStr.lstrip_chars l).
Proof.
  induction l as [|c l IH]; [reflexivity|]. cbn [map PyStr.lstrip_chars].
  rewrite isspace_upper_char. destruct (PyStr.isspace c); [exact IH | reflexivity].
Qed.

Lemma strip_upper (s : string) :
  PyStr.strip (PyStr.upper s) = PyStr.upper (PyStr.strip s).
Proof.
  unfold PyStr.strip, PyStr.upper, PyStr.strip_chars. rewrite !chars_str.
  rewrite lstrip_chars_upper, <- map_rev, lstrip_chars_upper, map_rev. reflexivity.
Qed.

Lemma title_chars_upper (b : bool) (l : list ascii) :
  PyStr.title_chars b (map PyStr.upper_char l) = PyStr.title_chars b l.
Proof.
  revert b. induction l as [|c l IH]; intros b; [reflexivity|].
  cbn [map PyStr.title_chars].
  rewrite iscased_upper_char, IH, lower_upper_char, upper_upper_char. reflexivity.
Qed.

Lemma title_upper (s : string) : PyStr.title (PyStr.upper s) = PyStr.title s.
Proof. unfold PyStr.title, PyStr.upper. rewrite chars_str, title_chars_upper. reflexivity. Qed.

Lemma upper_strip_eq (s1 s2 : string) :
  PyStr.upper s1 = PyStr.upper s2 ->
  PyStr.upper (PyStr.strip s1) = PyStr.upper (PyStr.strip s2).
Proof. intros H. rewrite <- !strip_upper, H. reflexivity. Qed.

Lemma title_strip_eq (s1 s2 : string) :
  PyStr.upper s1 = PyStr.upper s2 ->
  PyStr.title (PyStr.strip s1) = PyStr.title (PyStr.strip s2).
Proof.
  intros H. rewrite <- (title_upper (PyStr.strip s1)), <- (title_upper (PyStr.strip s2)).
  rewrite (upper_strip_eq _ _ H). reflexivity.
Qed.

Lemma clean_record_ext (now : datetime) (row1 row2 : Row) :
  (forall k, k <> "ZONE"%string -> k <> "CATEGORY"%string ->
             row_get row1 k = row_get row2 k) ->
  PyStr.upper (row_get row1 "ZONE") = PyStr.upper (row_get row2 "ZONE") ->
  PyStr.upper (row_get row1 "CATEGORY") = PyStr.upper (row_get row2 "CATEGORY") ->
  clean_record now row1 = clean_record now row2.
Proof.
  intros Hsame Hz Hc. unfold clean_record.
  rewrite (Hsame "TRANSACTION_ID"%string) by discriminate.
  rewrite (Hsame "MERCHANT_ID"%string) by discriminate.
  rewrite (Hsame "AMOUNT"%string) by discriminate.
  rewrite (Hsame "TIMESTAMP"%string) by discriminate.
  rewrite (Hsame "CUSTOMER_PHONE"%string) by discriminate.
  rewrite (upper_strip_eq _ _ Hz), (title_strip_eq _ _ Hc). reflexivity.
Qed.

(** Two rows that differ only in the letter case of their zone and
    category cells are treated alike: both are rejected, or both give the
    same record. *)
Theorem zone_and_category_ignore_case :
  forall (now : datetime) (row : Row) (z1 z2 c1 c2 : string),
    PyStr.upper z1 = PyStr.upper z2 ->
    PyStr.upper c1 = PyStr.upper c2 ->
    clean_record now (<["ZONE"%string := Some z1]> (<["CATEGORY"%string := Some c1]> row))
    = clean_record now (<["ZONE"%string := Some z2]> (<["CATEGORY"%string := Some c2]> row)).
Proof.
  intros now row z1 z2 c1 c2 Hz Hc. apply clean_record_ext.
  - intros k Hk1 Hk2. rewrite !row_get_insert_ne by congruence. reflexivity.
  - unfold row_get. rewrite !lookup_insert. exact Hz.
  - unfold row_get. rewrite lookup_insert_ne by discriminate.
    rewrite (lookup_insert_ne _ "ZONE"%string "CATEGORY"%string) by discriminate.
    rewrite !lookup_insert. exact Hc.
Qed.

Lemma zone_and_category_ignore_case_witness :
  clean_record now0 (<["ZONE"%string := Some "north"%string]>
                       (<["CATEGORY"%string := Some "groceries"%string]> row_aware_iso))
  = clean_record now0 (<["ZONE"%string := Some "NoRtH"%string]>
                         (<["CATEGORY"%string := Some "GROCERIES"%string]> row_aware_iso)).
Proof.
  apply (zone_and_category_ignore_case now0 row_aware_iso); vm_compute; reflexivity.
Defined.

(** ** Submitting the same source twice *)

Lemma clean_record_transaction_id (now : datetime) (row : Row) (t : Transaction) :
  clean_record now row = Some t ->
  transaction_id t = PyStr.strip (row_get row "TRANSACTION_ID").
Proof.
  unfold clean_record. cbv zeta.
  destruct (forallb PyStr.truthy _); cbn [negb]; [|discriminate].
  destruct (clean_amount _) as [a|]; [|discriminate].
  destruct (clean_timestamp now _) as [ts|]; [|discriminate].
  intros H. apply (inj Some) in H. rewrite <- H. reflexivity.
Qed.

(** One row of the loop: the identifier of every record accepted so far is
    in the batch or in the store. *)
Lemma process_row_covers (env : Env) (i : nat) (st : Loop) (row : Row)
    (P : Transaction -> Prop) :
  (forall t, P t -> In t (l_batch_data st)
                    \/ has_transaction (transaction_id t)
                                       (transactions (l_store st)) = true) ->
  forall t, P t \/ clean_record (clock env i) row = Some t ->
            In t (l_batch_data (process_row env i st row))
            \/ has_transaction (transaction_id t)
                 (transactions (l_store (process_row env i st row))) = true.
Proof.
  intros Hcov u Hu.
  assert (Hflush : forall t,
             In u (l_batch_data st ++ [t]) ->
             has_transaction (transaction_id u)
               (insert_ignore (l_batch_data st ++ [t]) (transactions (l_store st)))
             = true) by (intros t Hin; apply insert_ignore_has, Hin).
  assert (Hkeep : forall batch,
             has_transaction (transaction_id u) (transactions (l_store st)) = true ->
             has_transaction (transaction_id u)
               (insert_ignore batch (transactions (l_store st))) = true)
    by (intros batch; apply insert_ignore_keeps).
  process_row_cases env i st row;
    cbn [save_task bulk_create set_merchants transactions].
  - right. destruct Hu as [Hu | [= <-]].
    + destruct (Hcov u Hu) as [Hin | Hhas]; [|apply Hkeep, Hhas].
      apply Hflush, in_or_app. left. exact Hin.
    + apply Hflush, in_or_app. right. left. reflexivity.
  - right. destruct Hu as [Hu | [= <-]].
    + destruct (Hcov u Hu) as [Hin | Hhas]; [|apply Hkeep, Hhas].
      apply Hflush, in_or_app. left. exact Hin.
    + apply Hflush, in_or_app. right. left. reflexivity.
  - destruct Hu as [Hu | [= <-]].
    + destruct (Hcov u Hu) as [Hin | Hhas]; [left; apply in_or_app; auto | right; exact Hhas].
    + left. apply in_or_app. right. left. reflexivity.
  - destruct Hu as [Hu | [= <-]].
    + destruct (Hcov u Hu) as [Hin | Hhas]; [left; apply in_or_app; auto | right; exact Hhas].
    + left. apply in_or_app. right. left. reflexivity.
  - destruct Hu as [Hu | Hu]; [exact (Hcov u Hu) | discriminate].
Qed.

Lemma run_loop_covers (env : Env) (all : list Row) :
  forall (rows pre : list Row) (st : Loop),
    all = pre ++ rows ->
    (forall j row t,
        j < List.length pre -> all !! j = Some row ->
        clean_record (clock env j) row = Some t ->
        In t (l_batch_data st)
        \/ has_transaction (transaction_id t) (transactions (l_store st)) = true) ->
    forall t, validated env all t ->
              In t (l_batch_data (run_loop env (List.length pre) rows st))
              \/ has_transaction (transaction_id t)
                   (transactions (l_store (run_loop env (List.length pre) rows st)))
                 = true.
Proof.
  induction rows as [|row rows IH]; intros pre st Hall Hcov; cbn [run_loop].
  - intros t (j & r & Hr & Hclean). apply (Hcov j r t); auto.
    apply lookup_lt_Some in Hr. rewrite Hall, app_nil_r in Hr. exact Hr.
  - assert (Hrow : all !! List.length pre = Some row).
    { rewrite Hall. rewrite lookup_app_r by lia. rewrite Nat.sub_diag. reflexivity. }
    specialize (IH (pre ++ [row]) (process_row env (List.length pre) st row)).
    rewrite length_app in IH. cbn [List.length] in IH.
    replace (List.length pre + 1) with (S (List.length pre)) in IH by lia.
    apply IH; [rewrite <- app_assoc; exact Hall|].
    intros j r t Hj Hr Hclean.
    apply (process_row_covers env (List.length pre) st row
             (fun t => exists j r, j < List.length pre /\ all !! j = Some r
                                   /\ clean_record (clock env j) r = Some t)).
    + intros u (j' & r' & Hj' & Hr' & Hc'). apply (Hcov j' r' u); auto.
    + destruct (Nat.eq_dec j (List.length pre)) as [->|Hne].
      * right. rewrite Hrow in Hr. injection Hr as <-. exact Hclean.
      * left. exists j, r. split; [lia | auto].
Qed.

(** One row of the loop, when the identifier of every acceptable record is
    stored already: the stored transactions stay as they are. *)
Lemma process_row_nothing_new (env : Env) (i : nat) (st : Loop) (row : Row) :
  (forall t, In t (l_batch_data st) ->
             has_transaction (transaction_id t) (transactions (l_store st)) = true) ->
  (forall t, clean_record (clock env i) row = Some t ->
             has_transaction (transaction_id t) (transactions (l_store st)) = true) ->
  transactions (l_store (process_row env i st row)) = transactions (l_store st)
  /\ forall t, In t (l_batch_data (process_row env i st row)) ->
               has_transaction (transaction_id t) (transactions (l_store st)) = true.
Proof.
  intros Hbatch Hrow.
  assert (Hb : forall t, clean_record (clock env i) row = Some t ->
               forall u, In u (l_batch_data st ++ [t]) ->
                         has_transaction (transaction_id u)
                                         (transactions (l_store st)) = true).
  { intros t Ht u Hu. apply in_app_or in Hu as [Hu | [<- | []]]; auto. }
  process_row_cases env i st row;
    cbn [save_task bulk_create set_merchants transactions].
  - split; [|intros u []]. apply insert_ignore_present, (Hb t eq_refl).
  - split; [|intros u []]. apply insert_ignore_present, (Hb t eq_refl).
  - split; [reflexivity | exact (Hb t eq_refl)].
  - split; [reflexivity | exact (Hb t eq_refl)].
  - split; [reflexivity | exact Hbatch].
Qed.

Lemma run_loop_nothing_new (env : Env) (all : list Row) :
  forall (rows pre : list Row) (st : Loop),
    all = pre ++ rows ->
    (forall t, validated env all t ->
               has_transaction (transaction_id t) (transactions (l_store st)) = true) ->
    (forall t, In t (l_batch_data st) ->
               has_transaction (transaction_id t) (transactions (l_store st)) = true) ->
    transactions (l_store (run_loop env (List.length pre) rows st))
    = transactions (l_store st)
    /\ forall t, In t (l_batch_data (run_loop env (List.length pre) rows st)) ->
                 has_transaction (transaction_id t) (transactions (l_store st)) = true.
Proof.
  induction rows as [|row rows IH]; intros pre st Hall Hval Hbatch; cbn [run_loop].
  - auto.
  - assert (Hrow : all !! List.length pre = Some row).
    { rewrite Hall. rewrite lookup_app_r by lia. rewrite Nat.sub_diag. reflexivity. }
    destruct (process_row_nothing_new env (List.length pre) st row Hbatch) as [H1 H2].
    { intros t Ht. apply Hval. exists (List.length pre), row. auto. }
    specialize (IH (pre ++ [row]) (process_row env (List.length pre) st row)).
    rewrite length_app in IH. cbn [List.length] in IH.
    replace (List.length pre + 1) with (S (List.length pre)) in IH by lia.
    rewrite H1 in IH. apply IH; [rewrite <- app_assoc; exact Hall | exact Hval | exact H2].
Qed.

(** After a run that completed, the identifier of every row the validator
    accepted is stored; and a run over a source all of whose acceptable
    identifiers are stored adds no transaction.  Hence submitting a source a
    second time, after a run of it completed, stores nothing new, provided
    the second run accepts no row that the first one rejected. *)
Theorem second_run_of_a_source_adds_nothing :
  forall (env1 env2 : Env) (tid1 tid2 : string) (rows : list Row) (store : Store),
    run_file_removed (process_csv_file env1 tid1 (Some rows) store) = true ->
    (forall i row, rows !! i = Some row ->
                   is_Some (clean_record (clock env2 i) row) ->
                   is_Some (clean_record (clock env1 i) row)) ->
    (forall t, validated env1 rows t ->
               has_transaction (transaction_id t)
                 (transactions (run_store (process_csv_file env1 tid1 (Some rows) store)))
               = true)
    /\ transactions
         (run_store (process_csv_file env2 tid2 (Some rows)
                       (run_store (process_csv_file env1 tid1 (Some rows) store))))
       = transactions (run_store (process_csv_file env1 tid1 (Some rows) store)).
Proof.
  intros env1 env2 tid1 tid2 rows store Hrem Hsame.
  assert (Hfirst : forall t, validated env1 rows t ->
             has_transaction (transaction_id t)
               (transactions (run_store (process_csv_file env1 tid1 (Some rows) store)))
             = true).
  { destruct (process_csv_file_outcome env1 tid1 (Some rows) store)
      as [(_ & H & _) | (task & rows' & Htask & [= <-] & Hs0 & _ & [[H _] | [Ht _]])];
      try congruence.
    intros t Ht'. rewrite Ht.
    set (st0 := mkLoop 0 0 [] (set_status PROCESSING task)
                       (save_task (set_status PROCESSING task) store) 0 1).
    destruct (run_loop_covers env1 rows rows [] st0 eq_refl) with (t := t)
      as [Hin | Hhas]; [cbn [List.length]; intros; lia | exact Ht' | |].
    - apply insert_ignore_has. exact Hin.
    - apply insert_ignore_keeps. exact Hhas. }
  split; [exact Hfirst|].
  set (s1 := run_store (process_csv_file env1 tid1 (Some rows) store)) in *.
  assert (Hsecond : forall t, validated env2 rows t ->
             has_transaction (transaction_id t) (transactions s1) = true).
  { intros t (i & row & Hrow & Hclean).
    destruct (Hsame i row Hrow) as [t1 Ht1]; [eauto|].
    rewrite (clean_record_transaction_id _ _ _ Hclean),
            <- (clean_record_transaction_id _ _ _ Ht1).
    apply Hfirst. exists i, row. auto. }
  destruct (process_csv_file_outcome env2 tid2 (Some rows) s1)
    as [(_ & _ & _ & H & _) | (task & rows' & Htask & [= <-] & Hs0 & _ & Hcases)];
    [exact H|].
  set (st0 := mkLoop 0 0 [] (set_status PROCESSING task)
                     (save_task (set_status PROCESSING task) s1) 0 1) in *.
  destruct (run_loop_nothing_new env2 rows rows [] st0 eq_refl) as [H1 H2].
  { exact Hsecond. }
  { intros t []. }
  cbn [List.length] in H1, H2.
  change (transactions (l_store st0)) with (transactions s1) in H1, H2.
  destruct Hcases as [[_ Ht] | [Ht _]]; rewrite Ht; [exact H1|].
  rewrite H1. apply insert_ignore_present. exact H2.
Qed.

Lemma second_run_of_a_source_adds_nothing_witness :
  transactions
    (run_store (process_csv_file env_ok "run-1" (Some [row_aware_iso; row_naive_iso])
                  (run_store (process_csv_file env_ok "run-1"
                                (Some [row_aware_iso; row_naive_iso]) queued_store))))
  = transactions
      (run_store (process_csv_file env_ok "run-1" (Some [row_aware_iso; row_naive_iso])
                    queued_store)).
Proof.
  apply (second_run_of_a_source_adds_nothing env_ok env_ok "run-1" "run-1"
           [row_aware_iso; row_naive_iso] queued_store).
  - vm_compute. reflexivity.
  - intros i row _ H. exact H.
Defined.

(** ** Cleaning is idempotent *)

Lemma isspace_lower_char (c : ascii) :
  PyStr.isspace (PyStr.lower_char c) = PyStr.isspace c.
Proof. ascii_cases c. Qed.

Lemma iscased_lower_char (c : ascii) :
  PyStr.iscased (PyStr.lower_char c) = PyStr.iscased c.
Proof. ascii_cases c. Qed.

Lemma lower_lower_char (c : ascii) :
  PyStr.lower_char (PyStr.lower_char c) = PyStr.lower_char c.
Proof. ascii_cases c. Qed.

Lemma phone_class_not_space (c : ascii) :
  phone_class c = true -> PyStr.isspace c = false.
Proof. destruct c as [[] [] [] [] [] [] [] []]; vm_compute; congruence. Qed.

Lemma lstrip_no_leading (l : list ascii) : no_leading_space (PyStr.lstrip_chars l).
Proof.
  induction l as [|c l IH]; simpl; [exact I|].
  destruct (PyStr.isspace c) eqn:Hc; [exact IH | exact Hc].
Qed.

Lemma no_leading_fixed (l : list ascii) :
  no_leading_space l -> PyStr.lstrip_chars l = l.
Proof. destruct l as [|c l]; simpl; [reflexivity|]. intros ->. reflexivity. Qed.

Lemma lstrip_split (l : list ascii) : exists sp, l = sp ++ PyStr.lstrip_chars l.
Proof.
  induction l as [|c l [sp IH]]; [exists []; reflexivity|]. simpl.
  destruct (PyStr.isspace c).
  - exists (c :: sp). simpl. f_equal. exact IH.
  - exists []. reflexivity.
Qed.

Lemma no_leading_prefix (l1 l2 : list ascii) :
  no_leading_space (l1 ++ l2) -> l1 <> [] -> no_leading_space l1.
Proof. destruct l1; [congruence | simpl; auto]. Qed.

Lemma nil_or_cons (l : list ascii) :
  l = [] \/ l <> [].
Proof. destruct l; [left; reflexivity | right; discriminate]. Qed.

(** A stripped list starts and ends without white space. *)
Lemma strip_chars_ends (l : list ascii) :
  no_leading_space (PyStr.strip_chars l)
  /\ no_leading_space (rev (PyStr.strip_chars l)).
Proof.
  unfold PyStr.strip_chars. rewrite rev_involutive. split; [|apply lstrip_no_leading].
  set (A := PyStr.lstrip_chars l).
  destruct (lstrip_split (rev A)) as [sp Hsp].
  set (B := PyStr.lstrip_chars (rev A)) in *.
  destruct (nil_or_cons (rev B)) as [-> | Hne]; [exact I|].
  apply (no_leading_prefix _ (rev sp)); [|exact Hne].
  rewrite <- rev_app_distr, <- Hsp, rev_involutive. apply lstrip_no_leading.
Qed.

Lemma strip_chars_fixed (l : list ascii) :
  no_leading_space l -> no_leading_space (rev l) -> PyStr.strip_chars l = l.
Proof.
  intros H1 H2. unfold PyStr.strip_chars.
  rewrite (no_leading_fixed l H1), (no_leading_fixed (rev l) H2). apply rev_involutive.
Qed.

Lemma strip_strip (s : string) : PyStr.strip (PyStr.strip s) = PyStr.strip s.
Proof.
  unfold PyStr.strip. rewrite chars_str. f_equal.
  destruct (strip_chars_ends (PyStr.chars s)). apply strip_chars_fixed; assumption.
Qed.

Lemma no_leading_same_spaces (l l' : list ascii) :
  map PyStr.isspace l' = map PyStr.isspace l ->
  no_leading_space l -> no_leading_space l'.
Proof.
  destruct l as [|c l], l' as [|c' l']; simpl; try discriminate; auto.
  intros [= -> _]. auto.
Qed.

Lemma title_chars_spaces (b : bool) (l : list ascii) :
  map PyStr.isspace (PyStr.title_chars b l) = map PyStr.isspace l.
Proof.
  revert b. induction l as [|c l IH]; intros b; [reflexivity|].
  cbn [PyStr.title_chars map]. rewrite IH. f_equal.
  destruct b; [apply isspace_lower_char | apply isspace_upper_char].
Qed.

Lemma title_chars_idem (b : bool) (l : list ascii) :
  PyStr.title_chars b (PyStr.title_chars b l) = PyStr.title_chars b l.
Proof.
  revert b. induction l as [|c l IH]; intros b; [reflexivity|].
  cbn [PyStr.title_chars]. destruct b.
  - rewrite lower_lower_char, iscased_lower_char, IH. reflexivity.
  - rewrite upper_upper_char, iscased_upper_char, IH. reflexivity.
Qed.

Lemma title_title (s : string) : PyStr.title (PyStr.title s) = PyStr.title s.
Proof. unfold PyStr.title. rewrite chars_str, title_chars_idem. reflexivity. Qed.

Lemma upper_upper (s : string) : PyStr.upper (PyStr.upper s) = PyStr.upper s.
Proof.
  unfold PyStr.upper. rewrite chars_str, map_map. f_equal.
  apply map_ext. intros c. apply upper_upper_char.
Qed.

Lemma strip_title_strip (s : string) :
  PyStr.strip (PyStr.title (PyStr.strip s)) = PyStr.title (PyStr.strip s).
Proof.
  unfold PyStr.strip at 1. unfold PyStr.title. rewrite chars_str. f_equal.
  unfold PyStr.strip. rewrite chars_str.
  destruct (strip_chars_ends (PyStr.chars s)) as [H1 H2].
  apply strip_chars_fixed.
  - exact (no_leading_same_spaces _ _ (title_chars_spaces false _) H1).
  - apply (no_leading_same_spaces (rev (PyStr.strip_chars (PyStr.chars s)))); [|exact H2].
    rewrite !map_rev, title_chars_spaces. reflexivity.
Qed.

Lemma strip_upper_strip (s : string) :
  PyStr.strip (PyStr.upper (PyStr.strip s)) = PyStr.upper (PyStr.strip s).
Proof. rewrite strip_upper, strip_strip. reflexivity. Qed.

(** The category block maps its own result to itself. *)
Lemma category_fixed_point (u : string) :
  PyStr.title (PyStr.strip u) = u ->
  PyStr.truthy u = true ->
  let category := default u (category_mapping !! PyStr.upper u) in
  PyStr.truthy (PyStr.title (PyStr.strip category)) = true
  /\ default (PyStr.title (PyStr.strip category))
             (category_mapping !! PyStr.upper (PyStr.title (PyStr.strip category)))
     = category.
Proof.
  intros Hu Ht. cbv zeta.
  destruct (category_mapping !! PyStr.upper u) as [v|] eqn:Hmap; cbn [default].
  - unfold category_mapping in Hmap. apply elem_of_list_to_map_2 in Hmap.
    apply list_elem_of_In in Hmap. cbn [In] in Hmap.
    repeat (destruct Hmap as [Hmap | Hmap];
            [apply (f_equal snd) in Hmap; cbn [snd] in Hmap; subst v;
             split; vm_compute; reflexivity|]).
    destruct Hmap.
  - rewrite Hu, Hmap. cbn [default]. auto.
Qed.

Lemma re_sub_keep_idem (keep : ascii -> bool) (s : string) :
  PyStr.re_sub_keep keep (PyStr.re_sub_keep keep s) = PyStr.re_sub_keep keep s.
Proof.
  unfold PyStr.re_sub_keep. rewrite chars_str. f_equal.
  apply filter_filter_implies. auto.
Qed.

Lemma strip_phone_clean (s : string) :
  PyStr.strip (PyStr.re_sub_keep phone_class s) = PyStr.re_sub_keep phone_class s.
Proof.
  unfold PyStr.strip, PyStr.re_sub_keep. rewrite chars_str. f_equal.
  assert (Hall : forall l, forallb phone_class l = true -> no_leading_space l).
  { intros [|c l]; simpl; [auto|]. intros H. apply andb_true_iff in H as [H _].
    apply phone_class_not_space, H. }
  apply strip_chars_fixed; apply Hall.
  - apply forallb_filter.
  - rewrite forallb_forall. intros c Hc. apply in_rev in Hc.
    apply filter_In in Hc as [_ Hc]. exact Hc.
Qed.

(** The phone block maps its own result to itself. *)
Lemma clean_phone_fixed_point (raw : string) :
  clean_phone (PyStr.strip (clean_phone raw)) = clean_phone raw.
Proof.
  destruct (clean_phone_cases raw) as (H1 & H2 & H3).
  destruct raw as [|c raw'] eqn:Hraw; [reflexivity|]. rewrite <- Hraw in *.
  assert (Hne : raw <> EmptyString) by (rewrite Hraw; discriminate).
  destruct (Nat.lt_ge_cases (digit_count raw) 10) as [Hlow|Hge].
  { rewrite (H2 Hne (or_introl Hlow)). vm_compute. reflexivity. }
  destruct (Nat.lt_ge_cases 15 (digit_count raw)) as [Hhigh|Hle].
  { rewrite (H2 Hne (or_intror Hhigh)). vm_compute. reflexivity. }
  destruct (H3 Hne (conj Hge Hle)) as [Hq _]. rewrite Hq, strip_phone_clean.
  destruct (clean_phone_cases (PyStr.re_sub_keep phone_class raw)) as (_ & _ & K3).
  rewrite digit_count_phone_clean in K3.
  destruct K3 as [K _]; [|lia|rewrite K; apply re_sub_keep_idem].
  intros Hempty. pose proof (digit_count_phone_clean raw) as Hd.
  rewrite Hempty in Hd. change (digit_count EmptyString) with 0 in Hd. lia.
Qed.

Lemma clean_record_fields (now : datetime) (row : Row) (t : Transaction) :
  clean_record now row = Some t ->
  forallb PyStr.truthy (required_fields row) = true
  /\ clean_amount (amount_field row) = Some (amount t)
  /\ clean_timestamp now (timestamp_field row) = Some (timestamp t)
  /\ transaction_id t = PyStr.strip (row_get row "TRANSACTION_ID")
  /\ merchant_id t = PyStr.strip (row_get row "MERCHANT_ID")
  /\ zone t = PyStr.upper (PyStr.strip (row_get row "ZONE"))
  /\ category t
     = default (PyStr.title (PyStr.strip (row_get row "CATEGORY")))
               (category_mapping
                  !! PyStr.upper (PyStr.title (PyStr.strip (row_get row "CATEGORY"))))
  /\ customer_phone t = clean_phone (phone_field row).
Proof.
  unfold clean_record, required_fields, amount_field, timestamp_field, phone_field.
  cbv zeta.
  destruct (forallb PyStr.truthy _) eqn:Hall; cbn [negb]; [|discriminate].
  destruct (clean_amount _) as [a|] eqn:Ha; [|discriminate].
  destruct (clean_timestamp now _) as [ts|] eqn:Hts; [|discriminate].
  intros H. apply (inj Some) in H. rewrite <- H.
  cbn [amount timestamp customer_phone transaction_id merchant_id zone category].
  repeat split; reflexivity.
Qed.

(** Cleaning is idempotent: a row that carries the cleaned text fields of
    a record (identifier, merchant, zone, category, phone), with the amount
    and timestamp cells the record was read from, is cleaned to the same
    record. *)
Theorem cleaning_is_idempotent :
  forall (now : datetime) (row row' : Row) (t : Transaction),
    clean_record now row = Some t ->
    row_get row' "TRANSACTION_ID" = transaction_id t ->
    row_get row' "MERCHANT_ID" = merchant_id t ->
    row_get row' "ZONE" = zone t ->
    row_get row' "CATEGORY" = category t ->
    row_get row' "CUSTOMER_PHONE" = customer_phone t ->
    row_get row' "AMOUNT" = row_get row "AMOUNT" ->
    row_get row' "TIMESTAMP" = row_get row "TIMESTAMP" ->
    clean_record now row' = Some t.
Proof.
  intros now row row' t Hclean Htid Hmid Hzone Hcat Hphone Hamount Hts.
  destruct (clean_record_fields _ _ _ Hclean)
    as (Hreq & Ha & Hstamp & Etid & Emid & Ezone & Ecat & Ephone).
  unfold required_fields, amount_field, timestamp_field, phone_field in *.
  cbn [forallb] in Hreq. rewrite !andb_true_iff in Hreq.
  destruct Hreq as (R1 & R2 & R3 & R4 & R5 & R6 & _).
  destruct (category_fixed_point (PyStr.title (PyStr.strip (row_get row "CATEGORY"))))
    as [C1 C2].
  { rewrite strip_title_strip. apply title_title. }
  { exact R4. }
  cbv zeta in C1, C2. rewrite <- Ecat in C1, C2.
  assert (F1 : PyStr.strip (row_get row' "TRANSACTION_ID") = transaction_id t)
    by (rewrite Htid, Etid; apply strip_strip).
  assert (F2 : PyStr.strip (row_get row' "MERCHANT_ID") = merchant_id t)
    by (rewrite Hmid, Emid; apply strip_strip).
  assert (F3 : PyStr.upper (PyStr.strip (row_get row' "ZONE")) = zone t).
  { rewrite Hzone, Ezone, strip_upper_strip. apply upper_upper. }
  assert (F5 : clean_phone (PyStr.strip (row_get row' "CUSTOMER_PHONE"))
               = customer_phone t).
  { rewrite Hphone, Ephone. apply clean_phone_fixed_point. }
  unfold clean_record. cbv zeta.
  rewrite F1, F2, F3, F5, Hcat, C2, Hamount, Hts, Ha, Hstamp.
  cbn [forallb]. rewrite C1, R5, R6.
  rewrite <- Etid in R1. rewrite <- Emid in R2. rewrite <- Ezone in R3.
  rewrite R1, R2, R3. cbn [andb negb].
  destruct t; reflexivity.
Qed.

Lemma cleaning_is_idempotent_witness :
  clean_record now0 (sample_row "T1" "M1" "NORTH" "Grocery" "12.50"
                                "2024-01-15T10:30:00+00:00" "+15551234567")
  = Some (mkTransaction "T1" "M1" "NORTH" "Grocery" (mkDecimal false 1250 2)
                        (utc 2024 1 15 10 30 0) "+15551234567").
Proof.
  apply (cleaning_is_idempotent now0 row_plus_phone); vm_compute; reflexivity.
Defined.

(** ** The average of an hour *)

(** An hour that has transactions is reported with their number and the
    rounded mean of their amounts. *)
Theorem hourly_average_is_mean :
  forall (round2 : Q -> Q) (s : Store) (h : Z),
    (0 <= h < 24)%Z ->
    List.filter (in_hour h) (transactions s) <> [] ->
    hourly_pattern round2 s !! Z.to_nat h
    = Some (mkHourRow h
              (List.length (List.filter (in_hour h) (transactions s)))
              (round2 (Qavg (map (fun t => dec_value (amount t))
                                 (List.filter (in_hour h) (transactions s)))))).
Proof.
  intros round2 s h Hr Hne.
  unfold hourly_pattern. rewrite fill_hours_lookup by exact Hr.
  destruct (hours_dict (hourly_data (transactions s)) !! h) as [data|] eqn:Hl.
  - unfold hours_dict in Hl.
    apply hours_dict_fold_some in Hl as [Hl | [Hin Hh]];
      [rewrite lookup_empty in Hl; discriminate|].
    apply in_hourly_data in Hin as [Hd _]. rewrite Hh in Hd. rewrite Hd. reflexivity.
  - unfold hours_dict in Hl. apply hours_dict_fold_none in Hl as [_ Hall].
    destruct (hourly_data_has_hour (transactions s) h Hr Hne) as (data & Hin & Hh).
    rewrite List.Forall_forall in Hall. exfalso. exact (Hall data Hin Hh).
Qed.

Lemma hourly_average_is_mean_witness :
  hourly_pattern (fun q => q) sample_store !! Z.to_nat 11
  = Some (mkHourRow 11
            (List.length (List.filter (in_hour 11) (transactions sample_store)))
            (Qavg (map (fun t => dec_value (amount t))
                       (List.filter (in_hour 11) (transactions sample_store))))).
Proof.
  apply (hourly_average_is_mean (fun q => q) sample_store 11%Z).
  - lia.
  - vm_compute. discriminate.
Defined.

(** ** A header row of plain cells *)

Lemma chars_append (s1 s2 : string) :
  PyStr.chars (s1 +:+ s2) = PyStr.chars s1 ++ PyStr.chars s2.
Proof.
  unfold PyStr.chars. induction s1 as [|c s1 IH]; [reflexivity|].
  simpl. f_equal. exact IH.
Qed.

Lemma plain_char_spec (c : ascii) :
  plain_char c = true ->
  Csv.is_nl c = false /\ Ascii.eqb c Csv.dquote = false
  /\ Ascii.eqb c "," = false /\ Ascii.eqb c Csv.NUL = false
  /\ Ascii.eqb c Csv.LF = false.
Proof.
  unfold plain_char, Csv.is_nl. rewrite negb_true_iff, !orb_false_iff. tauto.
Qed.

(** The characters of a plain cell are added to the field being read. *)
Lemma process_plain_in_field (nul : bool) (l line : list ascii) (field : list ascii)
    (fields : list string) :
  forallb plain_char l = true ->
  Csv.process_line nul (Csv.mkParser Csv.IN_FIELD field fields) (l ++ line)
  = Csv.process_line nul (Csv.mkParser Csv.IN_FIELD (rev l ++ field) fields) line.
Proof.
  revert field. induction l as [|x l IH]; intros field Hl; [reflexivity|].
  cbn [forallb] in Hl. apply andb_true_iff in Hl as [Hx Hl].
  destruct (plain_char_spec x Hx) as (Hnl & _ & Hcomma & Hnul & _).
  cbn [app Csv.process_line]. rewrite Hnul, andb_false_r.
  unfold Csv.process_char. cbn [Csv.p_state]. rewrite Hnl, Hcomma.
  unfold Csv.add_char. cbn [Csv.p_field Csv.p_fields].
  rewrite IH by exact Hl. cbn [rev]. rewrite <- app_assoc. reflexivity.
Qed.

Lemma process_plain_cell (nul : bool) (st : Csv.state) (l line : list ascii)
    (fields : list string) :
  st = Csv.START_RECORD \/ st = Csv.START_FIELD ->
  forallb plain_char l = true -> l <> [] ->
  Csv.process_line nul (Csv.mkParser st [] fields) (l ++ line)
  = Csv.process_line nul (Csv.mkParser Csv.IN_FIELD (rev l) fields) line.
Proof.
  intros Hst Hl Hne. destruct l as [|x l]; [congruence|].
  cbn [forallb] in Hl. apply andb_true_iff in Hl as [Hx Hl].
  destruct (plain_char_spec x Hx) as (Hnl & Hq & Hcomma & Hnul & _).
  cbn [app Csv.process_line]. rewrite Hnul, andb_false_r.
  assert (Hstep : Csv.process_char (Csv.mkParser st [] fields) (Some x)
                  = Some (Csv.mkParser Csv.IN_FIELD [x] fields)).
  { destruct Hst as [-> | ->]; unfold Csv.process_char; cbn [Csv.p_state];
      rewrite Hnl, Hq, Hcomma; reflexivity. }
  rewrite Hstep, process_plain_in_field by exact Hl.
  cbn [rev]. reflexivity.
Qed.

(** A plain cell and the comma after it. *)
Lemma process_cell_comma (nul : bool) (st : Csv.state) (h : string)
    (line : list ascii) (fields : list string) :
  st = Csv.START_RECORD \/ st = Csv.START_FIELD ->
  plain h = true ->
  Csv.process_line nul (Csv.mkParser st [] fields) (PyStr.chars h ++ ","%char :: line)
  = Csv.process_line nul (Csv.mkParser Csv.START_FIELD [] (h :: fields)) line.
Proof.
  intros Hst Hh. unfold plain in Hh.
  destruct (PyStr.chars h) as [|x l] eqn:Hchars.
  - assert (h = EmptyString) as -> by (rewrite <- (str_chars h), Hchars; reflexivity).
    cbn [app Csv.process_line]. change (Ascii.eqb "," Csv.NUL) with false.
    rewrite andb_false_r. destruct Hst as [-> | ->]; reflexivity.
  - rewrite process_plain_cell by (auto; discriminate).
    cbn [Csv.process_line]. rewrite <- Hchars.
    change (Ascii.eqb "," Csv.NUL) with false. rewrite andb_false_r.
    unfold Csv.process_char, Csv.save_field. cbn [Csv.p_state Csv.p_field Csv.p_fields].
    change (Csv.is_nl ",") with false. change (Ascii.eqb "," ",") with true. cbv iota.
    rewrite rev_involutive, str_chars. reflexivity.
Qed.

(** The last plain cell of a line and the line feed after it. *)
Lemma process_cell_end (nul : bool) (st : Csv.state) (h : string)
    (fields : list string) :
  st = Csv.START_FIELD \/ (st = Csv.START_RECORD /\ h <> EmptyString) ->
  plain h = true ->
  Csv.process_line nul (Csv.mkParser st [] fields) (PyStr.chars h ++ [Csv.LF])
  = Some (Csv.mkParser Csv.START_RECORD [] (h :: fields)).
Proof.
  intros Hst Hh. unfold plain in Hh.
  destruct (PyStr.chars h) as [|x l] eqn:Hchars.
  - assert (h = EmptyString) as -> by (rewrite <- (str_chars h), Hchars; reflexivity).
    destruct Hst as [-> | [_ Hne]]; [|congruence].
    cbn [app Csv.process_line]. change (Ascii.eqb Csv.LF Csv.NUL) with false.
    rewrite andb_false_r. reflexivity.
  - rewrite process_plain_cell;
      [| destruct Hst as [-> | [-> _]]; auto | exact Hh | discriminate].
    rewrite <- Hchars. cbn [Csv.process_line].
    change (Ascii.eqb Csv.LF Csv.NUL) with false. rewrite andb_false_r.
    unfold Csv.process_char, Csv.save_field, Csv.set_state.
    cbn [Csv.p_state Csv.p_field Csv.p_fields].
    change (Csv.is_nl Csv.LF) with true. cbv iota.
    cbn [Csv.p_state Csv.p_field Csv.p_fields].
    rewrite rev_involutive, str_chars. reflexivity.
Qed.

(** A line of plain cells separated by commas, ended by a line feed. *)
Lemma process_header_line (nul : bool) (hs : list string) :
  forall (st : Csv.state) (fields : list string),
    hs <> [] ->
    st = Csv.START_FIELD \/ (st = Csv.START_RECORD /\ hs <> [EmptyString]) ->
    List.Forall (fun h => plain h = true) hs ->
    Csv.process_line nul (Csv.mkParser st [] fields)
                     (PyStr.chars (PyStr.join "," hs) ++ [Csv.LF])
    = Some (Csv.mkParser Csv.START_RECORD [] (rev hs ++ fields)).
Proof.
  induction hs as [|h hs IH]; intros st fields Hne Hst Hall; [congruence|].
  apply List.Forall_cons_iff in Hall as [Hh Hall].
  destruct hs as [|h2 hs].
  - cbn [PyStr.join rev app]. apply process_cell_end; [|exact Hh].
    destruct Hst as [-> | [-> Hst]]; [auto|]. right. split; [reflexivity|]. congruence.
  - change (PyStr.join "," (h :: h2 :: hs))
      with (h +:+ "," +:+ PyStr.join "," (h2 :: hs)).
    rewrite !chars_append, <- !app_assoc.
    change (PyStr.chars "," ++ ?l) with (","%char :: l).
    rewrite process_cell_comma;
      [| destruct Hst as [-> | [-> _]]; auto | exact Hh].
    rewrite (IH Csv.START_FIELD (h :: fields)); [|discriminate | auto | exact Hall].
    f_equal. f_equal. cbn [rev]. rewrite <- !app_assoc. reflexivity.
Qed.

(** The first line of a text, when it holds no line feed. *)
Lemma lines_first (l rest : list ascii) :
  forallb (fun c => negb (Ascii.eqb c Csv.LF)) l = true ->
  Csv.lines_aux [] (l ++ Csv.LF :: rest) = (l ++ [Csv.LF]) :: Csv.lines_aux [] rest.
Proof.
  assert (Hgen : forall cur,
             forallb (fun c => negb (Ascii.eqb c Csv.LF)) l = true ->
             Csv.lines_aux cur (l ++ Csv.LF :: rest)
             = (rev cur ++ l ++ [Csv.LF]) :: Csv.lines_aux [] rest).
  { induction l as [|x l IH]; intros cur Hl.
    - cbn [app Csv.lines_aux]. change (Ascii.eqb Csv.LF Csv.LF) with true. cbv iota.
      cbn [rev]. reflexivity.
    - cbn [forallb] in Hl. apply andb_true_iff in Hl as [Hx Hl].
      apply negb_true_iff in Hx.
      cbn [app Csv.lines_aux]. rewrite Hx, IH by exact Hl.
      cbn [rev]. rewrite <- !app_assoc. reflexivity. }
  exact (Hgen []).
Qed.

Lemma join_no_line_feed (hs : list string) :
  List.Forall (fun h => plain h = true) hs ->
  forallb (fun c => negb (Ascii.eqb c Csv.LF)) (PyStr.chars (PyStr.join "," hs)) = true.
Proof.
  assert (Hcell : forall h, plain h = true ->
             forallb (fun c => negb (Ascii.eqb c Csv.LF)) (PyStr.chars h) = true).
  { intros h Hh. unfold plain in Hh. rewrite forallb_forall in *.
    intros c Hc. destruct (plain_char_spec c (Hh c Hc)) as (_ & _ & _ & _ & ->).
    reflexivity. }
  induction hs as [|h hs IH]; intros Hall; [reflexivity|].
  apply List.Forall_cons_iff in Hall as [Hh Hall].
  destruct hs as [|h2 hs]; [exact (Hcell h Hh)|].
  change (PyStr.join "," (h :: h2 :: hs))
    with (h +:+ "," +:+ PyStr.join "," (h2 :: hs)).
  rewrite !chars_append, !forallb_app, (Hcell h Hh), (IH Hall). reflexivity.
Qed.

(** The reader takes a first line of plain cells, separated by commas and
    ended by a line feed, as the header row. *)
Lemma fieldnames_of_plain_header (nul : bool) (hs : list string) (rest : string) :
  hs <> [] -> hs <> [EmptyString] ->
  List.Forall (fun h => plain h = true) hs ->
  Csv.fieldnames nul (PyStr.join "," hs +:+ String Csv.LF rest) = Csv.RowOf hs.
Proof.
  intros Hne Hne1 Hall. unfold Csv.fieldnames, Csv.lines.
  rewrite chars_append.
  change (PyStr.chars (String Csv.LF rest)) with (Csv.LF :: PyStr.chars rest).
  rewrite lines_first by (apply join_no_line_feed, Hall).
  cbn [Csv.read_record].
  rewrite (process_header_line nul hs Csv.START_RECORD []) by auto.
  cbn [Csv.p_state Csv.p_fields]. rewrite app_nil_r, rev_involutive. reflexivity.
Qed.

Lemma str_app (l1 l2 : list ascii) : PyStr.str (l1 ++ l2) = PyStr.str l1 +:+ PyStr.str l2.
Proof.
  unfold PyStr.str. induction l1 as [|c l1 IH]; [reflexivity|].
  cbn [app string_of_list_ascii]. rewrite IH. reflexivity.
Qed.

Lemma length_chars (s : string) : List.length (PyStr.chars s) = String.length s.
Proof.
  unfold PyStr.chars. induction s as [|c s IH]; [reflexivity|]. simpl. f_equal. exact IH.
Qed.

(** The sample of a text whose first line is shorter than the sample. *)
Lemma take_first_line (n : nat) (line rest : string) (c : ascii) :
  String.length line < n ->
  exists rest', PyStr.take n (line +:+ String c rest) = line +:+ String c rest'.
Proof.
  intros Hlen. unfold PyStr.take. rewrite chars_append.
  change (PyStr.chars (String c rest)) with (c :: PyStr.chars rest).
  rewrite firstn_app, firstn_all2 by (rewrite length_chars; lia).
  rewrite length_chars.
  destruct (n - String.length line) as [|k] eqn:Hk; [lia|].
  cbn [firstn]. exists (PyStr.str (firstn k (PyStr.chars rest))).
  rewrite str_app, str_chars. reflexivity.
Qed.

Lemma lstrip_keeps (c : ascii) (l : list ascii) :
  In c l -> PyStr.isspace c = false -> In c (PyStr.lstrip_chars l).
Proof.
  intros Hin Hc. induction l as [|x l IH]; [destruct Hin|]. simpl.
  destruct (PyStr.isspace x) eqn:Hx; [|exact Hin].
  destruct Hin as [-> | Hin]; [congruence | exact (IH Hin)].
Qed.

(** A text that holds a character other than white space is not blank. *)
Lemma strip_truthy (c : ascii) (s : string) :
  In c (PyStr.chars s) -> PyStr.isspace c = false ->
  PyStr.truthy (PyStr.strip s) = true.
Proof.
  intros Hin Hc.
  assert (H : In c (PyStr.strip_chars (PyStr.chars s))).
  { unfold PyStr.strip_chars. apply -> in_rev. apply lstrip_keeps; [|exact Hc].
    apply -> in_rev. apply lstrip_keeps; assumption. }
  unfold PyStr.strip. destruct (PyStr.strip_chars (PyStr.chars s)); [destruct H|].
  reflexivity.
Qed.

Lemma chars_join_incl (h : string) (hs : list string) :
  In h hs -> incl (PyStr.chars h) (PyStr.chars (PyStr.join "," hs)).
Proof.
  induction hs as [|h1 hs IH]; intros Hin; [destruct Hin|].
  destruct hs as [|h2 hs].
  - destruct Hin as [-> | []]. apply incl_refl.
  - change (PyStr.join "," (h1 :: h2 :: hs))
      with (h1 +:+ "," +:+ PyStr.join "," (h2 :: hs)).
    rewrite !chars_append. destruct Hin as [-> | Hin].
    + apply incl_appl, incl_refl.
    + apply incl_appr, incl_appr, IH, Hin.
Qed.

(** An upload whose first line is made of plain cells separated by
    commas, among them every required header in any order, and is shorter
    than the sample of 2048 characters, passes the checks made before a run
    record is created, whichever way the reader treats NUL; with the store
    and the staging directory writable and a fallback thread that starts it
    is accepted. *)
Theorem plain_header_upload_is_accepted :
  forall (env : GatewayEnv) (f : UploadedFile) (g : Gateway) (hs : list string)
         (rest : string),
    content f = PyStr.join "," hs +:+ String Csv.LF rest ->
    List.Forall (fun h => plain h = true) hs ->
    String.length (PyStr.join "," hs) < 2048 ->
    (forall h, In h required_headers -> In h hs) ->
    PyStr.truthy (name f) = true ->
    PyStr.endswith (name f) ".csv" = true ->
    (0 < size f <= 3 * 1024 * 1024 * 1024)%Z ->
    Csv.fieldnames (csv_nul_error env) (PyStr.take 2048 (content f)) = Csv.RowOf hs
    /\ preflight (csv_nul_error env) (Some f) = None
    /\ (create_ok env = true -> write_ok env = true ->
        fallback_ok env = true ->
        exists receipt, (ingest_csv env (Some f) g).1 = Accepted receipt).
Proof.
  intros env f g hs rest Hcontent Hplain Hlen Hreq Hname Hcsv Hsize.
  destruct (take_first_line 2048 (PyStr.join "," hs) rest Csv.LF Hlen) as [rest' Htake].
  rewrite <- Hcontent in Htake.
  assert (Hamount : In "AMOUNT"%string hs).
  { apply Hreq. unfold required_headers. simpl. tauto. }
  assert (Hfields : Csv.fieldnames (csv_nul_error env) (PyStr.take 2048 (content f))
                    = Csv.RowOf hs).
  { rewrite Htake. apply fieldnames_of_plain_header; [| |exact Hplain].
    - intros ->. destruct Hamount.
    - intros ->. destruct Hamount as [H|[]]. discriminate. }
  assert (Hpre : preflight (csv_nul_error env) (Some f) = None).
  { apply preflight_passes. split; [exact Hname|]. split; [lia|]. split; [lia|].
    split; [exact Hcsv|]. split; [|eauto].
    rewrite Htake. apply (strip_truthy "A"); [|reflexivity].
    rewrite chars_append. apply in_or_app. left.
    apply (chars_join_incl "AMOUNT" hs Hamount). simpl. tauto. }
  split; [exact Hfields|]. split; [exact Hpre|].
  intros Hc Hw Hd. unfold ingest_csv. rewrite Hpre, Hc, Hw, Hd. cbn [negb fst].
  eexists. reflexivity.
Qed.

Lemma plain_header_upload_is_accepted_witness :
  Csv.fieldnames (csv_nul_error gateway_env) (PyStr.take 2048 (content upload_shuffled))
  = Csv.RowOf ["ZONE"; "AMOUNT"; "NOTE"; "TRANSACTION_ID"; "CUSTOMER_PHONE";
               "MERCHANT_ID"; "TIMESTAMP"; "CATEGORY"]%string
  /\ preflight (csv_nul_error gateway_env) (Some upload_shuffled) = None
  /\ (create_ok gateway_env = true -> write_ok gateway_env = true ->
      fallback_ok gateway_env = true ->
      exists receipt,
        (ingest_csv gateway_env (Some upload_shuffled) empty_gateway).1
        = Accepted receipt).
Proof.
  apply (plain_header_upload_is_accepted gateway_env upload_shuffled empty_gateway
           ["ZONE"; "AMOUNT"; "NOTE"; "TRANSACTION_ID"; "CUSTOMER_PHONE"; "MERCHANT_ID";
            "TIMESTAMP"; "CATEGORY"]%string
           ("north,12.50,x,T1,5551234567,M1,2024-01-15T10:30:00+00:00,grocery"
            +:+ String "010" EmptyString)).
  - reflexivity.
  - repeat (constructor; [vm_compute; reflexivity|]). constructor.
  - vm_compute. lia.
  - intros h Hh. unfold required_headers in Hh.
    repeat (destruct Hh as [<-|Hh]; [simpl; auto 20|]). destruct Hh.
  - reflexivity.
  - vm_compute. reflexivity.
  - vm_compute. split; [reflexivity | discriminate].
Defined.
